(** * A shallow embedding of the phone-account ledger

    The ledger is the single Python file of the repository: a console program
    that keeps one account per phone number, with a float balance, a PIN, a
    security question and a validity period.  The embedding follows the
    classes of the source ([Config], [NavigationManager], [SecurityManager],
    [TimeManager], [FileStorageManager], [AccountManager],
    [PhoneAccountSystem]) and keeps their method names.

    Conventions of the model.
    - A Python [str] is a [string]; a character is its code point, so the
      model covers the code points below 256.
    - A Python [float] is a primitive binary64 float ([PrimFloat]), with the
      same rounding, infinities and NaN.
    - A [datetime] is the number of microseconds since 0001-01-01T00:00:00
      (the ISO text kept in the data file is its lossless print).
    - The console is a list of the lines still to be typed; [input()] and
      [getpass.getpass()] take the next line and raise [EOFError] on an empty
      list.  What the program shows is a list of events.
    - The clock is part of the world and stands still during a run: every
      [datetime.now()] of one command reads the same instant.
    - A write of the data file either replaces it by the whole store or
      fails and leaves it as it was; which of the two is told by the world.
    - An exception that no method catches ends the run ([main] has no
      handler): the run raises instead of returning.
    - [hashlib.sha256], [float()] and [int()] are Python's, not the
      repository's: the model takes them as the three fields of [Builtins]. *)

From Stdlib Require Import ZArith Zpower List String Ascii Bool Lia Floats.
Import ListNotations.

Local Open Scope string_scope.
Local Open Scope Z_scope.

Set Implicit Arguments.

(* ================================================================== *)
(** ** Python built-ins on [str] *)

Module Str.

Definition code (c : ascii) : nat := nat_of_ascii c.

Definition between (lo hi : nat) (c : ascii) : bool :=
  (Nat.leb lo (code c) && Nat.leb (code c) hi)%bool.

(** [str.isspace] of one character: TAB..CR, FS..US, space, NEL, NBSP. *)
Definition isspace (c : ascii) : bool :=
  (between 9 13 c || between 28 32 c
   || Nat.eqb (code c) 133 || Nat.eqb (code c) 160)%bool.

(** The regular expression class [\d] (Unicode category Nd): below 256
    these are the ten ASCII digits. *)
Definition isdecimal (c : ascii) : bool := between 48 57 c.

(** [str.isdigit] of one character also takes the superscripts
    U+00B2, U+00B3 and U+00B9. *)
Definition isdigit_char (c : ascii) : bool :=
  (isdecimal c || Nat.eqb (code c) 178 || Nat.eqb (code c) 179
   || Nat.eqb (code c) 185)%bool.

Fixpoint all (p : ascii -> bool) (s : string) : bool :=
  match s with
  | EmptyString => true
  | String c r => (p c && all p r)%bool
  end.

(** [s.isdigit()]: at least one character, and every one a digit. *)
Definition isdigit (s : string) : bool :=
  match s with
  | EmptyString => false
  | _ => all isdigit_char s
  end.

Definition len (s : string) : Z := Z.of_nat (String.length s).

Fixpoint lstrip (s : string) : string :=
  match s with
  | EmptyString => EmptyString
  | String c r => if isspace c then lstrip r else s
  end.

Fixpoint rstrip (s : string) : string :=
  match s with
  | EmptyString => EmptyString
  | String c r =>
      match rstrip r with
      | EmptyString => if isspace c then EmptyString else String c EmptyString
      | r' => String c r'
      end
  end.

(** [s.strip()] *)
Definition strip (s : string) : string := rstrip (lstrip s).

Definition lower_char (c : ascii) : ascii :=
  if (between 65 90 c
      || (between 192 222 c && negb (Nat.eqb (code c) 215)))%bool
  then ascii_of_nat (code c + 32) else c.

Fixpoint lower (s : string) : string :=
  match s with
  | EmptyString => EmptyString
  | String c r => String (lower_char c) (lower r)
  end.

(** [s[-n:]] *)
Definition suffix (n : nat) (s : string) : string :=
  substring (String.length s - n) n s.

Definition is_empty (s : string) : bool :=
  match s with EmptyString => true | _ => false end.

End Str.

(** The functions of the Python runtime that the ledger calls and that the
    model does not open: [hashlib.sha256(b).hexdigest()] on the UTF-8 bytes
    of a [str], and the conversions [float(s)] and [int(s)], which give
    [None] where Python raises [ValueError]. *)
Class Builtins := {
  sha256_hexdigest : string -> string;
  float_of_str : string -> option float;
  int_of_str : string -> option Z
}.

(* ================================================================== *)
(** ** class Config *)

Module Config.
Definition BACKUP_COUNT : nat := 10.
Definition MAX_AUTH_ATTEMPTS : nat := 3.
Definition MIN_ANSWER_LENGTH : Z := 2.
Definition DEFAULT_REGISTRATION_BONUS : float := 50%float.
End Config.

(* ================================================================== *)
(** ** class NavigationManager *)

Module NavigationManager.
(** [return choice == '0'] *)
Definition handle_back_choice (choice : string) : bool := String.eqb choice "0".
End NavigationManager.

(* ================================================================== *)
(** ** class SecurityManager *)

Module SecurityManager.

(** The pattern [^1[3-9]\d{9}$] is a sequence of character classes followed
    by the anchor [$]; [re.match] anchors it at the start. *)
Inductive cls : Type :=
| Lit (c : ascii)
| Range (lo hi : ascii)
| Digit.

Definition cls_match (k : cls) (c : ascii) : bool :=
  match k with
  | Lit a => Ascii.eqb a c
  | Range lo hi => Str.between (Str.code lo) (Str.code hi) c
  | Digit => Str.isdecimal c
  end.

(** Consumes one character per class; [None] when a class does not match. *)
Fixpoint match_classes (ks : list cls) (s : string) : option string :=
  match ks with
  | [] => Some s
  | k :: ks' =>
      match s with
      | EmptyString => None
      | String c r => if cls_match k c then match_classes ks' r else None
      end
  end.

(** Python's [$] (without [re.MULTILINE]) matches at the end of the string
    and also just before a newline that ends the string. *)
Definition dollar (rest : string) : bool :=
  match rest with
  | EmptyString => true
  | String c EmptyString => Ascii.eqb c "010"%char
  | _ => false
  end.

Definition re_match (ks : list cls) (s : string) : bool :=
  match match_classes ks s with
  | Some rest => dollar rest
  | None => false
  end.

Definition phone_pattern : list cls :=
  Lit "1" :: Range "3" "9" :: repeat Digit 9.

Definition validate_phone (phone : string) : bool :=
  re_match phone_pattern phone.

Definition validate_password (password : string) : bool :=
  (Str.len password =? 4) && Str.isdigit password.

Section Hashing.
Context `{Builtins}.

Definition hash_password (password : string) : string :=
  sha256_hexdigest password.

Definition hash_answer (answer : string) : string :=
  sha256_hexdigest (Str.lower (Str.strip answer)).

(** The stored hash is [None] until the security step of registration. *)
Definition verify_password (input_password : string)
    (stored_hash : option string) : bool :=
  match stored_hash with
  | Some h => String.eqb (hash_password input_password) h
  | None => false
  end.

Definition verify_answer (input_answer : string)
    (stored_hash : option string) : bool :=
  match stored_hash with
  | Some h => String.eqb (hash_answer input_answer) h
  | None => false
  end.
End Hashing.

End SecurityManager.

(* ================================================================== *)
(** ** class TimeManager *)

Module TimeManager.

Definition SECOND : Z := 1000000.
Definition DAY : Z := 86400 * SECOND.

(** [datetime.max] is 9999-12-31T23:59:59.999999, day 3652059 of the
    calendar; [timedelta.max.days] is 999999999. *)
Definition DATETIME_END : Z := 3652059 * DAY.
Definition TIMEDELTA_MAX_DAYS : Z := 999999999.

(** [timedelta(days=n)], [None] for [OverflowError]. *)
Definition timedelta_days (n : Z) : option Z :=
  if Z.abs n <=? TIMEDELTA_MAX_DAYS then Some (n * DAY) else None.

(** [t + delta] on a [datetime], [None] for [OverflowError]. *)
Definition datetime_add (t delta : Z) : option Z :=
  let r := t + delta in
  if (0 <=? r) && (r <? DATETIME_END) then Some r else None.

Definition calculate_expiry_time (now valid_days : Z) : option Z :=
  match timedelta_days valid_days with
  | Some delta => datetime_add now delta
  | None => None
  end.

(** [datetime.now() > expiry] *)
Definition is_expired (now expiry_time : Z) : bool := expiry_time <? now.

(** [max(0, (expiry - now).days)]; [timedelta.days] is the floor. *)
Definition get_remaining_days (now expiry_time : Z) : Z :=
  Z.max 0 ((expiry_time - now) / DAY).

Inductive remaining : Type :=
| RemExpired               (* "已过期" *)
| RemHours (h : Z)         (* "{h}小时" *)
| RemDays (d : Z).         (* "{d}天" *)

(** [(expiry - now).seconds] is the second of the day of the difference. *)
Definition format_remaining_time (now expiry_time : Z) : remaining :=
  if is_expired now expiry_time then RemExpired
  else
    let remaining_days := get_remaining_days now expiry_time in
    if remaining_days =? 0
    then RemHours (Z.max 0 ((((expiry_time - now) mod DAY) / SECOND) / 3600))
    else RemDays remaining_days.

End TimeManager.

(* ================================================================== *)
(** ** The account store *)

(** The three values the source writes into ["status"]. *)
Inductive Status : Type :=
| StatusUnset      (* "未设置有效期" *)
| StatusActive     (* "正常" *)
| StatusExpired.   (* "已过期" *)

Definition Status_eqb (a b : Status) : bool :=
  match a, b with
  | StatusUnset, StatusUnset | StatusActive, StatusActive
  | StatusExpired, StatusExpired => true
  | _, _ => false
  end.

(** One value of the [accounts] dictionary.  The keys that
    [register_phone] writes at creation are plain fields; the keys added
    later ([valid_days], [created_at], [expiry_time], [last_modified]) are
    options, [None] while the key is absent.  [security_question] is the
    index of the chosen entry of [common_questions]. *)
Record Account : Type := mkAccount {
  balance : float;
  last_four : string;
  password : option string;
  security_question : option nat;
  security_answer : option string;
  status : Status;
  registration_bonus : float;
  valid_days : option Z;
  created_at : option Z;
  expiry_time : option Z;
  last_modified : option Z
}.

Definition set_balance (x : float) (a : Account) : Account :=
  mkAccount x (last_four a) (password a) (security_question a)
    (security_answer a) (status a) (registration_bonus a) (valid_days a)
    (created_at a) (expiry_time a) (last_modified a).

Definition set_password (x : option string) (a : Account) : Account :=
  mkAccount (balance a) (last_four a) x (security_question a)
    (security_answer a) (status a) (registration_bonus a) (valid_days a)
    (created_at a) (expiry_time a) (last_modified a).

Definition set_security_question (x : option nat) (a : Account) : Account :=
  mkAccount (balance a) (last_four a) (password a) x
    (security_answer a) (status a) (registration_bonus a) (valid_days a)
    (created_at a) (expiry_time a) (last_modified a).

Definition set_security_answer (x : option string) (a : Account) : Account :=
  mkAccount (balance a) (last_four a) (password a) (security_question a)
    x (status a) (registration_bonus a) (valid_days a)
    (created_at a) (expiry_time a) (last_modified a).

Definition set_status (x : Status) (a : Account) : Account :=
  mkAccount (balance a) (last_four a) (password a) (security_question a)
    (security_answer a) x (registration_bonus a) (valid_days a)
    (created_at a) (expiry_time a) (last_modified a).

Definition set_valid_days_field (x : option Z) (a : Account) : Account :=
  mkAccount (balance a) (last_four a) (password a) (security_question a)
    (security_answer a) (status a) (registration_bonus a) x
    (created_at a) (expiry_time a) (last_modified a).

Definition set_created_at (x : option Z) (a : Account) : Account :=
  mkAccount (balance a) (last_four a) (password a) (security_question a)
    (security_answer a) (status a) (registration_bonus a) (valid_days a)
    x (expiry_time a) (last_modified a).

Definition set_expiry_time (x : option Z) (a : Account) : Account :=
  mkAccount (balance a) (last_four a) (password a) (security_question a)
    (security_answer a) (status a) (registration_bonus a) (valid_days a)
    (created_at a) x (last_modified a).

Definition set_last_modified (x : option Z) (a : Account) : Account :=
  mkAccount (balance a) (last_four a) (password a) (security_question a)
    (security_answer a) (status a) (registration_bonus a) (valid_days a)
    (created_at a) (expiry_time a) x.

(** A Python [dict] keyed by phone number.  It keeps insertion order, which
    [find_account] and the listings follow, so it is an association list:
    assignment to a present key replaces the value in place, assignment to a
    new key appends, [del] removes the entry. *)
Definition dict : Type := list (string * Account).

Fixpoint dict_get (d : dict) (k : string) : option Account :=
  match d with
  | [] => None
  | (k', v) :: r => if String.eqb k' k then Some v else dict_get r k
  end.

Fixpoint dict_set (d : dict) (k : string) (v : Account) : dict :=
  match d with
  | [] => [(k, v)]
  | (k', v') :: r =>
      if String.eqb k' k then (k, v) :: r else (k', v') :: dict_set r k v
  end.

Fixpoint dict_del (d : dict) (k : string) : dict :=
  match d with
  | [] => []
  | (k', v') :: r =>
      if String.eqb k' k then r else (k', v') :: dict_del r k
  end.

(** [k in d] *)
Definition dict_mem (d : dict) (k : string) : bool :=
  match dict_get d k with Some _ => true | None => false end.

(* ================================================================== *)
(** ** The world the program runs in, and what it shows *)

Record World : Type := mkWorld {
  accounts : dict;            (* AccountManager.accounts *)
  data_file : option dict;    (* phone_accounts.json; None while absent *)
  now : Z;                    (* the reading of datetime.now() *)
  writes : list bool;         (* whether the coming writes of the data file
                                 succeed; an empty list is no failure *)
  github_enabled : bool       (* PhoneAccountSystem.github_enabled *)
}.

Definition with_accounts (d : dict) (w : World) : World :=
  mkWorld d (data_file w) (now w) (writes w) (github_enabled w).

(** The prompts of [input()] and [getpass.getpass()]. *)
Inductive prompt : Type :=
| AskBonus               (* "请输入奖励金额 (直接回车使用默认值): " *)
| AskValidDays           (* "请输入有效期天数 (例如：30): " *)
| AskNewPassword         (* "请设置4位数字密码: " *)
| AskConfirmPassword     (* "请确认4位数字密码: " *)
| AskQuestionChoice      (* "请选择问题编号 (1-8): " *)
| AskAnswer              (* "请输入密保答案: " *)
| AskConfirmAnswer       (* "请确认密保答案: " *)
| AskPassword            (* "请输入4位数字密码: " *)
| AskResetPassword       (* "请设置新的4位数字密码: " *)
| AskConfirmResetPassword (* "请确认新的4位数字密码: " *)
| AskPhone               (* "请输入手机号: " *)
| AskIdentifier          (* "请输入手机号或尾号4位: " *)
| AskRechargeAmount      (* "请输入充值金额: " *)
| AskDeductAmount.       (* "请输入扣款金额: " *)

Definition prompt_eqb (p q : prompt) : bool :=
  match p, q with
  | AskBonus, AskBonus | AskValidDays, AskValidDays
  | AskNewPassword, AskNewPassword | AskConfirmPassword, AskConfirmPassword
  | AskQuestionChoice, AskQuestionChoice | AskAnswer, AskAnswer
  | AskConfirmAnswer, AskConfirmAnswer | AskPassword, AskPassword
  | AskResetPassword, AskResetPassword
  | AskConfirmResetPassword, AskConfirmResetPassword
  | AskPhone, AskPhone | AskIdentifier, AskIdentifier
  | AskRechargeAmount, AskRechargeAmount
  | AskDeductAmount, AskDeductAmount => true
  | _, _ => false
  end.

(** The messages the methods return or print. *)
Inductive msg : Type :=
(* set_registration_bonus *)
| MsgBonusCancelled            (* "已取消设置奖励金额" *)
| MsgBonusDefault              (* "✅ 使用默认奖励金额: ..." *)
| MsgBonusNegative             (* "❌ 奖励金额不能为负数" *)
| MsgBonusZero                 (* "⚠️ 奖励金额为0，该账户将没有初始余额" *)
| MsgBonusSet (x : float)      (* "✅ 设置奖励金额: {x}元" *)
| MsgInvalidNumber             (* "❌ 请输入有效的数字" *)
(* set_valid_days *)
| MsgValidDaysCancelled        (* "已取消设置有效期" *)
| MsgValidDaysNotPositive      (* "❌ 有效期必须大于0天" *)
| MsgValidDaysSet (n : Z)      (* "有效期设置成功: {n}天" *)
(* set_password_and_security *)
| MsgSecurityCancelled         (* "已取消设置安全信息" *)
| MsgPasswordFormat            (* "❌ 密码必须是4位数字" *)
| MsgPasswordMismatch          (* "❌ 两次输入的密码不一致" *)
| MsgChoiceOutOfRange          (* "请输入1-8之间的数字" *)
| MsgChoiceNotNumber           (* "请输入有效的数字" *)
| MsgAnswerTooShort            (* "❌ 答案至少需要2个字符" *)
| MsgAnswerMismatch            (* "❌ 两次输入的答案不一致" *)
| MsgSecuritySet               (* "账户安全信息设置成功" *)
| MsgSecurityFailed            (* "账户安全信息设置失败" *)
(* check_account_status *)
| MsgAccountExpired            (* "❌ 账户已过期，无法进行操作" *)
| MsgStatusOk                  (* "账户状态正常" *)
(* authenticate_with_password, authenticate_with_security_question *)
| MsgOperationCancelled        (* "已取消操作" *)
| MsgAuthOk                    (* "验证成功" *)
| MsgWrongPassword (left : nat) (* "❌ 密码错误，还有{left}次尝试机会" *)
| MsgPasswordExhausted         (* "密码错误次数过多" *)
| MsgWrongAnswer (left : nat)  (* "❌ 答案错误，还有{left}次尝试机会" *)
| MsgAnswerExhausted           (* "答案错误次数过多" *)
| MsgAuthFailed                (* "验证失败" *)
| MsgSecurityQuestion (q : option nat) (* "密保问题: {question}" *)
(* AccountManager.reset_password *)
| MsgResetCancelled            (* "已取消密码重置" *)
| MsgResetOk                   (* "密码重置成功" *)
| MsgResetFailed               (* "密码重置失败" *)
(* register_phone *)
| MsgRegisterCancelled         (* "已取消登记" *)
| MsgPhoneFormat               (* "❌ 手机号格式不正确" *)
| MsgPhoneExists               (* "❌ 该手机号已登记" *)
| MsgTailConflict (last4 existing : string)
                               (* "❌ 尾号{last4}已被手机号{existing}使用" *)
| MsgRegistered (phone last4 : string)
                               (* "✅ 手机号 {phone} 登记成功，尾号 {last4}" *)
| MsgAccountCreated (bonus : float)
                               (* "✅ 账户创建成功！获得登记奖励{bonus}元" *)
(* find_account *)
| MsgFound                     (* "成功" *)
| MsgPhoneNotRegistered        (* "❌ 手机号未登记" *)
| MsgTailFormat                (* "❌ 尾号必须是4位数字" *)
| MsgTailNotFound              (* "❌ 未找到匹配的尾号" *)
(* recharge *)
| MsgRechargeCancelled         (* "已取消充值" *)
| MsgRechargeNotPositive       (* "❌ 充值金额必须大于0" *)
| MsgRechargeNotNumber         (* "❌ 充值金额必须是数字" *)
| MsgRecharged (phone : string) (balance : float)
                               (* "✅ 充值成功，手机号{phone}当前余额：..." *)
| MsgRechargeFailed            (* "❌ 充值失败，数据保存错误" *)
(* deduct *)
| MsgDeductCancelled           (* "已取消扣款" *)
| MsgDeductNotPositive         (* "❌ 扣款金额必须大于0" *)
| MsgDeductNotNumber           (* "❌ 扣款金额必须是数字" *)
| MsgInsufficientBalance (balance : float)
                               (* "❌ 余额不足，当前余额：{balance}元" *)
| MsgDeducted (phone : string) (balance : float)
                               (* "✅ 扣款成功，手机号{phone}当前余额：..." *)
| MsgDeductFailed              (* "❌ 扣款失败，数据保存错误" *)
(* PhoneAccountSystem.reset_password, get_balance *)
| MsgResetPasswordCancelled    (* "已取消重置密码" *)
| MsgQueryCancelled            (* "已取消查询" *)
| MsgBalance (phone : string) (balance : float)
    (info : option (Status * TimeManager.remaining)).
                               (* "📊 手机号{phone}当前余额：...{status_info}" *)

(** What an observer of the console and of the disk sees, in order.  The
    banners and the line "0. 返回上一步" shown before each prompt are left
    out. *)
Inductive Event : Type :=
| Asked (p : prompt)                  (* a call of input() or getpass() *)
| Said (m : msg)                      (* a printed message *)
| Saved (snapshot : dict) (ok : bool) (* FileStorageManager.save_data *)
| Pushed.                             (* sync_to_github *)

(** The exceptions that the statements of the model raise and that no
    [except] clause around them catches.  The strings of the model are code
    points below 256, all of which [str.encode()] takes: an exception that
    only other strings bring about is not among them. *)
Inductive Exn : Type :=
| EOFError        (* input() with nothing left to read *)
| KeyError        (* a missing dictionary key *)
| OverflowError.  (* a date out of range *)

(** A run of a method from a console and a world: it returns a value, the
    lines not yet read and the new world, or it raises.  Either way it has
    produced a list of events. *)
Inductive Outcome (A : Type) : Type :=
| Ret (a : A) (stdin : list string) (w : World) (out : list Event)
| Raise (e : Exn) (w : World) (out : list Event).

Arguments Raise {A} e w out.

Definition Op (A : Type) : Type := list string -> World -> Outcome A.

(** The world a run ends in, whether it returned or raised; the events it
    produced; the value it returned, if it did. *)
Definition final_world {A} (o : Outcome A) : World :=
  match o with
  | Ret _ _ w _ => w
  | Raise _ w _ => w
  end.

Definition events_of {A} (o : Outcome A) : list Event :=
  match o with
  | Ret _ _ _ out => out
  | Raise _ _ out => out
  end.

Definition returned {A} (o : Outcome A) : option A :=
  match o with
  | Ret a _ _ _ => Some a
  | Raise _ _ _ => None
  end.

(** The balance held for [phone] in the store of [w]. *)
Definition balance_at (phone : string) (w : World) : option float :=
  option_map balance (dict_get (accounts w) phone).

(** [pre out o]: the events [out] happened before the run [o]. *)
Definition pre {A} (out : list Event) (o : Outcome A) : Outcome A :=
  match o with
  | Ret a stdin w out' => Ret a stdin w (out ++ out')
  | Raise e w out' => Raise e w (out ++ out')
  end.

Definition ret {A} (a : A) : Op A := fun stdin w => Ret a stdin w [].

Definition bind {A B} (m : Op A) (f : A -> Op B) : Op B :=
  fun stdin w =>
    match m stdin w with
    | Ret a stdin' w' out => pre out (f a stdin' w')
    | Raise e w' out => Raise e w' out
    end.

Declare Scope op_scope.
Delimit Scope op_scope with op.
Notation "x <- m ;; k" := (bind m (fun x => k))
  (at level 100, m at next level, right associativity) : op_scope.
Notation "m ;;; k" := (bind m (fun _ => k))
  (at level 100, right associativity) : op_scope.

Definition say (m : msg) : Op unit := fun stdin w => Ret tt stdin w [Said m].

Definition raise {A} (e : Exn) : Op A := fun _ w => Raise e w [].

Definition get_world : Op World := fun stdin w => Ret w stdin w [].

(** [self.accounts[phone]], [KeyError] when the phone is absent. *)
Definition account_of (phone : string) : Op Account :=
  fun stdin w =>
    match dict_get (accounts w) phone with
    | Some a => Ret a stdin w []
    | None => Raise KeyError w []
    end.

(** [self.accounts[phone][key] = value] for the field that [f] sets. *)
Definition modify (phone : string) (f : Account -> Account) : Op unit :=
  fun stdin w =>
    match dict_get (accounts w) phone with
    | Some a => Ret tt stdin (with_accounts (dict_set (accounts w) phone (f a)) w) []
    | None => Raise KeyError w []
    end.

(* ================================================================== *)
(** ** class FileStorageManager *)

Module FileStorageManager.

(** [save_data(data)]: the backup and the write are inside one [try]; any
    exception gives [False].  The next entry of [writes] tells whether this
    write succeeds; a successful write replaces the data file by the whole
    store.  A write that fails is taken to fail before the file is opened
    (the backup or [open] raising), which leaves the data file as it was; a
    [json.dump] that fails half-way would leave a truncated file, which the
    model does not have.  The rotation of the backup directory is not
    modelled. *)
Definition save_data (data : dict) : Op bool :=
  fun stdin w =>
    match writes w with
    | false :: ws =>
        Ret false stdin
          (mkWorld (accounts w) (data_file w) (now w) ws (github_enabled w))
          [Saved data false]
    | _ =>
        Ret true stdin
          (mkWorld (accounts w) (Some data) (now w) (tl (writes w))
             (github_enabled w))
          [Saved data true]
    end.

End FileStorageManager.

(* ================================================================== *)
(** ** class AccountManager *)

Module AccountManager.
Import NavigationManager SecurityManager TimeManager.

Section Methods.
Context `{Builtins}.
Local Open Scope op_scope.

(** [return self.storage_manager.save_data(self.accounts)] *)
Definition save_data : Op bool :=
  fun stdin w => FileStorageManager.save_data (accounts w) stdin w.

(** [set_registration_bonus(phone)] returns [(False, message)] or
    [(True, bonus_amount)]: here [inl message] or [inr bonus_amount]. *)
Fixpoint set_registration_bonus (phone : string) (stdin : list string)
    (w : World) : Outcome (msg + float) :=
  match stdin with
  | [] => Raise EOFError w [Asked AskBonus]
  | line :: rest =>
      pre [Asked AskBonus]
        (let bonus_input := Str.strip line in
         if handle_back_choice bonus_input then
           Ret (inl MsgBonusCancelled) rest w []
         else if Str.is_empty bonus_input then
           Ret (inr Config.DEFAULT_REGISTRATION_BONUS) rest w
             [Said MsgBonusDefault]
         else
           match float_of_str bonus_input with
           | Some bonus_amount =>
               if (bonus_amount <? 0)%float then
                 pre [Said MsgBonusNegative]
                   (set_registration_bonus phone rest w)
               else
                 Ret (inr bonus_amount) rest w
                   ((if (bonus_amount =? 0)%float then [Said MsgBonusZero]
                     else [])
                    ++ [Said (MsgBonusSet bonus_amount)])
           | None =>
               pre [Said MsgInvalidNumber]
                 (set_registration_bonus phone rest w)
           end)
  end.

(** The four assignments of [set_valid_days] once the number is accepted.
    [calculate_expiry_time] can raise after the first two are done.  The
    source reads the clock once for [created_at] and once more inside
    [calculate_expiry_time]; in the model the clock stands still during a
    command, so that both readings are [now w]. *)
Definition store_valid_days (phone : string) (valid_days : Z)
    : Op (bool * msg) :=
  modify phone (set_valid_days_field (Some valid_days)) ;;;
  w <- get_world ;;
  modify phone (set_created_at (Some (now w))) ;;;
  match calculate_expiry_time (now w) valid_days with
  | None => raise OverflowError
  | Some expiry =>
      modify phone (set_expiry_time (Some expiry)) ;;;
      modify phone (set_status StatusActive) ;;;
      say (MsgValidDaysSet valid_days) ;;;
      ret (true, MsgValidDaysSet valid_days)
  end.

Fixpoint set_valid_days (phone : string) (stdin : list string) (w : World)
    : Outcome (bool * msg) :=
  match stdin with
  | [] => Raise EOFError w [Asked AskValidDays]
  | line :: rest =>
      pre [Asked AskValidDays]
        (let valid_days_input := Str.strip line in
         if handle_back_choice valid_days_input then
           Ret (false, MsgValidDaysCancelled) rest w []
         else
           match int_of_str valid_days_input with
           | Some valid_days =>
               if valid_days <=? 0 then
                 pre [Said MsgValidDaysNotPositive]
                   (set_valid_days phone rest w)
               else store_valid_days phone valid_days rest w
           | None =>
               pre [Said MsgInvalidNumber] (set_valid_days phone rest w)
           end)
  end.

(** The first loop of [set_password_and_security]: [true] when the password
    was stored, [false] when the operator went back. *)
Fixpoint password_loop (phone : string) (stdin : list string) (w : World)
    : Outcome bool :=
  match stdin with
  | [] => Raise EOFError w [Asked AskNewPassword]
  | password :: rest =>
      pre [Asked AskNewPassword]
        (if handle_back_choice password then Ret false rest w []
         else if negb (validate_password password) then
           pre [Said MsgPasswordFormat] (password_loop phone rest w)
         else
           match rest with
           | [] => Raise EOFError w [Asked AskConfirmPassword]
           | confirm_password :: rest' =>
               pre [Asked AskConfirmPassword]
                 (if negb (String.eqb password confirm_password) then
                    pre [Said MsgPasswordMismatch]
                      (password_loop phone rest' w)
                  else
                    (modify phone
                       (set_password (Some (hash_password password))) ;;;
                     ret true) rest' w)
           end)
  end.

(** The second loop: the index of the chosen question, [None] on going
    back. *)
Fixpoint question_loop (stdin : list string) (w : World)
    : Outcome (option nat) :=
  match stdin with
  | [] => Raise EOFError w [Asked AskQuestionChoice]
  | line :: rest =>
      pre [Asked AskQuestionChoice]
        (let choice := Str.strip line in
         if handle_back_choice choice then Ret None rest w []
         else
           match int_of_str choice with
           | Some n =>
               if (1 <=? n) && (n <=? 8) then
                 Ret (Some (Z.to_nat (n - 1))) rest w []
               else pre [Said MsgChoiceOutOfRange] (question_loop rest w)
           | None => pre [Said MsgChoiceNotNumber] (question_loop rest w)
           end)
  end.

(** The third loop: [true] when question and answer were stored. *)
Fixpoint answer_loop (phone : string) (selected_question : nat)
    (stdin : list string) (w : World) : Outcome bool :=
  match stdin with
  | [] => Raise EOFError w [Asked AskAnswer]
  | line :: rest =>
      pre [Asked AskAnswer]
        (let answer := Str.strip line in
         if handle_back_choice answer then Ret false rest w []
         else if Str.len answer <? Config.MIN_ANSWER_LENGTH then
           pre [Said MsgAnswerTooShort]
             (answer_loop phone selected_question rest w)
         else
           match rest with
           | [] => Raise EOFError w [Asked AskConfirmAnswer]
           | line' :: rest' =>
               pre [Asked AskConfirmAnswer]
                 (let confirm_answer := Str.strip line' in
                  if negb (String.eqb (Str.lower answer)
                             (Str.lower confirm_answer)) then
                    pre [Said MsgAnswerMismatch]
                      (answer_loop phone selected_question rest' w)
                  else
                    (modify phone
                       (set_security_question (Some selected_question)) ;;;
                     modify phone
                       (set_security_answer (Some (hash_answer answer))) ;;;
                     ret true) rest' w)
           end)
  end.

Definition set_password_and_security (phone : string) : Op (bool * msg) :=
  stored <- password_loop phone ;;
  if negb stored then ret (false, MsgSecurityCancelled) else
  choice <- question_loop ;;
  match choice with
  | None => ret (false, MsgSecurityCancelled)
  | Some selected_question =>
      stored' <- answer_loop phone selected_question ;;
      if negb stored' then ret (false, MsgSecurityCancelled) else
      w <- get_world ;;
      modify phone (set_last_modified (Some (now w))) ;;;
      saved <- save_data ;;
      if saved then ret (true, MsgSecuritySet)
      else ret (false, MsgSecurityFailed)
  end.

(** [check_account_status(phone, info)]; [info] is the object held at
    [self.accounts[phone]], which the model reaches by its key.  The result
    of the [save_data()] call is dropped, as in the source. *)
Definition check_account_status (phone : string) : Op (bool * msg) :=
  info <- account_of phone ;;
  if Status_eqb (status info) StatusExpired then
    ret (false, MsgAccountExpired)
  else
    match expiry_time info with
    | None => raise KeyError
    | Some expiry =>
        w <- get_world ;;
        if is_expired (now w) expiry then
          modify phone (set_status StatusExpired) ;;;
          _ <- save_data ;;
          ret (false, MsgAccountExpired)
        else ret (true, MsgStatusOk)
    end.

(** The [while attempts > 0] loop of [authenticate_with_password]. *)
Fixpoint password_attempts (attempts : nat) (stored : option string)
    (stdin : list string) (w : World) : Outcome (bool * msg) :=
  match attempts with
  | O => Ret (false, MsgAuthFailed) stdin w []
  | S remaining_attempts =>
      match stdin with
      | [] => Raise EOFError w [Asked AskPassword]
      | password :: rest =>
          pre [Asked AskPassword]
            (if handle_back_choice password then
               Ret (false, MsgOperationCancelled) rest w []
             else if verify_password password stored then
               Ret (true, MsgAuthOk) rest w [Said MsgAuthOk]
             else
               match remaining_attempts with
               | O =>
                   Ret (false, MsgPasswordExhausted) rest w
                     [Said MsgPasswordExhausted]
               | S _ =>
                   pre [Said (MsgWrongPassword remaining_attempts)]
                     (password_attempts remaining_attempts stored rest w)
               end)
      end
  end.

Definition authenticate_with_password (phone : string) : Op (bool * msg) :=
  checked <- check_account_status phone ;;
  if negb (fst checked) then ret (false, snd checked) else
  info <- account_of phone ;;
  password_attempts Config.MAX_AUTH_ATTEMPTS (password info).

(** The [while attempts > 0] loop of
    [authenticate_with_security_question]. *)
Fixpoint answer_attempts (attempts : nat) (stored : option string)
    (stdin : list string) (w : World) : Outcome (bool * msg) :=
  match attempts with
  | O => Ret (false, MsgAuthFailed) stdin w []
  | S remaining_attempts =>
      match stdin with
      | [] => Raise EOFError w [Asked AskAnswer]
      | line :: rest =>
          pre [Asked AskAnswer]
            (let answer := Str.strip line in
             if handle_back_choice answer then
               Ret (false, MsgOperationCancelled) rest w []
             else if verify_answer answer stored then
               Ret (true, MsgAuthOk) rest w [Said MsgAuthOk]
             else
               match remaining_attempts with
               | O =>
                   Ret (false, MsgAnswerExhausted) rest w
                     [Said MsgAnswerExhausted]
               | S _ =>
                   pre [Said (MsgWrongAnswer remaining_attempts)]
                     (answer_attempts remaining_attempts stored rest w)
               end)
      end
  end.

Definition authenticate_with_security_question (phone : string)
    : Op (bool * msg) :=
  info <- account_of phone ;;
  say (MsgSecurityQuestion (security_question info)) ;;;
  answer_attempts Config.MAX_AUTH_ATTEMPTS (security_answer info).

(** The [while True] loop of [reset_password]. *)
Fixpoint new_password_loop (phone : string) (stdin : list string) (w : World)
    : Outcome (bool * msg) :=
  match stdin with
  | [] => Raise EOFError w [Asked AskResetPassword]
  | new_password :: rest =>
      pre [Asked AskResetPassword]
        (if handle_back_choice new_password then
           Ret (false, MsgResetCancelled) rest w []
         else if negb (validate_password new_password) then
           pre [Said MsgPasswordFormat] (new_password_loop phone rest w)
         else
           match rest with
           | [] => Raise EOFError w [Asked AskConfirmResetPassword]
           | confirm_password :: rest' =>
               pre [Asked AskConfirmResetPassword]
                 (if negb (String.eqb new_password confirm_password) then
                    pre [Said MsgPasswordMismatch]
                      (new_password_loop phone rest' w)
                  else
                    (modify phone
                       (set_password (Some (hash_password new_password))) ;;;
                     modify phone (set_last_modified (Some (now w))) ;;;
                     saved <- save_data ;;
                     if saved then ret (true, MsgResetOk)
                     else ret (false, MsgResetFailed)) rest' w)
           end)
  end.

Definition reset_password (phone : string) : Op (bool * msg) :=
  auth <- authenticate_with_security_question phone ;;
  if negb (fst auth) then ret (false, snd auth) else
  new_password_loop phone.

End Methods.
End AccountManager.

(* ================================================================== *)
(** ** class PhoneAccountSystem *)

Module PhoneAccountSystem.
Import NavigationManager SecurityManager TimeManager.

Section Methods.
Context `{Builtins}.
Local Open Scope op_scope.

(** [if self.github_enabled: self.sync_to_github()]: the push is the
    collaborator's business; the ledger drops its result. *)
Definition sync_to_github : Op unit :=
  fun stdin w => Ret tt stdin w (if github_enabled w then [Pushed] else []).

(** The [for] loop of [register_phone] that looks for an account with the
    same last four digits; it stops at the first one. *)
Fixpoint tail_conflict (last4 : string) (items : dict) : option string :=
  match items with
  | [] => None
  | (existing_phone, info) :: r =>
      if String.eqb (last_four info) last4 then Some existing_phone
      else tail_conflict last4 r
  end.

(** The dictionary literal of [register_phone]. *)
Definition new_account (bonus_amount : float) (last4 : string) : Account :=
  mkAccount bonus_amount last4 None None None StatusUnset bonus_amount
    None None None None.

(** [self.account_manager.accounts[phone] = {...}] and the print after it. *)
Definition create_account (phone last4 : string) (bonus_amount : float)
    : Op unit :=
  fun stdin w =>
    Ret tt stdin
      (with_accounts
         (dict_set (accounts w) phone (new_account bonus_amount last4)) w)
      [Said (MsgRegistered phone last4)].

(** [del self.account_manager.accounts[phone]] *)
Definition delete_account (phone : string) : Op unit :=
  fun stdin w =>
    if dict_mem (accounts w) phone then
      Ret tt stdin (with_accounts (dict_del (accounts w) phone) w) []
    else Raise KeyError w [].

(** The part of [register_phone] after the phone number passed the three
    checks; every path through it returns. *)
Definition register_account (phone last4 : string) : Op (bool * msg) :=
  bonus_result <- AccountManager.set_registration_bonus phone ;;
  match bonus_result with
  | inl message => ret (false, message)
  | inr bonus_amount =>
      create_account phone last4 bonus_amount ;;;
      valid <- AccountManager.set_valid_days phone ;;
      if negb (fst valid) then
        delete_account phone ;;; ret valid
      else
        secured <- AccountManager.set_password_and_security phone ;;
        if negb (fst secured) then
          delete_account phone ;;; ret secured
        else
          sync_to_github ;;;
          ret (true, MsgAccountCreated bonus_amount)
  end.

Fixpoint register_phone (stdin : list string) (w : World)
    : Outcome (bool * msg) :=
  match stdin with
  | [] => Raise EOFError w [Asked AskPhone]
  | line :: rest =>
      pre [Asked AskPhone]
        (let phone := Str.strip line in
         if handle_back_choice phone then
           Ret (false, MsgRegisterCancelled) rest w []
         else if negb (validate_phone phone) then
           pre [Said MsgPhoneFormat] (register_phone rest w)
         else if dict_mem (accounts w) phone then
           pre [Said MsgPhoneExists] (register_phone rest w)
         else
           let last4 := Str.suffix 4 phone in
           match tail_conflict last4 (accounts w) with
           | Some existing_phone =>
               pre [Said (MsgTailConflict last4 existing_phone)]
                 (register_phone rest w)
           | None => register_account phone last4 rest w
           end)
  end.

(** The [for] loop of [find_account]: the first phone, in insertion order,
    whose account has the given last four digits. *)
Fixpoint find_by_tail (identifier : string) (items : dict) : option string :=
  match items with
  | [] => None
  | (phone, info) :: r =>
      if String.eqb (last_four info) identifier then Some phone
      else find_by_tail identifier r
  end.

(** [find_account(identifier)] returns [(phone, info, message)]; [info] is
    [accounts[phone]], so the model returns the phone and the message. *)
Definition find_account (identifier : string) (items : dict)
    : option string * msg :=
  if validate_phone identifier then
    if dict_mem items identifier then (Some identifier, MsgFound)
    else (None, MsgPhoneNotRegistered)
  else if negb (Str.len identifier =? 4) || negb (Str.isdigit identifier) then
    (None, MsgTailFormat)
  else
    match find_by_tail identifier items with
    | Some phone => (Some phone, MsgFound)
    | None => (None, MsgTailNotFound)
    end.

(** The statements of [recharge] from [old_balance = info["balance"]] on. *)
Definition apply_recharge (phone : string) (amount_float : float)
    : Op (bool * msg) :=
  info <- account_of phone ;;
  let old_balance := balance info in
  modify phone (set_balance (old_balance + amount_float)%float) ;;;
  w <- get_world ;;
  modify phone (set_last_modified (Some (now w))) ;;;
  saved <- AccountManager.save_data ;;
  if saved then
    sync_to_github ;;;
    info' <- account_of phone ;;
    ret (true, MsgRecharged phone (balance info'))
  else
    modify phone (set_balance old_balance) ;;;
    ret (false, MsgRechargeFailed).

(** The inner [while True] loop of [recharge]. *)
Fixpoint recharge_amount (phone : string) (stdin : list string) (w : World)
    : Outcome (bool * msg) :=
  match stdin with
  | [] => Raise EOFError w [Asked AskRechargeAmount]
  | line :: rest =>
      pre [Asked AskRechargeAmount]
        (let amount := Str.strip line in
         if handle_back_choice amount then
           Ret (false, MsgRechargeCancelled) rest w []
         else
           match float_of_str amount with
           | Some amount_float =>
               if (amount_float <=? 0)%float then
                 pre [Said MsgRechargeNotPositive]
                   (recharge_amount phone rest w)
               else apply_recharge phone amount_float rest w
           | None =>
               pre [Said MsgRechargeNotNumber] (recharge_amount phone rest w)
           end)
  end.

Fixpoint recharge (stdin : list string) (w : World) : Outcome (bool * msg) :=
  match stdin with
  | [] => Raise EOFError w [Asked AskIdentifier]
  | line :: rest =>
      pre [Asked AskIdentifier]
        (let identifier := Str.strip line in
         if handle_back_choice identifier then
           Ret (false, MsgRechargeCancelled) rest w []
         else
           match find_account identifier (accounts w) with
           | (None, message) => pre [Said message] (recharge rest w)
           | (Some phone, _) =>
               (auth <- AccountManager.authenticate_with_password phone ;;
                if negb (fst auth) then ret (false, snd auth)
                else recharge_amount phone) rest w
           end)
  end.

(** The statements of [deduct] from [old_balance = info["balance"]] on. *)
Definition apply_deduct (phone : string) (amount_float : float)
    : Op (bool * msg) :=
  info <- account_of phone ;;
  let old_balance := balance info in
  modify phone (set_balance (old_balance - amount_float)%float) ;;;
  w <- get_world ;;
  modify phone (set_last_modified (Some (now w))) ;;;
  saved <- AccountManager.save_data ;;
  if saved then
    sync_to_github ;;;
    info' <- account_of phone ;;
    ret (true, MsgDeducted phone (balance info'))
  else
    modify phone (set_balance old_balance) ;;;
    ret (false, MsgDeductFailed).

(** The inner [while True] loop of [deduct]. *)
Fixpoint deduct_amount (phone : string) (stdin : list string) (w : World)
    : Outcome (bool * msg) :=
  match stdin with
  | [] => Raise EOFError w [Asked AskDeductAmount]
  | line :: rest =>
      pre [Asked AskDeductAmount]
        (let amount := Str.strip line in
         if handle_back_choice amount then
           Ret (false, MsgDeductCancelled) rest w []
         else
           match float_of_str amount with
           | Some amount_float =>
               if (amount_float <=? 0)%float then
                 pre [Said MsgDeductNotPositive] (deduct_amount phone rest w)
               else
                 match dict_get (accounts w) phone with
                 | None => Raise KeyError w []
                 | Some info =>
                     if (balance info <? amount_float)%float then
                       pre [Said (MsgInsufficientBalance (balance info))]
                         (deduct_amount phone rest w)
                     else apply_deduct phone amount_float rest w
                 end
           | None =>
               pre [Said MsgDeductNotNumber] (deduct_amount phone rest w)
           end)
  end.

Fixpoint deduct (stdin : list string) (w : World) : Outcome (bool * msg) :=
  match stdin with
  | [] => Raise EOFError w [Asked AskIdentifier]
  | line :: rest =>
      pre [Asked AskIdentifier]
        (let identifier := Str.strip line in
         if handle_back_choice identifier then
           Ret (false, MsgDeductCancelled) rest w []
         else
           match find_account identifier (accounts w) with
           | (None, message) => pre [Said message] (deduct rest w)
           | (Some phone, _) =>
               (auth <- AccountManager.authenticate_with_password phone ;;
                if negb (fst auth) then ret (false, snd auth)
                else deduct_amount phone) rest w
           end)
  end.

Fixpoint reset_password (stdin : list string) (w : World)
    : Outcome (bool * msg) :=
  match stdin with
  | [] => Raise EOFError w [Asked AskIdentifier]
  | line :: rest =>
      pre [Asked AskIdentifier]
        (let identifier := Str.strip line in
         if handle_back_choice identifier then
           Ret (false, MsgResetPasswordCancelled) rest w []
         else
           match find_account identifier (accounts w) with
           | (None, message) => pre [Said message] (reset_password rest w)
           | (Some phone, _) =>
               (result <- AccountManager.reset_password phone ;;
                (if fst result then sync_to_github else ret tt) ;;;
                ret result) rest w
           end)
  end.

Fixpoint get_balance (stdin : list string) (w : World)
    : Outcome (bool * msg) :=
  match stdin with
  | [] => Raise EOFError w [Asked AskIdentifier]
  | line :: rest =>
      pre [Asked AskIdentifier]
        (let identifier := Str.strip line in
         if handle_back_choice identifier then
           Ret (false, MsgQueryCancelled) rest w []
         else
           match find_account identifier (accounts w) with
           | (None, message) => pre [Said message] (get_balance rest w)
           | (Some phone, _) =>
               (info <- account_of phone ;;
                let status_info :=
                  match expiry_time info with
                  | Some expiry =>
                      Some (status info, format_remaining_time (now w) expiry)
                  | None => None
                  end in
                ret (true, MsgBalance phone (balance info) status_info))
                 rest w
           end)
  end.

(** One line of [list_all_accounts]. *)
Record summary : Type := mkSummary {
  sum_phone : string;
  sum_last_four : string;
  sum_balance : float;
  sum_status : Status;
  sum_remaining : option remaining;  (* shown unless expired or unset *)
  sum_bonus : float;
  sum_has_password : bool;
  sum_has_security : bool
}.

Definition summarize (t : Z) (phone : string) (info : Account) : summary :=
  mkSummary phone (last_four info) (balance info) (status info)
    (match expiry_time info with
     | Some expiry =>
         if negb (Status_eqb (status info) StatusExpired)
         then Some (format_remaining_time t expiry) else None
     | None => None
     end)
    (registration_bonus info)
    (match password info with
     | Some h => negb (Str.is_empty h)
     | None => false
     end)
    (match security_question info with Some _ => true | None => false end).

(** [list_all_accounts()]: [None] is the text "📭 暂无登记账户". *)
Definition list_all_accounts : Op (option (list summary)) :=
  fun stdin w =>
    match accounts w with
    | [] => Ret None stdin w []
    | items =>
        Ret (Some (map (fun kv => summarize (now w) (fst kv) (snd kv)) items))
          stdin w []
    end.

(** The lines [check_expired_accounts] writes for an account. *)
Inductive expiry_line : Type :=
| LineExpired (phone : string)                       (* "❌ {phone} - 已过期" *)
| LineExpiring (phone : string) (left : remaining).  (* "⚠️ {phone} - 即将过期" *)

(** The [for] loop of [check_expired_accounts], with its two counters and
    the text built so far. *)
Fixpoint scan_accounts (t : Z) (items : dict) (expired_count : nat)
    (expiring_count : nat) (result : list expiry_line)
    : nat * nat * list expiry_line :=
  match items with
  | [] => (expired_count, expiring_count, result)
  | (phone, info) :: r =>
      match expiry_time info with
      | Some expiry =>
          if is_expired t expiry then
            scan_accounts t r (S expired_count) expiring_count
              (result ++ [LineExpired phone])
          else
            let remaining_days := get_remaining_days t expiry in
            if remaining_days <=? 3 then
              scan_accounts t r expired_count (S expiring_count)
                (result
                 ++ [LineExpiring phone (format_remaining_time t expiry)])
            else scan_accounts t r expired_count expiring_count result
      | None => scan_accounts t r expired_count expiring_count result
      end
  end.

(** The closing line of the report: "✅ 所有账户都在有效期内" or the two
    counts. *)
Inductive expiry_summary : Type :=
| AllValid
| Counts (expired_count expiring_count : nat).

Definition check_expired_accounts
    : Op (list expiry_line * expiry_summary) :=
  fun stdin w =>
    match scan_accounts (now w) (accounts w) 0 0 [] with
    | (expired_count, expiring_count, result) =>
        Ret (result,
             if Nat.eqb expired_count 0 && Nat.eqb expiring_count 0
             then AllValid else Counts expired_count expiring_count)
          stdin w []
    end.

(** What [main] prints after a command. *)
Inductive shown : Type :=
| ShownResult (r : bool * msg)
| ShownList (l : option (list summary))
| ShownReport (r : list expiry_line * expiry_summary).

Definition lift {A} (f : A -> shown) (m : Op A) : Op shown :=
  x <- m ;; ret (f x).

(** The dispatch of [main] on the menu choice, for the seven commands of
    the ledger.  The other choices (the GitHub commands and the exit) are
    outside the model: [None]. *)
Definition command (choice : string) : option (Op shown) :=
  if String.eqb choice "1" then Some (lift ShownResult register_phone)
  else if String.eqb choice "2" then Some (lift ShownResult recharge)
  else if String.eqb choice "3" then Some (lift ShownResult deduct)
  else if String.eqb choice "4" then Some (lift ShownResult get_balance)
  else if String.eqb choice "5" then Some (lift ShownResult reset_password)
  else if String.eqb choice "6" then Some (lift ShownList list_all_accounts)
  else if String.eqb choice "7" then
    Some (lift ShownReport check_expired_accounts)
  else None.

End Methods.
End PhoneAccountSystem.

(* ================================================================== *)
(** ** def main *)

(** The [while True] loop of [main], without its three GitHub commands:
    every turn reads a choice and, for "1" to "7", runs the command on what
    is typed next; after an unknown choice it asks again, and a command
    that raises ends the program.  Between two turns the clock may have
    advanced and the disk may have started or stopped failing.
    [session w0 w]: the program that entered the loop in the world [w0] can
    be at the menu prompt in the world [w]. *)
Inductive session `{Builtins} (w0 : World) : World -> Prop :=
| session_start : session w0 w0
| session_turn w choice op stdin r rest w' out :
    session w0 w ->
    PhoneAccountSystem.command choice = Some op ->
    op stdin w = Ret r rest w' out ->
    session w0 w'
| session_wait w t ws :
    session w0 w -> now w <= t ->
    session w0 (mkWorld (accounts w) (data_file w) t ws (github_enabled w)).

(* ================================================================== *)
(** ** The shape of a phone number in the words of the specification *)

(** "An 11-character string of digits starting with 1 then a digit 3-9". *)
Definition phone_shape (s : string) : bool :=
  Nat.eqb (String.length s) 11
  && Str.all Str.isdecimal s
  && match s with
     | String c1 (String c2 _) =>
         Ascii.eqb c1 "1" && Str.between 51 57 c2
     | _ => false
     end.

(* ================================================================== *)
(** ** Concrete runs *)

(** The runs below need the three Python built-ins at a few arguments.
    [float_of_str] and [int_of_str] are given by the table of the literals
    that occur in the runs, each with the value Python's [float()] or [int()]
    gives it; the hash is a stand-in that keeps its argument apart. *)
Module Demo.

Definition float_table : list (string * float) :=
  [ ("nan", nan);
    ("0.1", 0x1.999999999999ap-4%float);
    ("0.2", 0x1.999999999999ap-3%float);
    ("10", 10%float);
    ("25.5", 25.5%float);
    ("50", 50%float);
    ("200", 200%float) ].

Definition int_table : list (string * Z) :=
  [ ("1", 1); ("30", 30); ("9999999999", 9999999999) ].

Fixpoint lookup {A} (t : list (string * A)) (s : string) : option A :=
  match t with
  | [] => None
  | (k, v) :: r => if String.eqb k s then Some v else lookup r s
  end.

Definition builtins : Builtins :=
  {| sha256_hexdigest := fun s => "sha256:" ++ s;
     float_of_str := lookup float_table;
     int_of_str := lookup int_table |}.

(** 2024-01-01T00:00:00. *)
Definition t0 : Z := 738885 * TimeManager.DAY.

Definition phone : string := "13800001234".
Definition pin : string := "1234".
Definition newline : string := String "010"%char EmptyString.

(** An account as a finished registration leaves it at time [created]. *)
Definition registered (bonus : float) (created : Z) : Account :=
  mkAccount bonus "1234" (Some ("sha256:" ++ pin)) (Some 0%nat)
    (Some "sha256:blue") StatusActive bonus (Some 30) (Some created)
    (Some (created + 30 * TimeManager.DAY)) (Some created).

Definition world (items : dict) (t : Z) (ws : list bool) : World :=
  mkWorld items (Some items) t ws false.

Definition empty_world : World := mkWorld [] None t0 [] false.

Definition register_phone := @PhoneAccountSystem.register_phone builtins.
Definition recharge := @PhoneAccountSystem.recharge builtins.
Definition deduct := @PhoneAccountSystem.deduct builtins.
Definition reset_password := @PhoneAccountSystem.reset_password builtins.

(** A whole registration with the bonus typed as "nan". *)
Definition register_nan : Outcome (bool * msg) :=
  register_phone
    [phone; "nan"; "30"; pin; pin; "1"; "blue"; "blue"] empty_world.

(** A recharge of 10 whose save fails, one day after the account was
    made. *)
Definition one_day_later : Z := t0 + TimeManager.DAY.

Definition unsaved_world50 : World :=
  world [(phone, registered 50 t0)] one_day_later [false].

Definition recharge_unsaved : Outcome (bool * msg) :=
  recharge [phone; pin; "10"] unsaved_world50.

Definition deduct_unsaved : Outcome (bool * msg) :=
  deduct [phone; pin; "10"] unsaved_world50.

(** One account with a balance of 50, made at [t0] for thirty days: on
    the day it was made, and thirty-one days later. *)
Definition account50 : Account := registered 50 t0.
Definition store50 : dict := [(phone, account50)].
Definition world50 : World := world store50 t0 [].
Definition world50_lapsed : World :=
  world store50 (t0 + 31 * TimeManager.DAY) [].

(** A registration given up at the choice of the security question, after
    the bonus (the default), the validity period and the password. *)
Definition register_cancelled_stdin : list string :=
  [phone; EmptyString; "30"; pin; pin; "0"].

Definition register_cancelled : Outcome (bool * msg) :=
  register_phone register_cancelled_stdin empty_world.

(** A whole registration with the default bonus. *)
Definition register_stdin : list string :=
  [phone; EmptyString; "30"; pin; pin; "1"; "blue"; "blue"].

(** A registration whose validity period is beyond [timedelta.max]. *)
Definition register_overflow : Outcome (bool * msg) :=
  register_phone [phone; EmptyString; "9999999999"] empty_world.

(** The next registration in the world that this run leaves, of another
    phone with the same last four digits, given up at the second prompt. *)
Definition register_after_overflow : Outcome (bool * msg) :=
  register_phone ["13900001234"; "0"] (final_world register_overflow).

(** A recharge of 0.2 on a balance of 0.1, then a deduction of 0.2. *)
Definition recharged : Outcome (bool * msg) :=
  recharge [phone; pin; "0.2"] (world [(phone, registered 0x1.999999999999ap-4 t0)] t0 []).

Definition recharged_deducted : Outcome (bool * msg) :=
  deduct [phone; pin; "0.2"] (final_world recharged).

End Demo.

(* ================================================================== *)
(** * The vocabulary of the statements *)

Local Open Scope list_scope.
Unset Implicit Arguments.

Section Vocabulary.
Context `{Builtins}.

(** [post R P o]: the world the run [o] ends in satisfies [R] and every
    event it produced satisfies [P], whether it returned or raised. *)
Definition post {A} (R : World -> Prop) (P : Event -> Prop) (o : Outcome A)
    : Prop :=
  match o with
  | Ret _ _ w out => R w /\ Forall P out
  | Raise _ w out => R w /\ Forall P out
  end.

(** [keeps R P m]: from every console and world, [m] ends in a world
    related by [R] to the one it started from, with events in [P]. *)
Definition keeps {A} (R : World -> World -> Prop) (P : Event -> Prop)
    (m : Op A) : Prop :=
  forall stdin w, post (R w) P (m stdin w).

(** [same_except phone w w']: the clock is the same and the two stores are
    equal once the entry of [phone] is taken out of both. *)
Definition same_except (phone : string) (w w' : World) : Prop :=
  now w' = now w /\ dict_del (accounts w') phone = dict_del (accounts w) phone.

(** The clock and the store are the same. *)
Definition same_store (w w' : World) : Prop :=
  now w' = now w /\ accounts w' = accounts w.

(** An event other than the print that follows the creation of an account. *)
Definition quiet (ev : Event) : Prop :=
  forall p l, ev <> Said (MsgRegistered p l).

(** No condition on an event. *)
Definition any_event (ev : Event) : Prop := True.

(** An event is the creation print of [phone] with [last4], or no creation
    print at all. *)
Definition registered_only (phone last4 : string) (ev : Event) : Prop :=
  forall p l, ev = Said (MsgRegistered p l) -> p = phone /\ l = last4.

(** Every account of [w] is found unchanged in [w'], at the same clock. *)
Definition frame (w w' : World) : Prop :=
  now w' = now w
  /\ forall k info, dict_get (accounts w) k = Some info ->
                    dict_get (accounts w') k = Some info.

(** A creation print is for a phone that passed the checks of
    [register_phone] in the store of [w]. *)
Definition fresh (w : World) (ev : Event) : Prop :=
  forall p l, ev = Said (MsgRegistered p l) ->
    l = Str.suffix 4 p
    /\ dict_get (accounts w) p = None
    /\ PhoneAccountSystem.tail_conflict l (accounts w) = None.

Definition register_post (w : World) (o : Outcome (bool * msg)) : Prop :=
  match o with
  | Ret r _ w' out =>
      (fst r = false -> accounts w' = accounts w)
      /\ frame w w' /\ Forall (fresh w) out
  | Raise _ w' out => frame w w' /\ Forall (fresh w) out
  end.

(** The account passes [check_account_status] at the clock of [w]: it is
    not marked expired, it has an expiry time, and that time is not past. *)
Definition in_good_standing (w : World) (info : Account) : Prop :=
  Status_eqb (status info) StatusExpired = false
  /\ exists expiry, expiry_time info = Some expiry
                    /\ TimeManager.is_expired (now w) expiry = false.

(** A line typed at the password prompt that is not the sentinel "0" and
    whose hash is not, or is, the stored one. *)
Definition wrong_password (info : Account) (line : string) : Prop :=
  NavigationManager.handle_back_choice line = false
  /\ SecurityManager.verify_password line (password info) = false.

Definition right_password (info : Account) (line : string) : Prop :=
  NavigationManager.handle_back_choice line = false
  /\ SecurityManager.verify_password line (password info) = true.

(** The same for a line typed at the security prompt, which is stripped
    before it is looked at. *)
Definition wrong_answer (info : Account) (line : string) : Prop :=
  NavigationManager.handle_back_choice (Str.strip line) = false
  /\ SecurityManager.verify_answer (Str.strip line) (security_answer info)
     = false.

Definition right_answer (info : Account) (line : string) : Prop :=
  NavigationManager.handle_back_choice (Str.strip line) = false
  /\ SecurityManager.verify_answer (Str.strip line) (security_answer info)
     = true.

(** The number of times the prompt [p] was shown. *)
Definition asked (p : prompt) (out : list Event) : nat :=
  List.length
    (filter (fun ev => match ev with
                       | Asked q => prompt_eqb q p
                       | _ => false
                       end) out).

(** The three rounds of a failed authentication, as the console shows
    them. *)
Definition three_wrong_passwords : list Event :=
  [ Asked AskPassword; Said (MsgWrongPassword 2);
    Asked AskPassword; Said (MsgWrongPassword 1);
    Asked AskPassword; Said MsgPasswordExhausted ].

Definition three_wrong_answers (info : Account) : list Event :=
  [ Said (MsgSecurityQuestion (security_question info));
    Asked AskAnswer; Said (MsgWrongAnswer 2);
    Asked AskAnswer; Said (MsgWrongAnswer 1);
    Asked AskAnswer; Said MsgAnswerExhausted ].

(** The next write of the data file succeeds. *)
Definition next_write_ok (w : World) : bool :=
  match writes w with
  | false :: _ => false
  | _ => true
  end.

(** The world after a successful save of the store [d]. *)
Definition saved_world (d : dict) (w : World) : World :=
  mkWorld d (Some d) (now w) (tl (writes w)) (github_enabled w).

(** The world after a failed save, with the store [d] in memory. *)
Definition unsaved_world (d : dict) (w : World) : World :=
  mkWorld d (data_file w) (now w) (tl (writes w)) (github_enabled w).

(** The account after the two assignments of a mutation at time [t]. *)
Definition touched (t : Z) (x : float) (info : Account) : Account :=
  set_last_modified (Some t) (set_balance x info).

Definition pushed (w : World) : list Event :=
  if github_enabled w then [Pushed] else [].

(** The line typed at "请输入手机号或尾号4位" names the account of
    [phone]. *)
Definition identifies (w : World) (line : string) (phone : string) : Prop :=
  NavigationManager.handle_back_choice (Str.strip line) = false
  /\ PhoneAccountSystem.find_account (Str.strip line) (accounts w)
     = (Some phone, MsgFound).

(** The line typed at an amount prompt is read as the float [amount]. *)
Definition types_amount (line : string) (amount : float) : Prop :=
  NavigationManager.handle_back_choice (Str.strip line) = false
  /\ float_of_str (Str.strip line) = Some amount.

(** What the console shows up to the amount prompt of an authenticated
    operation. *)
Definition authenticated (p : prompt) : list Event :=
  [Asked AskIdentifier; Asked AskPassword; Said MsgAuthOk; Asked p].

(** The expiry time of the account is before the clock reading [t]. *)
Definition lapsed (t : Z) (info : Account) : Prop :=
  exists expiry, expiry_time info = Some expiry
                 /\ TimeManager.is_expired t expiry = true.

(** [evolves w w']: the clock is the same, and every account that is active
    in [w] either has lapsed at that clock or is still there in [w'], active
    and with the same expiry time. *)
Definition evolves (w w' : World) : Prop :=
  now w' = now w
  /\ forall phone info,
       dict_get (accounts w) phone = Some info ->
       status info = StatusActive ->
       lapsed (now w) info
       \/ exists info', dict_get (accounts w') phone = Some info'
                        /\ status info' = StatusActive
                        /\ expiry_time info' = expiry_time info.

(** The world after the save that [check_account_status] issues, whose
    result it drops. *)
Definition after_save (d : dict) (w : World) : World :=
  if next_write_ok w then saved_world d w else unsaved_world d w.

(** The account after a reset to [pin] at time [t]. *)
Definition reset_to (t : Z) (pin : string) (info : Account) : Account :=
  set_last_modified (Some t)
    (set_password (Some (SecurityManager.hash_password pin)) info).

(** What the console shows during a reset that goes through at once. *)
Definition reset_dialogue (info : Account) : list Event :=
  [ Asked AskIdentifier; Said (MsgSecurityQuestion (security_question info));
    Asked AskAnswer; Said MsgAuthOk;
    Asked AskResetPassword; Asked AskConfirmResetPassword ].

(** The three classes of the scan; an account without an expiry time is
    in none of them. *)
Inductive expiry_class : Type :=
| ClassExpired
| ClassExpiring
| ClassNormal.

Definition classify (t : Z) (info : Account) : option expiry_class :=
  match expiry_time info with
  | Some expiry =>
      Some (if TimeManager.is_expired t expiry then ClassExpired
            else if TimeManager.get_remaining_days t expiry <=? 3
                 then ClassExpiring
                 else ClassNormal)
  | None => None
  end.

(** The line of the report for one account. *)
Definition line_of (t : Z) (item : string * Account)
    : list PhoneAccountSystem.expiry_line :=
  match classify t (snd item), expiry_time (snd item) with
  | Some ClassExpired, _ => [PhoneAccountSystem.LineExpired (fst item)]
  | Some ClassExpiring, Some expiry =>
      [PhoneAccountSystem.LineExpiring (fst item)
         (TimeManager.format_remaining_time t expiry)]
  | _, _ => []
  end.

Definition in_class (t : Z) (c : expiry_class) (item : string * Account)
    : bool :=
  match classify t (snd item), c with
  | Some ClassExpired, ClassExpired
  | Some ClassExpiring, ClassExpiring
  | Some ClassNormal, ClassNormal => true
  | _, _ => false
  end.

Definition count_class (t : Z) (c : expiry_class) (items : dict) : nat :=
  List.length (filter (in_class t c) items).

(** The string has one character for each class of the list, each in its
    class. *)
Fixpoint classes_ok (ks : list SecurityManager.cls) (s : string) : bool :=
  match ks, s with
  | [], EmptyString => true
  | k :: ks', String c r => SecurityManager.cls_match k c && classes_ok ks' r
  | _, _ => false
  end.

(** The float is not below zero: zero, positive, or NaN. *)
Definition not_negative (x : float) : Prop := (x <? 0)%float = false.

Definition SF_not_negative (x : spec_float) : Prop :=
  SFltb x (S754_zero false) = false.

(** The value of a float that is zero or finite, as a whole number of
    units of 2^-1074, the least positive binary64 number; nothing for an
    infinity or NaN. *)
Definition SF_scaled (x : spec_float) : option Z :=
  match x with
  | S754_zero _ => Some 0
  | S754_finite s m e => Some (cond_Zopp s (Zpos m) * 2 ^ (e + 1074))
  | _ => None
  end.

Definition scaled (x : float) : option Z := SF_scaled (Prim2SF x).

(** The sum [b + a] of the code is exact: [b], [a] and the float [b + a]
    are finite, and the value of [b + a] is the sum of the values of [b]
    and [a], nothing was rounded off. *)
Definition exact_sum (b a : float) : Prop :=
  match scaled b, scaled a, scaled (b + a) with
  | Some vb, Some va, Some vs => vs = vb + va
  | _, _, _ => False
  end.

(** No balance of the store is below zero. *)
Definition balances_not_negative (w : World) : Prop :=
  Forall (fun item => not_negative (balance (snd item))) (accounts w).

(** If no balance was below zero before, none is after. *)
Definition stays_not_negative (w w' : World) : Prop :=
  balances_not_negative w -> balances_not_negative w'.

End Vocabulary.

(** ** The vocabulary of the properties of the store *)

Section StoreVocabulary.
Context `{Builtins}.

(** The last four digits an entry of the store is filed under. *)
Definition tail_of (item : string * Account) : string := last_four (snd item).

(** An entry as [register_phone] makes it: the key has the shape of a phone
    number and [last_four] is cut from it. *)
Definition entry_ok (item : string * Account) : Prop :=
  phone_shape (fst item) = true
  /\ last_four (snd item) = Str.suffix 4 (fst item).

(** Every entry is as [register_phone] makes it, and no two entries share
    their last four digits. *)
Definition store_ok (d : dict) : Prop :=
  Forall entry_ok d /\ NoDup (map tail_of d).

Definition keeps_store_ok (w w' : World) : Prop :=
  store_ok (accounts w) -> store_ok (accounts w').

(** The assignments that the commands make to an account that is already
    in the store: [info["status"] = "已过期"], [info["balance"] = ...],
    [info["last_modified"] = ...] and [info["password"] = ...]. *)
Inductive update : (Account -> Account) -> Prop :=
| update_expired : update (set_status StatusExpired)
| update_balance (x : float) : update (set_balance x)
| update_last_modified (t : option Z) : update (set_last_modified t)
| update_password (h : string) : update (set_password (Some h)).

(** [info'] is [info] as far as registration fixed it: the last four
    digits, the bonus, the validity period and the security question and
    answer; and it is marked expired if [info] is. *)
Definition same_identity (info info' : Account) : Prop :=
  last_four info' = last_four info
  /\ registration_bonus info' = registration_bonus info
  /\ valid_days info' = valid_days info
  /\ created_at info' = created_at info
  /\ expiry_time info' = expiry_time info
  /\ security_question info' = security_question info
  /\ security_answer info' = security_answer info
  /\ (status info = StatusExpired -> status info' = StatusExpired).

(** Every account of [w] is still in [w'], with the same identity. *)
Definition grows (w w' : World) : Prop :=
  forall phone info,
    dict_get (accounts w) phone = Some info ->
    exists info', dict_get (accounts w') phone = Some info'
                  /\ same_identity info info'.

(** Every balance of [w'] is the one of [w]. *)
Definition same_balances (w w' : World) : Prop :=
  forall phone, balance_at phone w' = balance_at phone w.

(** A specification by cases of a run that answers [(success, message)]:
    [S] for the answer [(True, message)], [F] for the answer [(False, _)]
    and for a run that raises. *)
Definition outcome_spec (S : msg -> World -> Prop) (F : World -> Prop)
    (o : Outcome (bool * msg)) : Prop :=
  match o with
  | Ret (true, message) _ w' _ => S message w'
  | Ret (false, _) _ w' _ => F w'
  | Raise _ w' _ => F w'
  end.

(** The same with the lines that the run left unread in the clause of
    success. *)
Definition dialogue_spec (S : msg -> list string -> World -> Prop)
    (F : World -> Prop) (o : Outcome (bool * msg)) : Prop :=
  match o with
  | Ret (true, message) rest w' _ => S message rest w'
  | Ret (false, _) _ w' _ => F w'
  | Raise _ w' _ => F w'
  end.

(** A run that returns has read a front part of the console and left the
    remainder. *)
Definition consumed {A} (stdin : list string) (o : Outcome A) : Prop :=
  match o with
  | Ret _ rest _ _ => exists before, stdin = before ++ rest
  | Raise _ _ _ => True
  end.

(** [w'] is [w] after a recharge that went through: the account of some
    phone, in good standing, got an amount added to its balance and the time
    written to [last_modified], and the store was saved.  The amount is one
    that the test [amount <= 0] lets through: a positive number, positive
    infinity, or NaN, of which every comparison is false. *)
Definition recharged_from (w : World) (message : msg) (w' : World) : Prop :=
  exists phone info amount,
    dict_get (accounts w) phone = Some info
    /\ in_good_standing w info
    /\ (amount <=? 0)%float = false
    /\ message = MsgRecharged phone (balance info + amount)%float
    /\ w' = saved_world
              (dict_set (accounts w) phone
                 (touched (now w) (balance info + amount)%float info)) w.

(** The same for a deduction, of an amount that both tests let through:
    [amount <= 0] is false and [balance < amount] is false.  That is a
    positive amount up to the balance; or NaN, or any positive amount when
    the balance is NaN. *)
Definition deducted_from (w : World) (message : msg) (w' : World) : Prop :=
  exists phone info amount,
    dict_get (accounts w) phone = Some info
    /\ in_good_standing w info
    /\ (amount <=? 0)%float = false
    /\ (balance info <? amount)%float = false
    /\ message = MsgDeducted phone (balance info - amount)%float
    /\ w' = saved_world
              (dict_set (accounts w) phone
                 (touched (now w) (balance info - amount)%float info)) w.

(** [w'] is [w] after a password reset that went through: the account of
    some phone got the hash of a four-digit PIN and the time written to
    [last_modified], and the store was saved. *)
Definition reset_from (w : World) (message : msg) (w' : World) : Prop :=
  exists phone info pin,
    dict_get (accounts w) phone = Some info
    /\ SecurityManager.validate_password pin = true
    /\ next_write_ok w = true
    /\ message = MsgResetOk
    /\ w' = saved_world
              (dict_set (accounts w) phone (reset_to (now w) pin info)) w.

(** [w'] is [w] after a password reset that did not go through: nothing
    changed, or the save failed and the new hash is in the store in memory
    all the same.  This is about the store in memory: what a save that
    failed has left of the data file is not said. *)
Definition reset_failed_from (w w' : World) : Prop :=
  w' = w
  \/ exists phone info pin,
       dict_get (accounts w) phone = Some info
       /\ SecurityManager.validate_password pin = true
       /\ next_write_ok w = false
       /\ accounts w'
          = dict_set (accounts w) phone (reset_to (now w) pin info).

(** The lines of a password reset of [phone] to [pin] that left [rest]: any
    number of identifiers that name no account, one that names [phone], the
    lines of the security question and of the new passwords that were
    turned down, and last [pin], twice. *)
Definition reset_typed (stdin : list string) (w : World)
    (phone pin : string) (rest : list string) : Prop :=
  exists skipped idline message before,
    stdin = skipped ++ idline :: before ++ pin :: pin :: rest
    /\ PhoneAccountSystem.find_account (Str.strip idline) (accounts w)
       = (Some phone, message).

(** The account that a finished registration leaves: the bonus as balance
    and as [registration_bonus], the last four characters of the phone, the
    hashes of the PIN and of the answer, the chosen question, the status
    "正常", the validity period, and the three times that the registration
    wrote: [created_at], [expiry_time] and [last_modified]. *)
Definition made_account (phone : string) (bonus : float)
    (n created expiry modified : Z) (pin : string) (q : nat)
    (answer : string) : Account :=
  mkAccount bonus (Str.suffix 4 phone)
    (Some (SecurityManager.hash_password pin)) (Some q)
    (Some (SecurityManager.hash_answer answer)) StatusActive bonus
    (Some n) (Some created) (Some expiry) (Some modified).

(** [w'] is [w] after a registration that went through: one account was
    added at the end of the store, for a phone number that was not there
    and whose last four digits no account had, and the store was saved.
    The bonus is one that the test [bonus < 0] lets through (zero, a
    positive number, or NaN).  [created_at] and [expiry_time] come from two
    readings of the clock, [expiry_time] from the later one plus the
    validity period: the account was made during the command, and it runs
    out no earlier than [valid_days] days after it was made. *)
Definition registered_from (w : World) (message : msg) (w' : World) : Prop :=
  exists phone bonus n created expiry modified pin q answer,
    phone_shape phone = true
    /\ dict_get (accounts w) phone = None
    /\ PhoneAccountSystem.tail_conflict (Str.suffix 4 phone) (accounts w)
       = None
    /\ not_negative bonus
    /\ 0 < n
    /\ now w <= created
    /\ created + n * TimeManager.DAY <= expiry
    /\ SecurityManager.validate_password pin = true
    /\ (q < 8)%nat
    /\ 2 <= Str.len answer
    /\ next_write_ok w = true
    /\ message = MsgAccountCreated bonus
    /\ w' = saved_world
              (accounts w
               ++ [(phone,
                    made_account phone bonus n created expiry modified pin q
                      answer)])
              w.

(** The lines of a registration of [phone] with the password [pin]: any
    number of phone numbers that were turned down, the line whose stripped
    form is [phone], the lines of the bonus, of the validity period and of
    the passwords that were turned down, then [pin], twice, and the lines
    of the security question. *)
Definition register_typed (stdin : list string) (phone pin : string)
    : Prop :=
  exists skipped line before after,
    stdin = skipped ++ line :: before ++ pin :: pin :: after
    /\ phone = Str.strip line.

(** A registration that went through as the model runs it, where one
    reading of the clock serves the whole command, with the lines that
    were typed. *)
Definition registered_run (stdin : list string) (w : World) (message : msg)
    (w' : World) : Prop :=
  exists phone bonus n pin q answer,
    register_typed stdin phone pin
    /\ phone_shape phone = true
    /\ dict_get (accounts w) phone = None
    /\ PhoneAccountSystem.tail_conflict (Str.suffix 4 phone) (accounts w)
       = None
    /\ not_negative bonus
    /\ 0 < n
    /\ SecurityManager.validate_password pin = true
    /\ (q < 8)%nat
    /\ 2 <= Str.len answer
    /\ next_write_ok w = true
    /\ message = MsgAccountCreated bonus
    /\ w' = saved_world
              (accounts w
               ++ [(phone,
                    made_account phone bonus n (now w)
                      (now w + n * TimeManager.DAY) (now w) pin q answer)])
              w.

(** An event of a query: the prompt for the identifier, or a printed
    message.  No password or answer is asked for, nothing is saved or
    pushed. *)
Definition query_event (ev : Event) : Prop :=
  match ev with
  | Asked AskIdentifier => True
  | Said _ => True
  | _ => False
  end.

(** The answer of [get_balance] for the account [info] of [phone] at the
    clock reading [t]. *)
Definition balance_report (t : Z) (phone : string) (info : Account) : msg :=
  MsgBalance phone (balance info)
    (match expiry_time info with
     | Some expiry =>
         Some (status info, TimeManager.format_remaining_time t expiry)
     | None => None
     end).

(** An account whose registration was finished: it has a password, a
    security question and answer and a validity period, and its status is
    no longer "未设置有效期". *)
Definition complete (info : Account) : Prop :=
  status info <> StatusUnset
  /\ password info <> None
  /\ security_question info <> None
  /\ security_answer info <> None
  /\ valid_days info <> None
  /\ created_at info <> None
  /\ expiry_time info <> None.

Definition all_complete (d : dict) : Prop :=
  Forall (fun item => complete (snd item)) d.

Definition keeps_complete (w w' : World) : Prop :=
  all_complete (accounts w) -> all_complete (accounts w').

(** [hoare_post Q allowed o]: the run [o] returned in a world that
    satisfies [Q], or raised an exception that [allowed] admits. *)
Definition hoare_post {A} (Q : World -> Prop) (allowed : Exn -> Prop)
    (o : Outcome A) : Prop :=
  match o with
  | Ret _ _ w' _ => Q w'
  | Raise e _ _ => allowed e
  end.

(** [safe Pre allowed m]: started in a world that satisfies [Pre], [m]
    returns in such a world or raises an exception that [allowed] admits. *)
Definition safe {A} (Pre : World -> Prop) (allowed : Exn -> Prop) (m : Op A)
    : Prop :=
  forall stdin w, Pre w -> hoare_post Pre allowed (m stdin w).

(** The store holds an account for [phone], with an expiry time. *)
Definition usable (phone : string) (w : World) : Prop :=
  exists info, dict_get (accounts w) phone = Some info
               /\ expiry_time info <> None.

(** The store holds an entry for [phone]. *)
Definition present (phone : string) (w : World) : Prop :=
  exists info, dict_get (accounts w) phone = Some info.

Definition eof_only (e : Exn) : Prop := e = EOFError.

Definition eof_or_overflow (e : Exn) : Prop :=
  e = EOFError \/ e = OverflowError.

End StoreVocabulary.

(* ================================================================== *)
(** * Properties *)

(* ================================================================== *)
(** ** Facts about the dictionary *)

Lemma dict_get_set_same (d : dict) k v : dict_get (dict_set d k v) k = Some v.
Proof.
  induction d as [|[k' v'] r IH]; simpl.
  - now rewrite String.eqb_refl.
  - destruct (String.eqb k' k) eqn:E; simpl.
    + now rewrite String.eqb_refl.
    + now rewrite E.
Qed.

Lemma dict_get_set_other (d : dict) k k' v :
  k' <> k -> dict_get (dict_set d k v) k' = dict_get d k'.
Proof.
  intros N. induction d as [|[k0 v0] r IH]; simpl.
  - destruct (String.eqb k k') eqn:E; [|reflexivity].
    apply String.eqb_eq in E. congruence.
  - destruct (String.eqb k0 k) eqn:E; simpl.
    + apply String.eqb_eq in E. subst k0.
      destruct (String.eqb k k') eqn:E'; [|reflexivity].
      apply String.eqb_eq in E'. congruence.
    + now rewrite IH.
Qed.

Lemma dict_set_set (d : dict) k v v' :
  dict_set (dict_set d k v) k v' = dict_set d k v'.
Proof.
  induction d as [|[k0 v0] r IH]; simpl.
  - now rewrite String.eqb_refl.
  - destruct (String.eqb k0 k) eqn:E; simpl.
    + now rewrite String.eqb_refl.
    + now rewrite E, IH.
Qed.

Lemma dict_del_set (d : dict) k v :
  dict_del (dict_set d k v) k = dict_del d k.
Proof.
  induction d as [|[k0 v0] r IH]; simpl.
  - now rewrite String.eqb_refl.
  - destruct (String.eqb k0 k) eqn:E; simpl.
    + now rewrite String.eqb_refl.
    + now rewrite E, IH.
Qed.

Lemma dict_del_absent (d : dict) k : dict_get d k = None -> dict_del d k = d.
Proof.
  induction d as [|[k0 v0] r IH]; simpl; [reflexivity|].
  destruct (String.eqb k0 k); [discriminate|].
  intros E. now rewrite IH.
Qed.

Lemma dict_get_del_other (d : dict) k k' :
  k' <> k -> dict_get (dict_del d k) k' = dict_get d k'.
Proof.
  intros N. induction d as [|[k0 v0] r IH]; simpl; [reflexivity|].
  destruct (String.eqb k0 k) eqn:E; simpl.
  - apply String.eqb_eq in E. subst k0.
    destruct (String.eqb k k') eqn:E'; [|reflexivity].
    apply String.eqb_eq in E'. congruence.
  - now rewrite IH.
Qed.

Lemma dict_mem_false (d : dict) k : dict_mem d k = false -> dict_get d k = None.
Proof. unfold dict_mem. now destruct (dict_get d k). Qed.

(** Two stores that agree once the entry of [k] is taken out agree at every
    other key. *)
Lemma dict_del_eq_get (d d' : dict) k k' :
  dict_del d' k = dict_del d k -> k' <> k -> dict_get d' k' = dict_get d k'.
Proof.
  intros E N.
  rewrite <- (dict_get_del_other d' k k' N), <- (dict_get_del_other d k k' N).
  now rewrite E.
Qed.

(* ================================================================== *)
(** ** Facts about binary64 comparisons *)

Lemma Prim2SF_zero : Prim2SF 0 = S754_zero false.
Proof. reflexivity. Qed.

Lemma SFcompare_Eq_sym x y :
  SFcompare x y = Some Eq -> SFcompare y x = Some Eq.
Proof.
  destruct x as [sx|sx| |sx mx ex], y as [sy|sy| |sy my ey]; simpl;
    try discriminate; try reflexivity;
    try (destruct sx; discriminate); try (destruct sy; discriminate);
    try (destruct sx, sy; (discriminate || reflexivity)).
  destruct sx, sy; try discriminate;
    destruct (Z.compare ex ey) eqn:Ee; try discriminate;
    apply Z.compare_eq in Ee; subst ey; rewrite Z.compare_refl;
    intro Hm; injection Hm as Hm.
  - destruct (Pos.compare_cont Eq mx my) eqn:Em; try discriminate.
    apply Pos.compare_eq in Em. subst. now rewrite Pos.compare_cont_refl.
  - apply Pos.compare_eq in Hm. subst. now rewrite Pos.compare_cont_refl.
Qed.

(** [a == b] excludes [b < a]. *)
Lemma float_eqb_not_ltb (a b : float) :
  (a =? b)%float = true -> (b <? a)%float = false.
Proof.
  rewrite eqb_spec, ltb_spec. unfold SFeqb, SFltb.
  destruct (SFcompare (Prim2SF a) (Prim2SF b)) as [[]|] eqn:E;
    try discriminate.
  intros _. now rewrite (SFcompare_Eq_sym _ _ E).
Qed.


(** *** The sign of a sum and of a difference *)

Lemma not_negative_spec x : not_negative x <-> SF_not_negative (Prim2SF x).
Proof.
  unfold not_negative, SF_not_negative. now rewrite ltb_spec, Prim2SF_zero.
Qed.

(** Rounding a positive number gives zero, a positive float, infinity, or
    NaN in the case the definition leaves for a negative mantissa. *)
Lemma binary_round_aux_not_negative mx ex lx :
  SF_not_negative (binary_round_aux prec emax false mx ex lx).
Proof.
  unfold SF_not_negative, binary_round_aux.
  destruct (shr_fexp prec emax mx ex lx) as [mrs' e'].
  destruct (shr_fexp prec emax _ e' loc_Exact) as [mrs'' e''].
  destruct (shr_m mrs''); [reflexivity| |reflexivity].
  destruct (Z.leb e'' (emax - prec)); reflexivity.
Qed.

Lemma binary_normalize_not_negative m e :
  0 <= m -> SF_not_negative (binary_normalize prec emax m e false).
Proof.
  destruct m as [|p|p]; intros Hm; [reflexivity| |lia].
  unfold binary_normalize, binary_round.
  destruct (shl_align p e _) as [mz ez].
  apply binary_round_aux_not_negative.
Qed.

Lemma digits2_pos_size m : digits2_pos m = Pos.size m.
Proof. induction m; simpl; congruence. Qed.

Lemma shl_align_same m e : shl_align m e e = (m, e).
Proof. unfold shl_align. now rewrite Z.sub_diag. Qed.

Lemma shl_align_lower m e e' :
  e' < e -> Zpos (fst (shl_align m e e')) = Zpos m * 2 ^ (e - e').
Proof.
  intros Hlt. unfold shl_align.
  destruct (e' - e) as [|d|d] eqn:Hd; try lia.
  simpl fst. change (Pos.iter xO m d) with (shift_pos d m).
  rewrite shift_pos_correct.
  replace (e - e') with (Zpos d) by lia.
  rewrite Z.mul_comm. reflexivity.
Qed.

(** A valid mantissa has at most 53 bits, and exactly 53 above the least
    exponent. *)
Lemma bounded_size m e :
  bounded prec emax m e = true ->
  Zpos (Pos.size m) <= 53
  /\ -1074 <= e /\ (-1074 < e -> Zpos (Pos.size m) = 53).
Proof.
  unfold bounded, canonical_mantissa, fexp, emin.
  rewrite digits2_pos_size. change prec with 53. change emax with 1024.
  intros Hb. apply andb_prop in Hb. destruct Hb as [Hc _].
  apply Z.eqb_eq in Hc. lia.
Qed.

Lemma pos_size_bounds m :
  2 ^ Zpos (Pos.size m) <= 2 * Zpos m /\ Zpos m < 2 ^ Zpos (Pos.size m).
Proof.
  split.
  - pose proof (Pos.size_le m) as Hle.
    apply Pos2Z.pos_le_pos in Hle. rewrite Pos2Z.inj_pow in Hle.
    now rewrite Pos2Z.inj_xO in Hle.
  - pose proof (Pos.size_gt m) as Hgt.
    apply Pos2Z.pos_lt_pos in Hgt. now rewrite Pos2Z.inj_pow in Hgt.
Qed.

(** Of two valid positive floats, the one that does not compare less has
    the greater or equal mantissa once both are brought to the lower
    exponent. *)
Lemma aligned_le mx ex my ey :
  bounded prec emax mx ex = true -> bounded prec emax my ey = true ->
  match Z.compare ex ey with
  | Lt => Lt
  | Gt => Gt
  | Eq => Pos.compare_cont Eq mx my
  end <> Lt ->
  Zpos (fst (shl_align my ey (Z.min ex ey)))
  <= Zpos (fst (shl_align mx ex (Z.min ex ey))).
Proof.
  intros Bx By Hc.
  destruct (Z.compare_spec ex ey) as [E|L|G]; [|congruence|].
  - subst ey. rewrite Z.min_id, !shl_align_same. simpl.
    change (Pos.compare_cont Eq mx my) with (Pos.compare mx my) in Hc.
    apply Pos2Z.pos_le_pos. now apply Pos.compare_ge_iff.
  - rewrite Z.min_r by lia. rewrite shl_align_same. simpl fst.
    rewrite shl_align_lower by lia.
    destruct (bounded_size mx ex Bx) as (_ & _ & Sx).
    destruct (bounded_size my ey By) as (Sy & Ey & _).
    destruct (pos_size_bounds mx) as [Lx _].
    destruct (pos_size_bounds my) as [_ Uy].
    rewrite Sx in Lx by lia.
    assert (Hy : 2 ^ Zpos (Pos.size my) <= 2 ^ 53)
      by (apply Z.pow_le_mono_r; lia).
    assert (Hd : 2 ^ 1 <= 2 ^ (ex - ey)) by (apply Z.pow_le_mono_r; lia).
    change (2 ^ 1) with 2 in Hd. nia.
Qed.

(** [balance + amount] is not below zero when [balance] is not and
    [amount <= 0] is false. *)
Lemma float_add_not_negative (b a : float) :
  not_negative b -> (a <=? 0)%float = false -> not_negative (b + a)%float.
Proof.
  rewrite !not_negative_spec, leb_spec, add_spec, Prim2SF_zero.
  unfold SF_not_negative, SFleb, SFltb, SF64add.
  destruct (Prim2SF b) as [sx|sx| |sx mx ex],
           (Prim2SF a) as [sy|sy| |sy my ey];
    simpl; try discriminate; try reflexivity;
    try (destruct sx; discriminate || reflexivity);
    try (destruct sy; discriminate || reflexivity);
    try (destruct sx, sy; discriminate || reflexivity).
  destruct sx, sy; try discriminate. intros _ _.
  apply binary_normalize_not_negative. simpl. lia.
Qed.

(** [balance - amount] is not below zero when [balance < amount] and
    [amount <= 0] are both false. *)
Lemma float_sub_not_negative (b a : float) :
  (b <? a)%float = false -> (a <=? 0)%float = false ->
  not_negative (b - a)%float.
Proof.
  rewrite not_negative_spec, leb_spec, ltb_spec, sub_spec, Prim2SF_zero.
  pose proof (Prim2SF_valid b) as Vb. pose proof (Prim2SF_valid a) as Va.
  unfold SF_not_negative, SFleb, SFltb, SF64sub.
  destruct (Prim2SF b) as [sx|sx| |sx mx ex],
           (Prim2SF a) as [sy|sy| |sy my ey];
    simpl; try discriminate; try reflexivity;
    try (destruct sx; discriminate || reflexivity);
    try (destruct sy; discriminate || reflexivity);
    try (destruct sx, sy; discriminate || reflexivity).
  destruct sx, sy; try discriminate. intros Hc _.
  apply binary_normalize_not_negative. simpl in Va, Vb.
  assert (Hle := aligned_le mx ex my ey Vb Va).
  simpl cond_Zopp.
  assert (Hn : match Z.compare ex ey with
               | Lt => Lt | Gt => Gt | Eq => Pos.compare_cont Eq mx my
               end <> Lt).
  { intros E. rewrite E in Hc. discriminate. }
  specialize (Hle Hn). lia.
Qed.

(** *** A sum that is exact

    Binary64 subtraction returns the float nearest to the exact
    difference; when that difference is itself a float, it is returned. *)

(** The position of the leading bit of [m * 2 ^ a] is fixed by the value. *)
Lemma size_of_value m1 a1 m2 a2 :
  0 <= a1 -> 0 <= a2 ->
  Zpos m1 * 2 ^ a1 = Zpos m2 * 2 ^ a2 ->
  Zpos (Pos.size m1) + a1 = Zpos (Pos.size m2) + a2.
Proof.
  intros H1 H2 E.
  destruct (pos_size_bounds m1) as [L1 U1].
  destruct (pos_size_bounds m2) as [L2 U2].
  assert (P1 : 0 < 2 ^ a1) by (apply Z.pow_pos_nonneg; lia).
  assert (P2 : 0 < 2 ^ a2) by (apply Z.pow_pos_nonneg; lia).
  assert (A : forall s a m s' a' m',
             0 <= a -> 0 <= a' -> 0 < 2 ^ a -> 0 < 2 ^ a' ->
             2 ^ Zpos s <= 2 * Zpos m -> Zpos m' < 2 ^ Zpos s' ->
             Zpos m * 2 ^ a = Zpos m' * 2 ^ a' ->
             Zpos s + a < Zpos s' + a' + 1).
  { intros s a m s' a' m' Ha Ha' Pa Pa' L U Ev.
    apply (Z.pow_lt_mono_r_iff 2); [lia|lia|].
    rewrite !Z.pow_add_r by lia. change (2 ^ 1) with 2. nia. }
  pose proof (A _ _ _ _ _ _ H1 H2 P1 P2 L1 U2 E).
  pose proof (A _ _ _ _ _ _ H2 H1 P2 P1 L2 U1 (eq_sym E)).
  lia.
Qed.

Lemma iter_shr_1 n :
  forall m, iter_pos shr_1 n (Build_shr_record (Zpos (shift_pos n m)) false false)
            = Build_shr_record (Zpos m) false false.
Proof.
  unfold shift_pos.
  induction n as [n IH|n IH|]; intros m; simpl.
  - now rewrite !IH.
  - now rewrite !IH.
  - reflexivity.
Qed.

Lemma binary_round_aux_canonical s m e :
  bounded prec emax m e = true ->
  binary_round_aux prec emax s (Zpos m) e loc_Exact = S754_finite s m e.
Proof.
  intros Hb. unfold bounded, canonical_mantissa in Hb.
  apply andb_prop in Hb. destruct Hb as [Hc He].
  apply Z.eqb_eq in Hc.
  unfold binary_round_aux, shr_fexp.
  cbn [Zdigits2 shr_record_of_loc]. rewrite Hc, Z.sub_diag.
  cbn [shr shr_m loc_of_shr_record round_nearest_even Zdigits2
       shr_record_of_loc].
  rewrite Hc, Z.sub_diag. cbn [shr shr_m]. now rewrite He.
Qed.

Lemma binary_round_canonical s m e mx ex :
  bounded prec emax mx ex = true -> -1074 <= e ->
  Zpos m * 2 ^ (e + 1074) = Zpos mx * 2 ^ (ex + 1074) ->
  binary_round prec emax s m e = S754_finite s mx ex.
Proof.
  intros Hb He Hv.
  destruct (bounded_size mx ex Hb) as (_ & Hex & _).
  assert (Hd : Zpos (digits2_pos m) + e = Zpos (digits2_pos mx) + ex).
  { rewrite (digits2_pos_size m), (digits2_pos_size mx).
    pose proof (size_of_value m (e + 1074) mx (ex + 1074)
                  ltac:(lia) ltac:(lia) Hv). lia. }
  assert (Hc : fexp prec emax (Zpos (digits2_pos mx) + ex) = ex).
  { unfold bounded, canonical_mantissa in Hb. apply andb_prop in Hb.
    destruct Hb as [Hc _]. now apply Z.eqb_eq in Hc. }
  unfold binary_round. rewrite Hd, Hc.
  destruct (Z.compare_spec ex e) as [E|L|G].
  - subst e. rewrite shl_align_same.
    assert (m = mx).
    { assert (0 < 2 ^ (ex + 1074)) by (apply Z.pow_pos_nonneg; lia). nia. }
    subst m. now apply binary_round_aux_canonical.
  - pose proof (shl_align_lower m e ex L) as Hs.
    unfold shl_align in *.
    destruct (ex - e) as [|d|d] eqn:Hde; try lia.
    simpl fst in Hs.
    assert (Pos.iter xO m d = mx).
    { apply Pos2Z.inj_pos. rewrite Hs.
      replace (e + 1074) with ((e - ex) + (ex + 1074)) in Hv by lia.
      rewrite (Z.pow_add_r 2 (e - ex) (ex + 1074)) in Hv by lia.
      assert (0 < 2 ^ (ex + 1074)) by (apply Z.pow_pos_nonneg; lia). nia. }
    rewrite H. now apply binary_round_aux_canonical.
  - unfold shl_align.
    destruct (ex - e) as [|k|k] eqn:Hk; try lia.
    assert (Hm : m = shift_pos k mx).
    { apply Pos2Z.inj_pos. rewrite shift_pos_correct, Zpower_pos_nat.
      rewrite Zpower_nat_Z, positive_nat_Z.
      replace (ex + 1074) with (Zpos k + (e + 1074)) in Hv by lia.
      rewrite (Z.pow_add_r 2 (Zpos k) (e + 1074)) in Hv by lia.
      assert (0 < 2 ^ (e + 1074)) by (apply Z.pow_pos_nonneg; lia). nia. }
    unfold binary_round_aux, shr_fexp.
    cbn [Zdigits2 shr_record_of_loc]. rewrite Hd, Hc, Hk.
    cbn [shr]. rewrite Hm, iter_shr_1.
    cbn [shr_m loc_of_shr_record round_nearest_even Zdigits2
         shr_record_of_loc].
    replace (e + Zpos k) with ex by lia.
    rewrite Hc, Z.sub_diag. cbn [shr shr_m].
    unfold bounded in Hb. apply andb_prop in Hb. destruct Hb as [_ Hle].
    now rewrite Hle.
Qed.

Lemma canonical_unique m1 e1 m2 e2 :
  bounded prec emax m1 e1 = true -> bounded prec emax m2 e2 = true ->
  Zpos m1 * 2 ^ (e1 + 1074) = Zpos m2 * 2 ^ (e2 + 1074) ->
  m1 = m2 /\ e1 = e2.
Proof.
  intros B1 B2 Hv.
  destruct (bounded_size m1 e1 B1) as (_ & H1 & _).
  pose proof (binary_round_canonical false m1 e1 m1 e1 B1 H1 eq_refl) as R1.
  pose proof (binary_round_canonical false m1 e1 m2 e2 B2 H1 Hv) as R2.
  rewrite R1 in R2. now injection R2.
Qed.

Lemma aligned_value m e e' :
  -1074 <= e' -> e' <= e ->
  Zpos (fst (shl_align m e e')) * 2 ^ (e' + 1074) = Zpos m * 2 ^ (e + 1074).
Proof.
  intros H1 H2. destruct (Z.eq_dec e' e) as [->|Hne].
  - now rewrite shl_align_same.
  - rewrite shl_align_lower by lia.
    replace (e + 1074) with ((e - e') + (e' + 1074)) by lia.
    rewrite (Z.pow_add_r 2 (e - e') (e' + 1074)) by lia. ring.
Qed.

Lemma SFeqb_finite_refl s m e :
  SFeqb (S754_finite s m e) (S754_finite s m e) = true.
Proof.
  unfold SFeqb. simpl.
  destruct s; rewrite Z.compare_refl, Pos.compare_cont_refl; reflexivity.
Qed.

Lemma scaled_finite_nonzero s m e :
  -1074 <= e -> cond_Zopp s (Zpos m) * 2 ^ (e + 1074) <> 0.
Proof.
  intros He.
  assert (0 < 2 ^ (e + 1074)) by (apply Z.pow_pos_nonneg; lia).
  destruct s; cbn [cond_Zopp Z.opp]; nia.
Qed.

(** A finite float is fixed by its sign and its value. *)
Lemma scaled_unique s1 m1 e1 s2 m2 e2 :
  bounded prec emax m1 e1 = true -> bounded prec emax m2 e2 = true ->
  cond_Zopp s1 (Zpos m1) * 2 ^ (e1 + 1074)
  = cond_Zopp s2 (Zpos m2) * 2 ^ (e2 + 1074) ->
  S754_finite s1 m1 e1 = S754_finite s2 m2 e2.
Proof.
  intros B1 B2 Hv.
  destruct (bounded_size m1 e1 B1) as (_ & H1 & _).
  destruct (bounded_size m2 e2 B2) as (_ & H2 & _).
  assert (P1 : 0 < 2 ^ (e1 + 1074)) by (apply Z.pow_pos_nonneg; lia).
  assert (P2 : 0 < 2 ^ (e2 + 1074)) by (apply Z.pow_pos_nonneg; lia).
  assert (Hs : s1 = s2) by (destruct s1, s2; cbn [cond_Zopp Z.opp] in Hv; (reflexivity || nia)).
  subst s2.
  assert (Hv' : Zpos m1 * 2 ^ (e1 + 1074) = Zpos m2 * 2 ^ (e2 + 1074))
    by (destruct s1; cbn [cond_Zopp Z.opp] in Hv; lia).
  destruct (canonical_unique m1 e1 m2 e2 B1 B2 Hv') as [-> ->]. reflexivity.
Qed.

(** Rounding a number that a float holds gives that float. *)
Lemma binary_normalize_representable z e x v :
  SpecFloat.valid_binary prec emax x = true -> SF_scaled x = Some v ->
  -1074 <= e -> z * 2 ^ (e + 1074) = v ->
  SFeqb (binary_normalize prec emax z e false) x = true.
Proof.
  intros Vx Hx He Hz.
  assert (P : 0 < 2 ^ (e + 1074)) by (apply Z.pow_pos_nonneg; lia).
  destruct x as [s|s| |s m e']; try discriminate Hx; cbn [SF_scaled SpecFloat.valid_binary] in Hx, Vx;
    injection Hx as <-.
  - assert (z = 0) by nia. subst z. now destruct s.
  - destruct (bounded_size m e' Vx) as (_ & He' & _).
    assert (P' : 0 < 2 ^ (e' + 1074)) by (apply Z.pow_pos_nonneg; lia).
    destruct z as [|p|p]; cbn [binary_normalize].
    + exfalso. destruct s; cbn [cond_Zopp Z.opp] in Hz; nia.
    + assert (s = false) by (destruct s; cbn [cond_Zopp Z.opp] in Hz; (reflexivity || nia)).
      subst s. cbn [cond_Zopp Z.opp] in Hz.
      rewrite (binary_round_canonical false p e m e' Vx He Hz).
      apply SFeqb_finite_refl.
    + assert (s = true) by (destruct s; cbn [cond_Zopp Z.opp] in Hz; (reflexivity || nia)).
      subst s. cbn [cond_Zopp Z.opp] in Hz.
      rewrite (binary_round_canonical true p e m e' Vx He); [|lia].
      apply SFeqb_finite_refl.
Qed.

(** A difference whose exact value is that of a float is that float. *)
Lemma SFsub_representable s a b vs va vb :
  SpecFloat.valid_binary prec emax s = true -> SpecFloat.valid_binary prec emax a = true ->
  SpecFloat.valid_binary prec emax b = true ->
  SF_scaled s = Some vs -> SF_scaled a = Some va -> SF_scaled b = Some vb ->
  vs = vb + va ->
  SFeqb (SFsub prec emax s a) b = true.
Proof.
  intros Vs Va Vb Hs Ha Hb Hv.
  destruct s as [ss|ss| |ss ms es]; try discriminate Hs;
    destruct a as [sa|sa| |sa ma ea]; try discriminate Ha;
    cbn [SF_scaled SpecFloat.valid_binary] in Hs, Ha, Vs, Va; injection Hs as <-; injection Ha as <-.
  - (* zero - zero *)
    destruct b as [sb|sb| |sb mb eb]; try discriminate Hb; cbn [SF_scaled SpecFloat.valid_binary] in Hb, Vb;
      injection Hb as <-.
    + destruct ss, sa, sb; reflexivity.
    + destruct (bounded_size mb eb Vb) as (_ & He & _).
      exfalso. apply (scaled_finite_nonzero sb mb eb He). lia.
  - (* zero - finite *)
    destruct (bounded_size ma ea Va) as (_ & Hea & _).
    destruct b as [sb|sb| |sb mb eb]; try discriminate Hb; cbn [SF_scaled SpecFloat.valid_binary] in Hb, Vb;
      injection Hb as <-.
    + exfalso. apply (scaled_finite_nonzero sa ma ea Hea). lia.
    + cbn [SFsub].
      rewrite (scaled_unique (negb sa) ma ea sb mb eb Va Vb).
      * apply SFeqb_finite_refl.
      * destruct sa; cbn [negb cond_Zopp Z.opp] in *; lia.
  - (* finite - zero *)
    destruct b as [sb|sb| |sb mb eb]; try discriminate Hb; cbn [SF_scaled SpecFloat.valid_binary] in Hb, Vb;
      injection Hb as <-.
    + destruct (bounded_size ms es Vs) as (_ & Hes & _).
      exfalso. apply (scaled_finite_nonzero ss ms es Hes). lia.
    + cbn [SFsub].
      rewrite (scaled_unique ss ms es sb mb eb Vs Vb) by lia.
      apply SFeqb_finite_refl.
  - (* finite - finite *)
    destruct (bounded_size ms es Vs) as (_ & Hes & _).
    destruct (bounded_size ma ea Va) as (_ & Hea & _).
    cbn [SFsub].
    apply (binary_normalize_representable _ _ b vb Vb Hb); [lia|].
    pose proof (aligned_value ms es (Z.min es ea) ltac:(lia) ltac:(lia)) as As.
    pose proof (aligned_value ma ea (Z.min es ea) ltac:(lia) ltac:(lia)) as Aa.
    rewrite Z.mul_sub_distr_r.
    assert (Hc : forall sg m, cond_Zopp sg (Zpos m) * 2 ^ (Z.min es ea + 1074)
                              = cond_Zopp sg (Zpos m * 2 ^ (Z.min es ea + 1074)))
      by (intros [] m; cbn [cond_Zopp]; lia).
    rewrite !Hc, As, Aa.
    assert (Hc' : forall sg m e, cond_Zopp sg (Zpos m * 2 ^ (e + 1074))
                                 = cond_Zopp sg (Zpos m) * 2 ^ (e + 1074))
      by (intros [] m e; cbn [cond_Zopp]; lia).
    rewrite !Hc'. lia.
Qed.

(** When the sum [b + a] is exact, taking [a] off it gives [b] back. *)
Lemma float_add_sub_exact (b a : float) :
  exact_sum b a -> ((b + a) - a =? b)%float = true.
Proof.
  unfold exact_sum, scaled. intros Hx.
  rewrite eqb_spec, sub_spec.
  pose proof (Prim2SF_valid b) as Vb. pose proof (Prim2SF_valid a) as Va.
  pose proof (Prim2SF_valid (b + a)) as Vs.
  destruct (SF_scaled (Prim2SF b)) as [vb|] eqn:Hb; [|contradiction].
  destruct (SF_scaled (Prim2SF a)) as [va|] eqn:Ha; [|contradiction].
  destruct (SF_scaled (Prim2SF (b + a))) as [vs|] eqn:Hs; [|contradiction].
  exact (SFsub_representable _ _ _ vs va vb Vs Va Vb Hs Ha Hb Hx).
Qed.

(* ================================================================== *)
(** ** Reasoning about runs *)

Lemma pre_nil {A} (o : Outcome A) : pre [] o = o.
Proof. now destruct o. Qed.

Lemma pre_pre {A} (o1 o2 : list Event) (o : Outcome A) :
  pre o1 (pre o2 o) = pre (o1 ++ o2) o.
Proof. destruct o; simpl; now rewrite app_assoc. Qed.

Section Keeps.
Variable R : World -> World -> Prop.
Variable P : Event -> Prop.
Hypothesis R_refl : forall w, R w w.
Hypothesis R_trans : forall w1 w2 w3, R w1 w2 -> R w2 w3 -> R w1 w3.

Lemma post_pre {A} (Q : World -> Prop) (out : list Event) (o : Outcome A) :
  Forall P out -> post Q P o -> post Q P (pre out o).
Proof.
  intros Hout. destruct o; simpl; intros [HQ HP]; split; trivial;
    apply Forall_app; now split.
Qed.

Lemma post_weaken {A} (Q Q' : World -> Prop) (o : Outcome A) :
  (forall w, Q w -> Q' w) -> post Q P o -> post Q' P o.
Proof. intros HQ. destruct o; simpl; intros [H1 H2]; split; auto. Qed.

Lemma post_bind {A B} (m : Op A) (f : A -> Op B) stdin w :
  post (R w) P (m stdin w) -> (forall a, keeps R P (f a)) ->
  post (R w) P (bind m f stdin w).
Proof.
  unfold bind. intros Hm Hf.
  destruct (m stdin w) as [a s1 w1 o1|e w1 o1]; simpl in Hm; [|exact Hm].
  destruct Hm as [HR HP]. apply post_pre; [exact HP|].
  eapply post_weaken; [|apply Hf]. intros w2. now apply R_trans.
Qed.

Lemma keeps_bind {A B} (m : Op A) (f : A -> Op B) :
  keeps R P m -> (forall a, keeps R P (f a)) -> keeps R P (bind m f).
Proof. intros Hm Hf stdin w. apply post_bind; auto. Qed.

Lemma keeps_ret {A} (a : A) : keeps R P (ret a).
Proof. intros stdin w. simpl. split; [apply R_refl|constructor]. Qed.

Lemma keeps_raise {A} (e : Exn) : keeps R P (@raise A e).
Proof. intros stdin w. simpl. split; [apply R_refl|constructor]. Qed.

Lemma keeps_get_world : keeps R P get_world.
Proof. intros stdin w. simpl. split; [apply R_refl|constructor]. Qed.

Lemma keeps_account_of phone : keeps R P (account_of phone).
Proof.
  intros stdin w. unfold account_of.
  destruct (dict_get (accounts w) phone); simpl;
    (split; [apply R_refl|constructor]).
Qed.

Lemma keeps_say m : P (Said m) -> keeps R P (say m).
Proof.
  intros HP stdin w. simpl. split; [apply R_refl|]. now repeat constructor.
Qed.

(** A change of the entry of [phone] by [f] is kept when [R] allows it at
    every account found there. *)
Lemma keeps_modify phone f :
  (forall w a, dict_get (accounts w) phone = Some a ->
               R w (with_accounts (dict_set (accounts w) phone (f a)) w)) ->
  keeps R P (modify phone f).
Proof.
  intros HR stdin w. unfold modify.
  destruct (dict_get (accounts w) phone) eqn:E; simpl.
  - split; [now apply HR|constructor].
  - split; [apply R_refl|constructor].
Qed.

(** A save is kept when [R] does not look at the disk. *)
Lemma keeps_save_data :
  (forall w df ws, R w (mkWorld (accounts w) df (now w) ws (github_enabled w))) ->
  (forall d ok, P (Saved d ok)) ->
  keeps R P AccountManager.save_data.
Proof.
  intros HR HP stdin w.
  unfold AccountManager.save_data, FileStorageManager.save_data.
  destruct (writes w) as [|[] ws]; simpl;
    (split; [apply HR|repeat constructor; apply HP]).
Qed.

Lemma keeps_sync :
  P Pushed -> keeps R P PhoneAccountSystem.sync_to_github.
Proof.
  intros HP stdin w. unfold PhoneAccountSystem.sync_to_github. simpl.
  split; [apply R_refl|]. destruct (github_enabled w); now repeat constructor.
Qed.

End Keeps.

Lemma keeps_weaken {A} (R R' : World -> World -> Prop) (P P' : Event -> Prop)
    (m : Op A) :
  (forall w w', R w w' -> R' w w') -> (forall ev, P ev -> P' ev) ->
  keeps R P m -> keeps R' P' m.
Proof.
  intros HR HP Hm stdin w. specialize (Hm stdin w).
  destruct (m stdin w); simpl in *; destruct Hm as [H1 H2]; split; auto;
    eapply Forall_impl; eauto.
Qed.

(* ================================================================== *)
(** ** What [validate_phone] accepts *)

Lemma append_empty_r (s : string) : (s ++ EmptyString)%string = s.
Proof. induction s as [|c r IH]; simpl; [reflexivity|now rewrite IH]. Qed.

Lemma match_classes_Some ks :
  forall s rest,
    SecurityManager.match_classes ks s = Some rest ->
    exists body, s = (body ++ rest)%string /\ classes_ok ks body = true.
Proof.
  induction ks as [|k ks IH]; intros s rest; simpl.
  - intros E. injection E as <-. now exists EmptyString.
  - destruct s as [|c r]; [discriminate|].
    destruct (SecurityManager.cls_match k c) eqn:Hk; [|discriminate].
    intros E. destruct (IH r rest E) as (body & -> & Hok).
    exists (String c body). simpl. now rewrite Hk, Hok.
Qed.

Lemma match_classes_append ks :
  forall body rest,
    classes_ok ks body = true ->
    SecurityManager.match_classes ks (body ++ rest)%string = Some rest.
Proof.
  induction ks as [|k ks IH]; intros body rest; simpl.
  - destruct body; [reflexivity|discriminate].
  - destruct body as [|c r]; [discriminate|]. simpl.
    destruct (SecurityManager.cls_match k c); [|discriminate].
    simpl. apply IH.
Qed.

Lemma dollar_true rest :
  SecurityManager.dollar rest = true <->
  rest = EmptyString \/ rest = Demo.newline.
Proof.
  unfold SecurityManager.dollar, Demo.newline.
  destruct rest as [|c [|c' r]]; split; intros E; auto;
    try discriminate;
    try (destruct E as [E|E]; discriminate E).
  - right. apply Ascii.eqb_eq in E. now subst c.
  - destruct E as [E|E]; [discriminate|]. injection E as ->. reflexivity.
Qed.

Lemma one_is_decimal c : Ascii.eqb "1" c = true -> Str.isdecimal c = true.
Proof. intros E. apply Ascii.eqb_eq in E. now subst c. Qed.

Lemma three_to_nine_is_decimal c :
  Str.between 51 57 c = true -> Str.isdecimal c = true.
Proof.
  unfold Str.isdecimal, Str.between. intros E.
  apply andb_prop in E. destruct E as [E1 E2].
  apply Nat.leb_le in E1. rewrite E2, andb_true_r. apply Nat.leb_le. lia.
Qed.

(** The eleven classes of the pattern describe the shape of the
    specification. *)
Lemma classes_ok_phone_shape s :
  classes_ok SecurityManager.phone_pattern s = true <-> phone_shape s = true.
Proof.
  unfold SecurityManager.phone_pattern, phone_shape.
  do 11 (destruct s as [|? s];
         [cbn -[Ascii.eqb Str.between Str.isdecimal];
          rewrite ?andb_false_r; split; discriminate|]).
  destruct s as [|? s].
  - cbn -[Ascii.eqb Str.between Str.isdecimal].
    change (Str.code "3") with 51%nat. change (Str.code "9") with 57%nat.
    rewrite !andb_true_iff.
    split; intros Hyp;
      repeat match goal with
        | Hc : _ /\ _ |- _ => destruct Hc
        end;
      repeat split; auto using one_is_decimal, three_to_nine_is_decimal.
  - cbn -[Ascii.eqb Str.between Str.isdecimal].
    rewrite ?andb_false_r. split; discriminate.
Qed.

(** [validate_phone] accepts exactly the strings of the shape the
    specification describes, and those strings followed by one newline
    (over the strings of the model, whose characters are below 256). *)
Theorem validate_phone_accepts s :
  SecurityManager.validate_phone s = true <->
  phone_shape s = true
  \/ exists s0, s = (s0 ++ Demo.newline)%string /\ phone_shape s0 = true.
Proof.
  unfold SecurityManager.validate_phone, SecurityManager.re_match. split.
  - destruct (SecurityManager.match_classes SecurityManager.phone_pattern s)
      as [rest|] eqn:E; [|discriminate].
    intros Hd. apply match_classes_Some in E. destruct E as (body & -> & Hok).
    apply classes_ok_phone_shape in Hok.
    apply dollar_true in Hd. destruct Hd as [-> | ->].
    + left. now rewrite append_empty_r.
    + right. now exists body.
  - intros [Hs|(s0 & -> & Hs)]; apply classes_ok_phone_shape in Hs.
    + rewrite <- (append_empty_r s).
      now rewrite (match_classes_append _ s EmptyString Hs).
    + now rewrite (match_classes_append _ s0 Demo.newline Hs).
Qed.

(** C8 (the code at the failing input).  [validate_phone] accepts the
    twelve-character string made of a phone number and a final newline,
    because [$] also matches before a newline that ends the string; the
    string does not have the shape the specification describes. *)
Theorem validate_phone_trailing_newline :
  SecurityManager.validate_phone (Demo.phone ++ Demo.newline)%string = true
  /\ phone_shape (Demo.phone ++ Demo.newline)%string = false
  /\ String.length (Demo.phone ++ Demo.newline)%string = 12%nat.
Proof. repeat split; reflexivity. Qed.

(* ================================================================== *)
(** ** Registration touches one entry *)

Lemma same_except_refl phone w : same_except phone w w.
Proof. now split. Qed.

Lemma same_except_trans phone w1 w2 w3 :
  same_except phone w1 w2 -> same_except phone w2 w3 -> same_except phone w1 w3.
Proof. intros [A1 B1] [A2 B2]. split; congruence. Qed.

Lemma same_store_refl w : same_store w w.
Proof. now split. Qed.

Lemma same_store_trans w1 w2 w3 :
  same_store w1 w2 -> same_store w2 w3 -> same_store w1 w3.
Proof. intros [A1 B1] [A2 B2]. split; congruence. Qed.

Lemma same_store_except phone w w' : same_store w w' -> same_except phone w w'.
Proof. intros [A B]. split; congruence. Qed.

Lemma same_except_modify phone f w a :
  dict_get (accounts w) phone = Some a ->
  same_except phone w (with_accounts (dict_set (accounts w) phone (f a)) w).
Proof. intros _. split; simpl; [reflexivity|apply dict_del_set]. Qed.

Lemma same_except_disk phone w df ws :
  same_except phone w (mkWorld (accounts w) df (now w) ws (github_enabled w)).
Proof. now split. Qed.

Lemma same_store_disk w df ws :
  same_store w (mkWorld (accounts w) df (now w) ws (github_enabled w)).
Proof. now split. Qed.

Create HintDb keeps.

#[local] Hint Resolve same_except_refl same_except_trans same_store_refl
  same_store_trans same_except_modify same_except_disk same_store_disk : keeps.

Lemma Forall_any_event l : Forall any_event l.
Proof. induction l; constructor; auto. exact I. Qed.

Ltac quiet_tac :=
  repeat first
    [ apply Forall_any_event
    | apply Forall_nil
    | apply Forall_cons
    | apply Forall_app; split
    | progress (unfold quiet; intros; discriminate)
    | exact I
    | match goal with
      | |- Forall _ (if ?c then _ else _) => destruct c
      end ].

(** A method written with [bind]: one lemma of [Keeps] per statement. *)
Ltac keeps_tac :=
  repeat match goal with
    | |- keeps _ _ (bind _ _) =>
        apply keeps_bind; [eauto with keeps| |intros ?]
    | |- keeps _ _ (ret _) => apply keeps_ret; auto with keeps
    | |- keeps _ _ (raise _) => apply keeps_raise; auto with keeps
    | |- keeps _ _ get_world => apply keeps_get_world; auto with keeps
    | |- keeps _ _ (account_of _) => apply keeps_account_of; auto with keeps
    | |- keeps _ _ (say _) => apply keeps_say; [auto with keeps|quiet_tac]
    | |- keeps _ _ PhoneAccountSystem.sync_to_github =>
        apply keeps_sync; [auto with keeps|quiet_tac]
    | |- keeps _ _ AccountManager.save_data =>
        apply keeps_save_data; [auto with keeps|intros; quiet_tac]
    | |- keeps _ _ (modify _ _) => apply keeps_modify; auto with keeps
    | |- keeps _ _ (if ?c then _ else _) => destruct c
    | |- keeps _ _ (match ?x with _ => _ end) => destruct x
    end.

(** Induction on the number of lines still to be read: a loop that reads
    two lines in one turn goes on with a console two lines shorter. *)
Lemma console_ind (Q : list string -> Prop) :
  (forall l, (forall l', (List.length l' < List.length l)%nat -> Q l') -> Q l) ->
  forall l, Q l.
Proof.
  intros step l.
  assert (G : forall n l', (List.length l' < n)%nat -> Q l').
  { induction n as [|n IH]; intros l' Hl; [lia|].
    apply step. intros l'' Hl''. apply IH. lia. }
  apply (G (S (List.length l))). lia.
Qed.

(** One step through the body of a loop: the events already produced, the
    tests, and the leaves. *)
Ltac loop_tac :=
  repeat first
    [ apply post_pre; [quiet_tac|]
    | match goal with
      | IH : forall l', (List.length l' < _)%nat -> forall w, post _ _ _
        |- post _ _ _ => apply IH; simpl; lia
      | IH : keeps ?R ?P ?m |- post (?R _) ?P (?m _ _) => apply IH
      | IH : forall w, post _ _ (?f _ w) |- post _ _ (?f _ _) => apply IH
      | IH : forall w, post _ _ (?f w) |- post _ _ (?f _) => apply IH
      | |- _ /\ Forall _ _ => split; [auto with keeps|quiet_tac]
      | |- post _ _ (Ret _ _ _ _) => simpl; split; [auto with keeps|quiet_tac]
      | |- post _ _ (Raise _ _ _) => simpl; split; [auto with keeps|quiet_tac]
      | |- post (?R ?w) ?P (bind ?m ?f ?s ?w) =>
          let K := fresh "K" in
          assert (K : keeps R P (bind m f)) by keeps_tac; apply K
      | |- post _ _ (if ?c then _ else _) => destruct c eqn:?
      | |- post _ _ (match ?x with _ => _ end) => destruct x eqn:?
      end ].

Section RegisterFacts.
Context `{Builtins}.

Lemma set_registration_bonus_keeps phone :
  keeps same_store quiet (AccountManager.set_registration_bonus phone).
Proof.
  intros stdin. induction stdin as [|line rest IH]; intros w; simpl.
  - loop_tac.
  - loop_tac.
Qed.

Lemma store_valid_days_keeps phone n :
  keeps (same_except phone) quiet (AccountManager.store_valid_days phone n).
Proof. unfold AccountManager.store_valid_days. keeps_tac. Qed.

Lemma set_valid_days_keeps phone :
  keeps (same_except phone) quiet (AccountManager.set_valid_days phone).
Proof.
  intros stdin. induction stdin as [|line rest IH]; intros w; simpl.
  - loop_tac.
  - loop_tac. apply store_valid_days_keeps.
Qed.

Lemma password_loop_keeps phone :
  keeps (same_except phone) quiet (AccountManager.password_loop phone).
Proof.
  intros stdin. induction stdin as [stdin IH] using console_ind.
  intros w. destruct stdin as [|password rest];
    cbn [AccountManager.password_loop]; loop_tac.
Qed.

Lemma question_loop_keeps :
  keeps same_store quiet AccountManager.question_loop.
Proof.
  intros stdin. induction stdin as [|line rest IH]; intros w;
    cbn [AccountManager.question_loop]; loop_tac.
Qed.

Lemma answer_loop_keeps phone q :
  keeps (same_except phone) quiet (AccountManager.answer_loop phone q).
Proof.
  intros stdin. induction stdin as [stdin IH] using console_ind.
  intros w. destruct stdin as [|line rest];
    cbn [AccountManager.answer_loop]; loop_tac.
Qed.

Lemma set_password_and_security_keeps phone :
  keeps (same_except phone) quiet
    (AccountManager.set_password_and_security phone).
Proof.
  unfold AccountManager.set_password_and_security.
  apply keeps_bind; [eauto with keeps|apply password_loop_keeps|intros stored].
  destruct (negb stored); [keeps_tac|].
  apply keeps_bind; [eauto with keeps| |intros choice].
  { eapply keeps_weaken; [| |apply question_loop_keeps]; auto.
    intros w w'. apply same_store_except. }
  destruct choice as [q|]; [|keeps_tac].
  apply keeps_bind; [eauto with keeps|apply answer_loop_keeps|intros stored'].
  destruct (negb stored'); keeps_tac.
Qed.

Lemma quiet_registered_only phone last4 ev :
  quiet ev -> registered_only phone last4 ev.
Proof. intros Q p l E. now apply Q in E. Qed.

(** What [register_account] leaves behind: the store differs from the one it
    started with at most at [phone], and is that very store when the result
    is a failure. *)
Lemma register_account_post phone last4 stdin w :
  dict_get (accounts w) phone = None ->
  match PhoneAccountSystem.register_account phone last4 stdin w with
  | Ret r _ w' out =>
      same_except phone w w'
      /\ (fst r = false -> accounts w' = accounts w)
      /\ Forall (registered_only phone last4) out
  | Raise _ w' out =>
      same_except phone w w' /\ Forall (registered_only phone last4) out
  end.
Proof.
  intros Habs.
  assert (Hq : forall l, Forall quiet l -> Forall (registered_only phone last4) l).
  { intros l. apply Forall_impl. apply quiet_registered_only. }
  assert (Hdel : dict_del (accounts w) phone = accounts w)
    by now apply dict_del_absent.
  unfold PhoneAccountSystem.register_account, bind.
  pose proof (set_registration_bonus_keeps phone stdin w) as Hb.
  destruct (AccountManager.set_registration_bonus phone stdin w)
    as [[m|bonus] s1 w1 o1|e w1 o1]; simpl in Hb; destruct Hb as [[Hn Ha] Ho];
    simpl.
  - rewrite app_nil_r. repeat split; auto; try congruence.
  - set (wc := with_accounts _ w1).
    assert (Hc : same_except phone w wc).
    { split; simpl; [exact Hn|]. rewrite dict_del_set. congruence. }
    pose proof (set_valid_days_keeps phone s1 wc) as Hv.
    destruct (AccountManager.set_valid_days phone s1 wc)
      as [[okv mv] s2 w2 o2|e w2 o2]; simpl in Hv; destruct Hv as [Hv Ho2].
    2:{ simpl. split; [eapply same_except_trans; eauto|].
        apply Forall_app. split; [auto|]. constructor; [|auto].
        intros p l E. now injection E as <- <-. }
    assert (H2 : same_except phone w w2) by (eapply same_except_trans; eauto).
    assert (Hev : Forall (registered_only phone last4)
                    (o1 ++ Said (MsgRegistered phone last4) :: o2)).
    { apply Forall_app. split; [auto|]. constructor; [|auto].
      intros p l E. now injection E as <- <-. }
    destruct okv; simpl.
    + pose proof (set_password_and_security_keeps phone s2 w2) as Hs.
      destruct (AccountManager.set_password_and_security phone s2 w2)
        as [[oks ms] s3 w3 o3|e w3 o3]; simpl in Hs; destruct Hs as [Hs Ho3].
      2:{ simpl. split; [eapply same_except_trans; eauto|].
          rewrite app_comm_cons, app_assoc. apply Forall_app. split; auto. }
      assert (H3 : same_except phone w w3) by (eapply same_except_trans; eauto).
      destruct oks; simpl.
      * repeat split; try apply H3; try discriminate.
        rewrite app_comm_cons, app_assoc. apply Forall_app. split; auto.
        apply Forall_app. split; [auto|].
        destruct (github_enabled w3); repeat constructor; discriminate.
      * unfold PhoneAccountSystem.delete_account.
        destruct (dict_mem (accounts w3) phone); simpl.
        -- destruct H3 as [H3n H3d]. rewrite Hdel in H3d.
           repeat split; simpl; auto.
           ++ rewrite H3d. now rewrite Hdel.
           ++ rewrite app_comm_cons, app_assoc. apply Forall_app. split; auto.
              rewrite app_nil_r. auto.
        -- split; [exact H3|].
           rewrite app_comm_cons, app_assoc. apply Forall_app. split; auto.
           rewrite app_nil_r. auto.
    + unfold PhoneAccountSystem.delete_account.
      destruct (dict_mem (accounts w2) phone); simpl.
      * destruct H2 as [H2n H2d]. rewrite Hdel in H2d.
        repeat split; simpl; auto.
        -- rewrite H2d. now rewrite Hdel.
        -- rewrite app_nil_r. auto.
      * split; [exact H2|]. rewrite app_nil_r. auto.
  - split; [now apply same_store_except|auto].
Qed.

Lemma register_post_pre w out0 o :
  Forall (fresh w) out0 -> register_post w o -> register_post w (pre out0 o).
Proof.
  intros H0. destruct o; simpl.
  - intros (A & B & C). repeat split; try apply B; auto.
    apply Forall_app. now split.
  - intros (B & C). repeat split; try apply B; auto.
    apply Forall_app. now split.
Qed.

Lemma same_except_frame phone w w' :
  dict_get (accounts w) phone = None -> same_except phone w w' -> frame w w'.
Proof.
  intros Habs [Hn Hd]. split; [exact Hn|]. intros k info Hk.
  assert (N : k <> phone) by congruence.
  now rewrite (dict_del_eq_get _ _ phone k Hd N).
Qed.

Lemma frame_refl w : frame w w.
Proof. now split. Qed.

Lemma fresh_quiet w l : Forall quiet l -> Forall (fresh w) l.
Proof. apply Forall_impl. intros ev Hq p l0 E. now apply Hq in E. Qed.

Lemma register_phone_post stdin :
  forall w, register_post w (PhoneAccountSystem.register_phone stdin w).
Proof.
  induction stdin as [|line rest IH]; intros w;
    cbn [PhoneAccountSystem.register_phone].
  - simpl. split; [apply frame_refl|apply fresh_quiet; quiet_tac].
  - apply register_post_pre; [apply fresh_quiet; quiet_tac|].
    cbv zeta.
    destruct (NavigationManager.handle_back_choice (Str.strip line)).
    { simpl. split; [auto|split; [apply frame_refl|constructor]]. }
    destruct (negb (SecurityManager.validate_phone (Str.strip line))).
    { apply register_post_pre; [apply fresh_quiet; quiet_tac|apply IH]. }
    destruct (dict_mem (accounts w) (Str.strip line)) eqn:Hmem.
    { apply register_post_pre; [apply fresh_quiet; quiet_tac|apply IH]. }
    destruct (PhoneAccountSystem.tail_conflict (Str.suffix 4 (Str.strip line))
                (accounts w)) eqn:Htail.
    { apply register_post_pre; [apply fresh_quiet; quiet_tac|apply IH]. }
    apply dict_mem_false in Hmem.
    pose proof (register_account_post (Str.strip line)
                  (Str.suffix 4 (Str.strip line)) rest w Hmem) as Hp.
    assert (F : forall l, Forall (registered_only (Str.strip line)
                                    (Str.suffix 4 (Str.strip line))) l ->
                          Forall (fresh w) l).
    { intros l. apply Forall_impl. intros ev Hev p l0 E.
      destruct (Hev p l0 E) as [-> ->]. auto. }
    destruct (PhoneAccountSystem.register_account _ _ rest w); simpl.
    + destruct Hp as (A & B & C).
      split; [exact B|split; [eapply same_except_frame; eauto|auto]].
    + destruct Hp as (A & C).
      split; [eapply same_except_frame; eauto|auto].
Qed.

End RegisterFacts.

(** A registration that returns [(False, message)] leaves the store exactly
    as it found it.  In particular, whenever the provisional account of a
    phone was created during it (the print "登记成功" of that phone is among
    the events), the phone is not in the store afterwards and no account
    holds its last four digits, so that a later registration of a phone with
    these last four digits passes the duplicate checks and goes on to
    [register_account].  This is the rollback that the two [del] statements
    make; a step that raises instead of returning passes them by. *)
Theorem register_phone_rollback `{Builtins} stdin w message rest w' out :
  PhoneAccountSystem.register_phone stdin w = Ret (false, message) rest w' out ->
  accounts w' = accounts w
  /\ forall phone last4, In (Said (MsgRegistered phone last4)) out ->
       last4 = Str.suffix 4 phone
       /\ dict_get (accounts w') phone = None
       /\ PhoneAccountSystem.tail_conflict last4 (accounts w') = None
       /\ forall line stdin2,
            NavigationManager.handle_back_choice (Str.strip line) = false ->
            SecurityManager.validate_phone (Str.strip line) = true ->
            dict_mem (accounts w') (Str.strip line) = false ->
            Str.suffix 4 (Str.strip line) = last4 ->
            PhoneAccountSystem.register_phone (line :: stdin2) w'
            = pre [Asked AskPhone]
                (PhoneAccountSystem.register_account (Str.strip line) last4
                   stdin2 w').
Proof.
  intros E. pose proof (register_phone_post stdin w) as Hp.
  rewrite E in Hp. simpl in Hp. destruct Hp as (A & _ & C).
  specialize (A eq_refl). split; [exact A|].
  intros phone last4 Hin. rewrite Forall_forall in C.
  destruct (C _ Hin phone last4 eq_refl) as (C1 & C2 & C3).
  rewrite <- A in C2, C3. repeat split; auto.
  intros line stdin2 Hback Hvalid Hmem Hsuf.
  cbn [PhoneAccountSystem.register_phone]. cbv zeta.
  rewrite Hback, Hvalid, Hmem, Hsuf, C3. reflexivity.
Qed.

Lemma register_phone_rollback_witness :
  accounts (final_world Demo.register_cancelled) = []
  /\ In (Said (MsgRegistered Demo.phone "1234"))
       (events_of Demo.register_cancelled)
  /\ dict_get (accounts (final_world Demo.register_cancelled)) Demo.phone
     = None.
Proof.
  assert (E : @PhoneAccountSystem.register_phone Demo.builtins
                Demo.register_cancelled_stdin Demo.empty_world
              = Ret (false, MsgSecurityCancelled) []
                  (final_world Demo.register_cancelled)
                  (events_of Demo.register_cancelled))
    by (vm_compute; reflexivity).
  destruct (register_phone_rollback _ _ _ _ _ _ E) as [A B].
  assert (I : In (Said (MsgRegistered Demo.phone "1234"))
                (events_of Demo.register_cancelled))
    by (vm_compute; repeat (try (left; reflexivity); right)).
  split; [exact A|]. split; [exact I|]. apply (B _ _ I).
Defined.

(** C4.  The validity-period step can fail without returning: at the
    console lines "13800001234", "" and "9999999999" on an empty store,
    [timedelta(days=9999999999)] raises [OverflowError] inside
    [set_valid_days], after the provisional account was created (its print
    "登记成功" is among the events).  [set_valid_days] catches [ValueError]
    only and [register_phone] has no handler, so both [del] statements are
    passed by: the phone is still in the store and its last four digits are
    still taken, and the next registration of a phone that ends in 1234 is
    turned down with the message that names the abandoned phone. *)
Theorem register_phone_overflow_not_rolled_back :
  Demo.register_overflow
  = Raise OverflowError (final_world Demo.register_overflow)
      (events_of Demo.register_overflow)
  /\ In (Said (MsgRegistered Demo.phone "1234"))
       (events_of Demo.register_overflow)
  /\ dict_mem (accounts (final_world Demo.register_overflow)) Demo.phone
     = true
  /\ PhoneAccountSystem.tail_conflict "1234"
       (accounts (final_world Demo.register_overflow))
     = Some Demo.phone
  /\ Demo.register_after_overflow
     = Ret (false, MsgRegisterCancelled) []
         (final_world Demo.register_overflow)
         [Asked AskPhone; Said (MsgTailConflict "1234" Demo.phone);
          Asked AskPhone].
Proof.
  split; [vm_compute; reflexivity|].
  split; [vm_compute; repeat (try (left; reflexivity); right)|].
  repeat split; vm_compute; reflexivity.
Qed.

(** A registration whose validity period cannot be added to the clock
    raises [OverflowError] out of [set_valid_days], past the two [del]
    statements: the provisional account is then still in the store in
    memory, with its validity period half set, and nothing was written. *)
Theorem register_phone_overflow :
  Demo.register_overflow
  = Raise OverflowError (final_world Demo.register_overflow)
      (events_of Demo.register_overflow)
  /\ dict_get (accounts (final_world Demo.register_overflow)) Demo.phone
     = Some (set_created_at (Some Demo.t0)
               (set_valid_days_field (Some 9999999999)
                  (PhoneAccountSystem.new_account 50 "1234")))
  /\ data_file (final_world Demo.register_overflow) = None
  /\ asked AskNewPassword (events_of Demo.register_overflow) = 0%nat.
Proof. repeat split; vm_compute; reflexivity. Qed.

(* ================================================================== *)
(** ** Authentication *)

Section Authentication.
Context `{Builtins}.

Lemma authenticate_with_password_standing phone info stdin w :
  dict_get (accounts w) phone = Some info ->
  in_good_standing w info ->
  AccountManager.authenticate_with_password phone stdin w
  = AccountManager.password_attempts Config.MAX_AUTH_ATTEMPTS (password info)
      stdin w.
Proof.
  intros Hget [Hst (e & He & Hexp)].
  unfold AccountManager.authenticate_with_password,
    AccountManager.check_account_status, bind, account_of, get_world, ret.
  rewrite Hget. cbn. rewrite Hst, He. cbn. rewrite Hexp.
  cbn -[AccountManager.password_attempts].
  rewrite Hget. cbn -[AccountManager.password_attempts].
  now rewrite !pre_nil.
Qed.

Lemma authenticate_with_security_question_eq phone info stdin w :
  dict_get (accounts w) phone = Some info ->
  AccountManager.authenticate_with_security_question phone stdin w
  = pre [Said (MsgSecurityQuestion (security_question info))]
      (AccountManager.answer_attempts Config.MAX_AUTH_ATTEMPTS
         (security_answer info) stdin w).
Proof.
  intros Hget.
  unfold AccountManager.authenticate_with_security_question, bind, account_of,
    say.
  rewrite Hget. cbn -[AccountManager.answer_attempts].
  now rewrite pre_nil.
Qed.

Lemma password_attempts_exhausted info p1 p2 p3 rest w :
  wrong_password info p1 -> wrong_password info p2 -> wrong_password info p3 ->
  AccountManager.password_attempts 3 (password info) (p1 :: p2 :: p3 :: rest) w
  = Ret (false, MsgPasswordExhausted) rest w three_wrong_passwords.
Proof.
  intros [B1 V1] [B2 V2] [B3 V3]. cbn.
  now rewrite B1, V1, B2, V2, B3, V3.
Qed.

Lemma password_attempts_right info wrongs p rest w :
  (List.length wrongs < 3)%nat -> Forall (wrong_password info) wrongs ->
  right_password info p ->
  exists out,
    AccountManager.password_attempts 3 (password info) (wrongs ++ p :: rest) w
    = Ret (true, MsgAuthOk) rest w out
    /\ asked AskPassword out = S (List.length wrongs).
Proof.
  intros Hlen Hw [Bp Vp].
  destruct wrongs as [|a [|b [|c t]]]; simpl in Hlen; try lia; cbn;
    repeat match goal with
      | Hf : Forall _ (_ :: _) |- _ =>
          inversion Hf as [|? ? [? ?] ?]; subst; clear Hf
      end;
    repeat match goal with
      | E : _ = _ |- _ => rewrite E
      end;
    cbn; eexists; (split; [reflexivity|reflexivity]).
Qed.

Lemma answer_attempts_exhausted info l1 l2 l3 rest w :
  wrong_answer info l1 -> wrong_answer info l2 -> wrong_answer info l3 ->
  AccountManager.answer_attempts 3 (security_answer info)
    (l1 :: l2 :: l3 :: rest) w
  = Ret (false, MsgAnswerExhausted) rest w (tl (three_wrong_answers info)).
Proof.
  intros [B1 V1] [B2 V2] [B3 V3]. cbn.
  now rewrite B1, V1, B2, V2, B3, V3.
Qed.

Lemma answer_attempts_right info wrongs l rest w :
  (List.length wrongs < 3)%nat -> Forall (wrong_answer info) wrongs ->
  right_answer info l ->
  exists out,
    AccountManager.answer_attempts 3 (security_answer info)
      (wrongs ++ l :: rest) w
    = Ret (true, MsgAuthOk) rest w out
    /\ asked AskAnswer out = S (List.length wrongs).
Proof.
  intros Hlen Hw [Bp Vp].
  destruct wrongs as [|a [|b [|c t]]]; simpl in Hlen; try lia; cbn;
    repeat match goal with
      | Hf : Forall _ (_ :: _) |- _ =>
          inversion Hf as [|? ? [? ?] ?]; subst; clear Hf
      end;
    repeat match goal with
      | E : _ = _ |- _ => rewrite E
      end;
    cbn; eexists; (split; [reflexivity|reflexivity]).
Qed.

End Authentication.

(** C5.  Both authentications stop after three wrong credentials: the
    result is the failure "错误次数过多", exactly three lines were read and
    three prompts shown, and the lines after the third are left unread.  A
    right credential typed after fewer than three wrong ones succeeds.
    Password authentication is taken on an account in good standing, since
    it checks the status first; a credential is a line other than the
    sentinel "0". *)
Theorem authentication_stops_after_three `{Builtins} phone info rest w :
  dict_get (accounts w) phone = Some info ->
  (in_good_standing w info ->
   (forall p1 p2 p3,
      wrong_password info p1 -> wrong_password info p2 ->
      wrong_password info p3 ->
      AccountManager.authenticate_with_password phone
        (p1 :: p2 :: p3 :: rest) w
      = Ret (false, MsgPasswordExhausted) rest w three_wrong_passwords)
   /\ (forall wrongs p,
         (List.length wrongs < 3)%nat ->
         Forall (wrong_password info) wrongs -> right_password info p ->
         exists out,
           AccountManager.authenticate_with_password phone
             (wrongs ++ p :: rest) w
           = Ret (true, MsgAuthOk) rest w out
           /\ asked AskPassword out = S (List.length wrongs)))
  /\ (forall l1 l2 l3,
        wrong_answer info l1 -> wrong_answer info l2 -> wrong_answer info l3 ->
        AccountManager.authenticate_with_security_question phone
          (l1 :: l2 :: l3 :: rest) w
        = Ret (false, MsgAnswerExhausted) rest w (three_wrong_answers info))
  /\ (forall wrongs l,
        (List.length wrongs < 3)%nat ->
        Forall (wrong_answer info) wrongs -> right_answer info l ->
        exists out,
          AccountManager.authenticate_with_security_question phone
            (wrongs ++ l :: rest) w
          = Ret (true, MsgAuthOk) rest w out
          /\ asked AskAnswer out = S (List.length wrongs)).
Proof.
  intros Hget. split; [|split].
  - intros Hgood. split.
    + intros p1 p2 p3 W1 W2 W3.
      rewrite (@authenticate_with_password_standing _ phone info _ w Hget Hgood).
      now apply password_attempts_exhausted.
    + intros wrongs p Hlen Hw Hr.
      rewrite (@authenticate_with_password_standing _ phone info _ w Hget Hgood).
      now apply password_attempts_right.
  - intros l1 l2 l3 W1 W2 W3.
    rewrite (@authenticate_with_security_question_eq _ phone info _ w Hget).
    change Config.MAX_AUTH_ATTEMPTS with 3%nat.
    now rewrite (@answer_attempts_exhausted _ info l1 l2 l3 rest w W1 W2 W3).
  - intros wrongs l Hlen Hw Hr.
    rewrite (@authenticate_with_security_question_eq _ phone info _ w Hget).
    change Config.MAX_AUTH_ATTEMPTS with 3%nat.
    destruct (@answer_attempts_right _ info wrongs l rest w Hlen Hw Hr)
      as (out & E & Hc).
    rewrite E. simpl. eexists. split; [reflexivity|exact Hc].
Qed.

Lemma authentication_stops_after_three_witness :
  @AccountManager.authenticate_with_password Demo.builtins Demo.phone
    ["0000"; "1111"; "2222"; Demo.pin] Demo.world50
  = Ret (false, MsgPasswordExhausted) [Demo.pin] Demo.world50
      three_wrong_passwords
  /\ returned
       (@AccountManager.authenticate_with_password Demo.builtins Demo.phone
          ["0000"; "1111"; Demo.pin] Demo.world50)
     = Some (true, MsgAuthOk)
  /\ @AccountManager.authenticate_with_security_question Demo.builtins
       Demo.phone ["red"; "green"; "black"; Demo.pin] Demo.world50
     = Ret (false, MsgAnswerExhausted) [Demo.pin] Demo.world50
         (three_wrong_answers Demo.account50).
Proof.
  assert (Hget : dict_get (accounts Demo.world50) Demo.phone
                 = Some Demo.account50) by reflexivity.
  assert (Hgood : in_good_standing Demo.world50 Demo.account50).
  { split; [reflexivity|]. eexists. split; reflexivity. }
  destruct (@authentication_stops_after_three Demo.builtins Demo.phone
              Demo.account50 [Demo.pin] Demo.world50 Hget) as (P & A & _).
  destruct (P Hgood) as [P1 _].
  destruct (@authentication_stops_after_three Demo.builtins Demo.phone
              Demo.account50 [] Demo.world50 Hget) as (P' & _ & _).
  destruct (P' Hgood) as [_ P2].
  split; [|split].
  - apply P1; split; reflexivity.
  - destruct (P2 ["0000"; "1111"] Demo.pin) as (out & E & _).
    + simpl. lia.
    + repeat constructor.
    + split; reflexivity.
    + simpl in E. rewrite E. reflexivity.
  - apply A; split; reflexivity.
Defined.

(* ================================================================== *)
(** ** Recharge and deduction *)

Section Mutations.
Context `{Builtins}.

Lemma set_balance_back t x info :
  set_balance (balance info) (touched t x info)
  = set_last_modified (Some t) info.
Proof. now destruct info. Qed.

Ltac run_mutation Hget :=
  unfold bind, account_of, modify, get_world, ret,
    AccountManager.save_data, FileStorageManager.save_data,
    PhoneAccountSystem.sync_to_github;
  cbn;
  repeat (first [rewrite Hget|rewrite dict_get_set_same|rewrite dict_set_set];
          cbn).

Lemma apply_deduct_saved phone info amount stdin w :
  dict_get (accounts w) phone = Some info ->
  next_write_ok w = true ->
  let d := dict_set (accounts w) phone
             (touched (now w) (balance info - amount)%float info) in
  PhoneAccountSystem.apply_deduct phone amount stdin w
  = Ret (true, MsgDeducted phone (balance info - amount)%float) stdin
      (saved_world d w) (Saved d true :: pushed w).
Proof.
  intros Hget Hok d. unfold PhoneAccountSystem.apply_deduct.
  run_mutation Hget. unfold next_write_ok in Hok.
  destruct (writes w) as [|[] ws] eqn:Hw; try discriminate; cbn;
    repeat (first [rewrite Hget|rewrite dict_get_set_same
                  |rewrite dict_set_set]; cbn);
    unfold saved_world, pushed; rewrite Hw; cbn;
    destruct (github_enabled w); reflexivity.
Qed.

Lemma apply_deduct_unsaved phone info amount stdin w :
  dict_get (accounts w) phone = Some info ->
  next_write_ok w = false ->
  PhoneAccountSystem.apply_deduct phone amount stdin w
  = Ret (false, MsgDeductFailed) stdin
      (unsaved_world
         (dict_set (accounts w) phone (set_last_modified (Some (now w)) info))
         w)
      [Saved (dict_set (accounts w) phone
                (touched (now w) (balance info - amount)%float info)) false].
Proof.
  intros Hget Hok. unfold PhoneAccountSystem.apply_deduct.
  run_mutation Hget. unfold next_write_ok in Hok.
  destruct (writes w) as [|[] ws] eqn:Hw; try discriminate; cbn;
    repeat (first [rewrite Hget|rewrite dict_get_set_same
                  |rewrite dict_set_set]; cbn).
  unfold unsaved_world. rewrite Hw. cbn.
  change (set_last_modified (Some (now w))
            (set_balance (balance info - amount)%float info))
    with (touched (now w) (balance info - amount)%float info).
  now rewrite set_balance_back.
Qed.

Lemma apply_recharge_saved phone info amount stdin w :
  dict_get (accounts w) phone = Some info ->
  next_write_ok w = true ->
  let d := dict_set (accounts w) phone
             (touched (now w) (balance info + amount)%float info) in
  PhoneAccountSystem.apply_recharge phone amount stdin w
  = Ret (true, MsgRecharged phone (balance info + amount)%float) stdin
      (saved_world d w) (Saved d true :: pushed w).
Proof.
  intros Hget Hok d. unfold PhoneAccountSystem.apply_recharge.
  run_mutation Hget. unfold next_write_ok in Hok.
  destruct (writes w) as [|[] ws] eqn:Hw; try discriminate; cbn;
    repeat (first [rewrite Hget|rewrite dict_get_set_same
                  |rewrite dict_set_set]; cbn);
    unfold saved_world, pushed; rewrite Hw; cbn;
    destruct (github_enabled w); reflexivity.
Qed.

Lemma apply_recharge_unsaved phone info amount stdin w :
  dict_get (accounts w) phone = Some info ->
  next_write_ok w = false ->
  PhoneAccountSystem.apply_recharge phone amount stdin w
  = Ret (false, MsgRechargeFailed) stdin
      (unsaved_world
         (dict_set (accounts w) phone (set_last_modified (Some (now w)) info))
         w)
      [Saved (dict_set (accounts w) phone
                (touched (now w) (balance info + amount)%float info)) false].
Proof.
  intros Hget Hok. unfold PhoneAccountSystem.apply_recharge.
  run_mutation Hget. unfold next_write_ok in Hok.
  destruct (writes w) as [|[] ws] eqn:Hw; try discriminate; cbn;
    repeat (first [rewrite Hget|rewrite dict_get_set_same
                  |rewrite dict_set_set]; cbn).
  unfold unsaved_world. rewrite Hw. cbn.
  change (set_last_modified (Some (now w))
            (set_balance (balance info + amount)%float info))
    with (touched (now w) (balance info + amount)%float info).
  now rewrite set_balance_back.
Qed.

Lemma password_attempts_first info p stdin w :
  right_password info p ->
  AccountManager.password_attempts 3 (password info) (p :: stdin) w
  = Ret (true, MsgAuthOk) stdin w [Asked AskPassword; Said MsgAuthOk].
Proof. intros [B V]. cbn. now rewrite B, V. Qed.

(** A recharge by an authenticated operator who types a positive amount
    reaches the mutation. *)
Lemma recharge_reaches phone info idl pwl al amount rest w :
  dict_get (accounts w) phone = Some info ->
  identifies w idl phone -> in_good_standing w info ->
  right_password info pwl -> types_amount al amount ->
  (amount <=? 0)%float = false ->
  PhoneAccountSystem.recharge (idl :: pwl :: al :: rest) w
  = pre (authenticated AskRechargeAmount)
      (PhoneAccountSystem.apply_recharge phone amount rest w).
Proof.
  intros Hget [Bi Fi] Hgood Hp [Ba Fa] Hpos.
  cbn [PhoneAccountSystem.recharge]. cbv zeta. rewrite Bi, Fi.
  unfold bind at 1.
  rewrite (@authenticate_with_password_standing _ phone info _ w Hget Hgood).
  change Config.MAX_AUTH_ATTEMPTS with 3%nat.
  rewrite (password_attempts_first info pwl _ w Hp).
  cbn [fst snd negb]. cbn [PhoneAccountSystem.recharge_amount]. cbv zeta.
  rewrite Ba, Fa, Hpos. now rewrite !pre_pre.
Qed.

(** The same for a deduction, up to the comparison with the balance. *)
Lemma deduct_reaches phone info idl pwl al rest w :
  dict_get (accounts w) phone = Some info ->
  identifies w idl phone -> in_good_standing w info ->
  right_password info pwl ->
  PhoneAccountSystem.deduct (idl :: pwl :: al :: rest) w
  = pre [Asked AskIdentifier; Asked AskPassword; Said MsgAuthOk]
      (PhoneAccountSystem.deduct_amount phone (al :: rest) w).
Proof.
  intros Hget [Bi Fi] Hgood Hp.
  cbn [PhoneAccountSystem.deduct]. cbv zeta. rewrite Bi, Fi.
  unfold bind at 1.
  rewrite (@authenticate_with_password_standing _ phone info _ w Hget Hgood).
  change Config.MAX_AUTH_ATTEMPTS with 3%nat.
  rewrite (password_attempts_first info pwl _ w Hp).
  cbn [fst snd negb]. now rewrite !pre_pre.
Qed.

Lemma deduct_amount_accepts phone info al amount rest w :
  dict_get (accounts w) phone = Some info ->
  types_amount al amount ->
  (amount <=? 0)%float = false ->
  (balance info <? amount)%float = false ->
  PhoneAccountSystem.deduct_amount phone (al :: rest) w
  = pre [Asked AskDeductAmount]
      (PhoneAccountSystem.apply_deduct phone amount rest w).
Proof.
  intros Hget [Ba Fa] Hpos Hle.
  cbn [PhoneAccountSystem.deduct_amount]. cbv zeta.
  now rewrite Ba, Fa, Hpos, Hget, Hle.
Qed.


End Mutations.



(** A recharge or a deduction whose save fails returns failure and puts
    the balance back; of the two assignments of the mutation, the one to
    [last_modified] stays. *)
Theorem failed_save_restores_balance `{Builtins} phone info idl pwl al amount
    rest w :
  dict_get (accounts w) phone = Some info ->
  identifies w idl phone -> in_good_standing w info ->
  right_password info pwl -> types_amount al amount ->
  (amount <=? 0)%float = false ->
  next_write_ok w = false ->
  let d := dict_set (accounts w) phone
             (set_last_modified (Some (now w)) info) in
  PhoneAccountSystem.recharge (idl :: pwl :: al :: rest) w
  = Ret (false, MsgRechargeFailed) rest (unsaved_world d w)
      (authenticated AskRechargeAmount
       ++ [Saved (dict_set (accounts w) phone
                    (touched (now w) (balance info + amount)%float info))
             false])
  /\ ((balance info <? amount)%float = false ->
      PhoneAccountSystem.deduct (idl :: pwl :: al :: rest) w
      = Ret (false, MsgDeductFailed) rest (unsaved_world d w)
          (authenticated AskDeductAmount
           ++ [Saved (dict_set (accounts w) phone
                        (touched (now w) (balance info - amount)%float info))
                 false]))
  /\ dict_get (accounts (unsaved_world d w)) phone
     = Some (set_last_modified (Some (now w)) info)
  /\ balance_at phone (unsaved_world d w) = Some (balance info).
Proof.
  intros Hget Hid Hgood Hpw Hty Hpos Hok d. split; [|split; [|split]].
  - rewrite recharge_reaches with (phone := phone) (info := info)
                                  (amount := amount); auto.
    rewrite apply_recharge_unsaved with (info := info); auto.
  - intros Hle.
    rewrite deduct_reaches with (phone := phone) (info := info); auto.
    rewrite deduct_amount_accepts with (info := info) (amount := amount);
      auto.
    rewrite apply_deduct_unsaved with (info := info); auto.
  - simpl. apply dict_get_set_same.
  - unfold balance_at, d. simpl. now rewrite dict_get_set_same.
Qed.

Lemma failed_save_restores_balance_witness :
  returned Demo.recharge_unsaved = Some (false, MsgRechargeFailed)
  /\ balance_at Demo.phone (final_world Demo.recharge_unsaved) = Some 50%float.
Proof.
  assert (Hget : dict_get (accounts Demo.unsaved_world50) Demo.phone
                 = Some (Demo.registered 50 Demo.t0)) by reflexivity.
  assert (Hgood : in_good_standing Demo.unsaved_world50
                    (Demo.registered 50 Demo.t0)).
  { split; [reflexivity|]. eexists. split; reflexivity. }
  assert (Hid : identifies Demo.unsaved_world50 Demo.phone Demo.phone)
    by (split; reflexivity).
  assert (Hpw : @right_password Demo.builtins (Demo.registered 50 Demo.t0)
                  Demo.pin) by (split; reflexivity).
  assert (Hty : @types_amount Demo.builtins "10" 10) by (split; reflexivity).
  destruct (@failed_save_restores_balance Demo.builtins Demo.phone
              (Demo.registered 50 Demo.t0) Demo.phone Demo.pin "10" 10 []
              Demo.unsaved_world50 Hget Hid Hgood Hpw Hty eq_refl eq_refl)
    as (R & _ & _ & B).
  unfold Demo.recharge_unsaved, Demo.recharge. rewrite R.
  split; [reflexivity|exact B].
Defined.

(** C2 (the code at the failing input).  A recharge, and a deduction, whose
    save fails report failure and put the balance back, but leave
    [last_modified] at the time of the attempt: the account is not the one
    the operation started from. *)
Theorem unsaved_mutation_keeps_last_modified :
  returned Demo.recharge_unsaved = Some (false, MsgRechargeFailed)
  /\ returned Demo.deduct_unsaved = Some (false, MsgDeductFailed)
  /\ accounts (final_world Demo.recharge_unsaved)
     = [(Demo.phone,
         set_last_modified (Some Demo.one_day_later)
           (Demo.registered 50 Demo.t0))]
  /\ accounts (final_world Demo.deduct_unsaved)
     = [(Demo.phone,
         set_last_modified (Some Demo.one_day_later)
           (Demo.registered 50 Demo.t0))]
  /\ set_last_modified (Some Demo.one_day_later) (Demo.registered 50 Demo.t0)
     <> Demo.registered 50 Demo.t0.
Proof.
  repeat split; try (vm_compute; reflexivity).
  intro E. apply (f_equal last_modified) in E. vm_compute in E. discriminate E.
Qed.

(** ** Looking an account up after a change of one of its fields *)

Lemma dict_mem_set (d : dict) k k' v :
  dict_mem d k = true -> dict_mem (dict_set d k v) k' = dict_mem d k'.
Proof.
  unfold dict_mem. intros Hk.
  destruct (String.eqb k' k) eqn:E.
  - apply String.eqb_eq in E. subst k'. rewrite dict_get_set_same.
    now destruct (dict_get d k).
  - apply String.eqb_neq in E. now rewrite dict_get_set_other.
Qed.

Lemma find_by_tail_set (d : dict) k v v0 identifier :
  dict_get d k = Some v0 -> last_four v = last_four v0 ->
  PhoneAccountSystem.find_by_tail identifier (dict_set d k v)
  = PhoneAccountSystem.find_by_tail identifier d.
Proof.
  intros Hget Hl. induction d as [|[k1 v1] r IH]; simpl in *; [discriminate|].
  destruct (String.eqb k1 k) eqn:E; simpl.
  - apply String.eqb_eq in E. subst k1. injection Hget as ->.
    now rewrite Hl.
  - now rewrite IH.
Qed.

Lemma find_account_set (d : dict) k v v0 identifier :
  dict_get d k = Some v0 -> last_four v = last_four v0 ->
  PhoneAccountSystem.find_account identifier (dict_set d k v)
  = PhoneAccountSystem.find_account identifier d.
Proof.
  intros Hget Hl. unfold PhoneAccountSystem.find_account.
  rewrite dict_mem_set by (unfold dict_mem; now rewrite Hget).
  now rewrite (find_by_tail_set d k v v0 identifier Hget Hl).
Qed.

Lemma identifies_touched w line phone info t x :
  dict_get (accounts w) phone = Some info ->
  identifies w line phone ->
  identifies (saved_world (dict_set (accounts w) phone (touched t x info)) w)
    line phone.
Proof.
  intros Hget [B F]. split; [exact B|]. simpl.
  now rewrite (find_account_set _ _ _ info _ Hget
               (eq_refl : last_four (touched t x info) = last_four info)).
Qed.

(** C6 (the claim at a concrete input).  On a balance of 0.1, a recharge of
    0.2 and then a deduction of 0.2 both succeed and leave the balance at
    0.10000000000000003, which is not the balance the account started
    with. *)
Theorem recharge_then_deduct_not_exact :
  returned Demo.recharged
  = Some (true, MsgRecharged Demo.phone 0x1.3333333333334p-2%float)
  /\ returned Demo.recharged_deducted
     = Some (true, MsgDeducted Demo.phone 0x1.999999999999cp-4%float)
  /\ balance_at Demo.phone (final_world Demo.recharged_deducted)
     = Some 0x1.999999999999cp-4%float
  /\ (0x1.999999999999cp-4 =? 0x1.999999999999ap-4)%float = false.
Proof. repeat split; vm_compute; reflexivity. Qed.

(** C6 (amended).  A recharge of [amount] that succeeds, followed by a
    deduction of the same [amount] that succeeds, leaves the account with
    the balance [(balance + amount) - amount] of binary64 arithmetic and
    with [last_modified] at the time of the deduction; every other field
    is as it was.  Whenever the sum [balance + amount] was exact (the two
    numbers and their float sum are finite, and nothing was rounded off),
    this balance compares equal to the original one; when the sum was
    rounded it need not, as on 0.1 and 0.2. *)
Theorem recharge_then_deduct `{Builtins} phone info amount w
    idl pwl al rest idl' pwl' al' rest' :
  dict_get (accounts w) phone = Some info ->
  in_good_standing w info ->
  identifies w idl phone -> right_password info pwl ->
  types_amount al amount ->
  identifies w idl' phone -> right_password info pwl' ->
  types_amount al' amount ->
  (amount <=? 0)%float = false ->
  (balance info + amount <? amount)%float = false ->
  let b1 := (balance info + amount)%float in
  let b2 := (b1 - amount)%float in
  let w1 := saved_world
              (dict_set (accounts w) phone (touched (now w) b1 info)) w in
  let w2 := saved_world
              (dict_set (accounts w) phone (touched (now w) b2 info)) w1 in
  next_write_ok w = true -> next_write_ok w1 = true ->
  PhoneAccountSystem.recharge (idl :: pwl :: al :: rest) w
  = Ret (true, MsgRecharged phone b1) rest w1
      (authenticated AskRechargeAmount
       ++ Saved (accounts w1) true :: pushed w)
  /\ PhoneAccountSystem.deduct (idl' :: pwl' :: al' :: rest') w1
     = Ret (true, MsgDeducted phone b2) rest' w2
         (authenticated AskDeductAmount
          ++ Saved (accounts w2) true :: pushed w)
  /\ dict_get (accounts w2) phone = Some (touched (now w) b2 info)
  /\ (exact_sum (balance info) amount ->
      (b2 =? balance info)%float = true).
Proof.
  intros Hget Hgood Hid Hpw Hal Hid' Hpw' Hal' Hpos Hle b1 b2 w1 w2 Hok Hok1.
  assert (Hget1 : dict_get (accounts w1) phone = Some (touched (now w) b1 info))
    by (simpl; apply dict_get_set_same).
  split; [|split; [|split]]; [| | |apply float_add_sub_exact].
  - rewrite recharge_reaches with (phone := phone) (info := info)
                                  (amount := amount); auto.
    rewrite apply_recharge_saved with (info := info); auto.
  - rewrite deduct_reaches with (phone := phone)
                                (info := touched (now w) b1 info); auto.
    + rewrite deduct_amount_accepts
        with (info := touched (now w) b1 info) (amount := amount); auto.
      rewrite apply_deduct_saved with (info := touched (now w) b1 info); auto.
      simpl. unfold w2, saved_world. simpl. rewrite dict_set_set.
      unfold touched, pushed. simpl. reflexivity.
    + now apply identifies_touched.
  - simpl. apply dict_get_set_same.
Qed.

Lemma recharge_then_deduct_witness :
  exact_sum (balance Demo.account50) 25.5
  /\ exists b,
       balance_at Demo.phone
         (final_world
            (Demo.deduct [Demo.phone; Demo.pin; "25.5"]
               (final_world
                  (Demo.recharge [Demo.phone; Demo.pin; "25.5"]
                     Demo.world50))))
       = Some b
       /\ (b =? 50)%float = true.
Proof.
  assert (Hx : exact_sum (balance Demo.account50) 25.5)
    by (vm_compute; reflexivity).
  split; [exact Hx|].
  assert (Hget : dict_get (accounts Demo.world50) Demo.phone
                 = Some Demo.account50) by reflexivity.
  assert (Hgood : in_good_standing Demo.world50 Demo.account50).
  { split; [reflexivity|]. eexists. split; reflexivity. }
  assert (Hid : identifies Demo.world50 Demo.phone Demo.phone)
    by (split; reflexivity).
  assert (Hpw : @right_password Demo.builtins Demo.account50 Demo.pin)
    by (split; reflexivity).
  assert (Hty : @types_amount Demo.builtins "25.5" 25.5)
    by (split; reflexivity).
  destruct (@recharge_then_deduct Demo.builtins Demo.phone Demo.account50
              25.5 Demo.world50 Demo.phone Demo.pin "25.5" []
              Demo.phone Demo.pin "25.5" []
              Hget Hgood Hid Hpw Hty Hid Hpw Hty eq_refl eq_refl
              eq_refl eq_refl) as (R & D & G & X).
  exists ((balance Demo.account50 + 25.5) - 25.5)%float.
  split; [|exact (X Hx)].
  unfold Demo.recharge, Demo.deduct. rewrite R. cbv [final_world].
  rewrite D. cbv [final_world balance_at]. rewrite G.
  reflexivity.
Defined.

(** The sum of 0.1 and 0.2 is not exact: it is rounded up, and the
    deduction of 0.2 does not give 0.1 back. *)
Remark rounded_sum_example :
  ~ exact_sum 0x1.999999999999ap-4 0x1.999999999999ap-3.
Proof. vm_compute. discriminate. Qed.

(* ================================================================== *)
(** ** No operation drives a balance below zero *)

Lemma dict_get_Forall (Q : string * Account -> Prop) (d : dict) k v :
  Forall Q d -> dict_get d k = Some v -> Q (k, v).
Proof.
  induction d as [|[k0 v0] r IH]; simpl; [discriminate|].
  intros HF Hget. inversion HF as [|? ? Q0 Qr]; subst.
  destruct (String.eqb k0 k) eqn:E; [|now apply IH].
  apply String.eqb_eq in E. subst k0. now injection Hget as <-.
Qed.

Lemma dict_set_Forall (Q : string * Account -> Prop) (d : dict) k v :
  Forall Q d -> Q (k, v) -> Forall Q (dict_set d k v).
Proof.
  intros HF Hv. induction d as [|[k0 v0] r IH]; simpl.
  - now repeat constructor.
  - inversion HF as [|? ? Q0 Qr]; subst.
    destruct (String.eqb k0 k); constructor; auto.
Qed.

Lemma dict_del_Forall (Q : string * Account -> Prop) (d : dict) k :
  Forall Q d -> Forall Q (dict_del d k).
Proof.
  intros HF. induction d as [|[k0 v0] r IH]; simpl; [constructor|].
  inversion HF as [|? ? Q0 Qr]; subst.
  destruct (String.eqb k0 k); [assumption|constructor; auto].
Qed.

Lemma stays_refl w : stays_not_negative w w.
Proof. now intros Hw. Qed.

Lemma stays_trans w1 w2 w3 :
  stays_not_negative w1 w2 -> stays_not_negative w2 w3 ->
  stays_not_negative w1 w3.
Proof. unfold stays_not_negative. auto. Qed.

Lemma stays_disk w df ws :
  stays_not_negative w
    (mkWorld (accounts w) df (now w) ws (github_enabled w)).
Proof. now intros Hw. Qed.

(** Storing an account whose balance is not below zero. *)
Lemma stays_set phone v w :
  not_negative (balance v) ->
  stays_not_negative w (with_accounts (dict_set (accounts w) phone v) w).
Proof. intros Hv Hw. now apply dict_set_Forall. Qed.

(** A change of fields other than the balance. *)
Lemma stays_modify phone f w a :
  (forall x, balance (f x) = balance x) ->
  dict_get (accounts w) phone = Some a ->
  stays_not_negative w (with_accounts (dict_set (accounts w) phone (f a)) w).
Proof.
  intros Hf Hget Hw. apply dict_set_Forall; [exact Hw|]. simpl. rewrite Hf.
  exact (dict_get_Forall _ _ _ _ Hw Hget).
Qed.

Lemma same_store_stays w w' : same_store w w' -> stays_not_negative w w'.
Proof. intros [_ E] Hw. unfold balances_not_negative. now rewrite E. Qed.

#[local] Hint Resolve stays_refl stays_trans stays_disk : keeps.
#[local] Hint Extern 1
  (stays_not_negative _ (with_accounts (dict_set _ _ (_ _)) _)) =>
  (apply stays_modify; [reflexivity|assumption]) : keeps.

Section BalanceFacts.
Context `{Builtins}.

(** The bonus that [set_registration_bonus] returns is not below zero. *)
Lemma set_registration_bonus_result phone stdin :
  forall w,
    match AccountManager.set_registration_bonus phone stdin w with
    | Ret (inr bonus) _ _ _ => not_negative bonus
    | _ => True
    end.
Proof.
  induction stdin as [|line rest IH]; intros w;
    cbn [AccountManager.set_registration_bonus]; [exact I|].
  cbv zeta.
  destruct (NavigationManager.handle_back_choice (Str.strip line));
    [exact I|].
  destruct (Str.is_empty (Str.strip line)); [reflexivity|].
  destruct (float_of_str (Str.strip line)) as [bonus|].
  - destruct (bonus <? 0)%float eqn:Hb.
    + specialize (IH w).
      destruct (AccountManager.set_registration_bonus phone rest w)
        as [[m|x] ? ? ?|]; simpl; auto.
    + simpl. exact Hb.
  - specialize (IH w).
    destruct (AccountManager.set_registration_bonus phone rest w)
      as [[m|x] ? ? ?|]; simpl; auto.
Qed.

Lemma store_valid_days_stays phone n :
  keeps stays_not_negative any_event
    (AccountManager.store_valid_days phone n).
Proof. unfold AccountManager.store_valid_days. keeps_tac. Qed.

Lemma set_valid_days_stays phone :
  keeps stays_not_negative any_event (AccountManager.set_valid_days phone).
Proof.
  intros stdin. induction stdin as [|line rest IH]; intros w;
    cbn [AccountManager.set_valid_days]; loop_tac.
  apply store_valid_days_stays.
Qed.

Lemma password_loop_stays phone :
  keeps stays_not_negative any_event (AccountManager.password_loop phone).
Proof.
  intros stdin. induction stdin as [stdin IH] using console_ind.
  intros w. destruct stdin as [|password rest];
    cbn [AccountManager.password_loop]; loop_tac.
Qed.

Lemma answer_loop_stays phone q :
  keeps stays_not_negative any_event (AccountManager.answer_loop phone q).
Proof.
  intros stdin. induction stdin as [stdin IH] using console_ind.
  intros w. destruct stdin as [|line rest];
    cbn [AccountManager.answer_loop]; loop_tac.
Qed.

Lemma set_password_and_security_stays phone :
  keeps stays_not_negative any_event
    (AccountManager.set_password_and_security phone).
Proof.
  unfold AccountManager.set_password_and_security.
  apply keeps_bind; [eauto with keeps|apply password_loop_stays|intros stored].
  destruct (negb stored); [keeps_tac|].
  apply keeps_bind; [eauto with keeps| |intros choice].
  { eapply keeps_weaken; [| |apply question_loop_keeps]; auto.
    - intros w w'. apply same_store_stays.
    - intros ev _. exact I. }
  destruct choice as [q|]; [|keeps_tac].
  apply keeps_bind; [eauto with keeps|apply answer_loop_stays|intros stored'].
  destruct (negb stored'); keeps_tac.
Qed.

Lemma delete_account_stays phone :
  keeps stays_not_negative any_event (PhoneAccountSystem.delete_account phone).
Proof.
  intros stdin w. unfold PhoneAccountSystem.delete_account.
  destruct (dict_mem (accounts w) phone); simpl; split; auto with keeps.
  intros Hw. now apply dict_del_Forall.
Qed.

Lemma create_account_stays phone last4 bonus :
  not_negative bonus ->
  keeps stays_not_negative any_event
    (PhoneAccountSystem.create_account phone last4 bonus).
Proof.
  intros Hb stdin w. unfold PhoneAccountSystem.create_account. simpl.
  split; [|quiet_tac]. now apply stays_set.
Qed.

Lemma register_account_stays phone last4 :
  keeps stays_not_negative any_event
    (PhoneAccountSystem.register_account phone last4).
Proof.
  intros stdin w. unfold PhoneAccountSystem.register_account.
  unfold bind at 1.
  pose proof (set_registration_bonus_keeps phone stdin w) as Hk.
  pose proof (set_registration_bonus_result phone stdin w) as Hr.
  destruct (AccountManager.set_registration_bonus phone stdin w)
    as [[m|bonus] s1 w1 o1|e w1 o1]; simpl in Hk; destruct Hk as [Hs _].
  - simpl. split; [now apply same_store_stays|quiet_tac].
  - apply post_pre; [quiet_tac|].
    eapply post_weaken;
      [intros w2; apply stays_trans; apply same_store_stays; exact Hs|].
    apply post_bind;
      [eauto with keeps|now apply create_account_stays|intros _].
    apply keeps_bind; [eauto with keeps|apply set_valid_days_stays|].
    intros valid. destruct (negb (fst valid)).
    { apply keeps_bind; [eauto with keeps|apply delete_account_stays|].
      intros _. keeps_tac. }
    apply keeps_bind;
      [eauto with keeps|apply set_password_and_security_stays|].
    intros secured. destruct (negb (fst secured)).
    { apply keeps_bind; [eauto with keeps|apply delete_account_stays|].
      intros _. keeps_tac. }
    keeps_tac.
  - simpl. split; [now apply same_store_stays|quiet_tac].
Qed.

Lemma register_phone_stays :
  keeps stays_not_negative any_event PhoneAccountSystem.register_phone.
Proof.
  intros stdin. induction stdin as [|line rest IH]; intros w;
    cbn [PhoneAccountSystem.register_phone]; loop_tac.
  apply register_account_stays.
Qed.

Lemma check_account_status_stays phone :
  keeps stays_not_negative any_event
    (AccountManager.check_account_status phone).
Proof. unfold AccountManager.check_account_status. keeps_tac. Qed.

Lemma password_attempts_stays n stored :
  keeps stays_not_negative any_event
    (AccountManager.password_attempts n stored).
Proof.
  induction n as [|n IH]; intros stdin w;
    cbn [AccountManager.password_attempts]; [loop_tac|].
  destruct stdin as [|line rest]; loop_tac.
Qed.

Lemma answer_attempts_stays n stored :
  keeps stays_not_negative any_event
    (AccountManager.answer_attempts n stored).
Proof.
  induction n as [|n IH]; intros stdin w;
    cbn [AccountManager.answer_attempts]; [loop_tac|].
  destruct stdin as [|line rest]; loop_tac.
Qed.

Lemma authenticate_with_password_stays phone :
  keeps stays_not_negative any_event
    (AccountManager.authenticate_with_password phone).
Proof.
  unfold AccountManager.authenticate_with_password.
  apply keeps_bind; [eauto with keeps|apply check_account_status_stays|].
  intros checked. destruct (negb (fst checked)); [keeps_tac|].
  apply keeps_bind; [eauto with keeps|keeps_tac|intros info].
  apply password_attempts_stays.
Qed.

Lemma new_password_loop_stays phone :
  keeps stays_not_negative any_event (AccountManager.new_password_loop phone).
Proof.
  intros stdin. induction stdin as [stdin IH] using console_ind.
  intros w. destruct stdin as [|line rest];
    cbn [AccountManager.new_password_loop]; loop_tac.
Qed.

Lemma AccountManager_reset_password_stays phone :
  keeps stays_not_negative any_event (AccountManager.reset_password phone).
Proof.
  unfold AccountManager.reset_password,
    AccountManager.authenticate_with_security_question.
  apply keeps_bind; [eauto with keeps| |].
  - apply keeps_bind; [eauto with keeps|keeps_tac|intros info].
    apply keeps_bind; [eauto with keeps|keeps_tac|intros _].
    apply answer_attempts_stays.
  - intros auth. destruct (negb (fst auth)); [keeps_tac|].
    apply new_password_loop_stays.
Qed.

(** The mutation of [recharge], for an amount that passed its test. *)
Lemma apply_recharge_stays phone amount stdin w :
  (amount <=? 0)%float = false ->
  post (stays_not_negative w) any_event
    (PhoneAccountSystem.apply_recharge phone amount stdin w).
Proof.
  intros Hpos.
  destruct (dict_get (accounts w) phone) as [info|] eqn:Hget.
  - assert (Hset : forall t, stays_not_negative w
              (with_accounts
                 (dict_set (accounts w) phone
                    (touched t (balance info + amount)%float info)) w)).
    { intros t Hw. apply dict_set_Forall; [exact Hw|]. simpl.
      apply float_add_not_negative; [|exact Hpos].
      exact (dict_get_Forall _ _ _ _ Hw Hget). }
    destruct (next_write_ok w) eqn:Hok.
    + rewrite (apply_recharge_saved phone info amount stdin w Hget Hok).
      simpl. split; [|quiet_tac]. intros Hw. exact (Hset (now w) Hw).
    + rewrite (apply_recharge_unsaved phone info amount stdin w Hget Hok).
      simpl. split; [|quiet_tac].
      apply (stays_modify phone (set_last_modified (Some (now w))) w info);
        [reflexivity|exact Hget].
  - unfold PhoneAccountSystem.apply_recharge, bind, account_of.
    rewrite Hget. simpl. split; auto with keeps.
Qed.

(** The mutation of [deduct], for an amount that passed both tests. *)
Lemma apply_deduct_stays phone info amount stdin w :
  dict_get (accounts w) phone = Some info ->
  (amount <=? 0)%float = false ->
  (balance info <? amount)%float = false ->
  post (stays_not_negative w) any_event
    (PhoneAccountSystem.apply_deduct phone amount stdin w).
Proof.
  intros Hget Hpos Hle.
  destruct (next_write_ok w) eqn:Hok.
  - rewrite (apply_deduct_saved phone info amount stdin w Hget Hok).
    simpl. split; [|quiet_tac]. intros Hw.
    apply dict_set_Forall; [exact Hw|]. simpl.
    now apply float_sub_not_negative.
  - rewrite (apply_deduct_unsaved phone info amount stdin w Hget Hok).
    simpl. split; [|quiet_tac].
    apply (stays_modify phone (set_last_modified (Some (now w))) w info);
      [reflexivity|exact Hget].
Qed.

Lemma recharge_amount_stays phone :
  keeps stays_not_negative any_event (PhoneAccountSystem.recharge_amount phone).
Proof.
  intros stdin. induction stdin as [|line rest IH]; intros w;
    cbn [PhoneAccountSystem.recharge_amount]; loop_tac.
  now apply apply_recharge_stays.
Qed.

Lemma deduct_amount_stays phone :
  keeps stays_not_negative any_event (PhoneAccountSystem.deduct_amount phone).
Proof.
  intros stdin. induction stdin as [|line rest IH]; intros w;
    cbn [PhoneAccountSystem.deduct_amount]; loop_tac.
  eapply apply_deduct_stays; eauto.
Qed.

Lemma recharge_stays :
  keeps stays_not_negative any_event PhoneAccountSystem.recharge.
Proof.
  intros stdin. induction stdin as [|line rest IH]; intros w;
    cbn [PhoneAccountSystem.recharge]; [loop_tac|].
  apply post_pre; [quiet_tac|]. cbv zeta.
  destruct (NavigationManager.handle_back_choice (Str.strip line));
    [loop_tac|].
  destruct (PhoneAccountSystem.find_account (Str.strip line) (accounts w))
    as [[phone|] message]; [|loop_tac].
  apply post_bind;
    [eauto with keeps|apply authenticate_with_password_stays|].
  intros auth. destruct (negb (fst auth)); [keeps_tac|].
  apply recharge_amount_stays.
Qed.

Lemma deduct_stays :
  keeps stays_not_negative any_event PhoneAccountSystem.deduct.
Proof.
  intros stdin. induction stdin as [|line rest IH]; intros w;
    cbn [PhoneAccountSystem.deduct]; [loop_tac|].
  apply post_pre; [quiet_tac|]. cbv zeta.
  destruct (NavigationManager.handle_back_choice (Str.strip line));
    [loop_tac|].
  destruct (PhoneAccountSystem.find_account (Str.strip line) (accounts w))
    as [[phone|] message]; [|loop_tac].
  apply post_bind;
    [eauto with keeps|apply authenticate_with_password_stays|].
  intros auth. destruct (negb (fst auth)); [keeps_tac|].
  apply deduct_amount_stays.
Qed.

Lemma reset_password_stays :
  keeps stays_not_negative any_event PhoneAccountSystem.reset_password.
Proof.
  intros stdin. induction stdin as [|line rest IH]; intros w;
    cbn [PhoneAccountSystem.reset_password]; [loop_tac|].
  apply post_pre; [quiet_tac|]. cbv zeta.
  destruct (NavigationManager.handle_back_choice (Str.strip line));
    [loop_tac|].
  destruct (PhoneAccountSystem.find_account (Str.strip line) (accounts w))
    as [[phone|] message]; [|loop_tac].
  apply post_bind;
    [eauto with keeps|apply AccountManager_reset_password_stays|].
  intros result. keeps_tac.
Qed.

Lemma get_balance_stays :
  keeps stays_not_negative any_event PhoneAccountSystem.get_balance.
Proof.
  intros stdin. induction stdin as [|line rest IH]; intros w;
    cbn [PhoneAccountSystem.get_balance]; [loop_tac|].
  apply post_pre; [quiet_tac|]. cbv zeta.
  destruct (NavigationManager.handle_back_choice (Str.strip line));
    [loop_tac|].
  destruct (PhoneAccountSystem.find_account (Str.strip line) (accounts w))
    as [[phone|] message]; [|loop_tac].
  apply post_bind; [eauto with keeps|apply keeps_account_of; auto with keeps|].
  intros info. keeps_tac.
Qed.

Lemma lift_stays {A} (f : A -> PhoneAccountSystem.shown) (m : Op A) :
  keeps stays_not_negative any_event m ->
  keeps stays_not_negative any_event (PhoneAccountSystem.lift f m).
Proof.
  intros Hm. unfold PhoneAccountSystem.lift.
  apply keeps_bind; [eauto with keeps|exact Hm|]. intros x. keeps_tac.
Qed.

Lemma command_stays choice op :
  PhoneAccountSystem.command choice = Some op ->
  keeps stays_not_negative any_event op.
Proof.
  unfold PhoneAccountSystem.command. intros E.
  repeat match type of E with
    | (if ?c then _ else _) = _ => destruct c
    end;
    try discriminate; injection E as <-; apply lift_stays.
  - apply register_phone_stays.
  - apply recharge_stays.
  - apply deduct_stays.
  - apply get_balance_stays.
  - apply reset_password_stays.
  - intros stdin w. unfold PhoneAccountSystem.list_all_accounts.
    destruct (accounts w); simpl; split; auto with keeps.
  - intros stdin w. unfold PhoneAccountSystem.check_expired_accounts.
    destruct (PhoneAccountSystem.scan_accounts _ _ _ _ _) as [[? ?] ?].
    simpl. split; auto with keeps.
Qed.

End BalanceFacts.

(** No command of the menu drives a balance below zero: if [balance < 0]
    is false for every account before the command, it is false for every
    account after it, whatever is typed and whether the command returns or
    raises.  (A balance can be NaN, for which [balance < 0] and
    [0 <= balance] are both false.) *)
Theorem balance_never_below_zero `{Builtins} choice op stdin w :
  PhoneAccountSystem.command choice = Some op ->
  balances_not_negative w ->
  balances_not_negative (final_world (op stdin w)).
Proof.
  intros Hop Hw. pose proof (command_stays choice op Hop stdin w) as Hp.
  destruct (op stdin w); simpl in *; destruct Hp as [Hs _]; now apply Hs.
Qed.

Lemma balance_never_below_zero_witness :
  balances_not_negative
    (final_world
       (Demo.deduct [Demo.phone; Demo.pin; "200"; "50"] Demo.world50)).
Proof.
  apply (@balance_never_below_zero Demo.builtins "3"
           (PhoneAccountSystem.lift PhoneAccountSystem.ShownResult
              (@PhoneAccountSystem.deduct Demo.builtins))
           [Demo.phone; Demo.pin; "200"; "50"] Demo.world50 eq_refl).
  repeat constructor.
Defined.

(** C1 (the code at the failing input).  A registration whose bonus is typed
    as "nan" succeeds and leaves an account whose balance is NaN, for which
    [0 <= balance] is false. *)
Theorem register_nan_balance :
  returned Demo.register_nan = Some (true, MsgAccountCreated nan)
  /\ balance_at Demo.phone (final_world Demo.register_nan) = Some nan
  /\ (0 <=? nan)%float = false.
Proof. repeat split; vm_compute; reflexivity. Qed.

(* ================================================================== *)
(** ** The status of an account *)

Lemma evolves_refl w : evolves w w.
Proof. split; [reflexivity|]. intros phone info Hget Hst. right. eauto. Qed.

Lemma evolves_trans w1 w2 w3 : evolves w1 w2 -> evolves w2 w3 -> evolves w1 w3.
Proof.
  intros [N1 E1] [N2 E2]. split; [congruence|].
  intros phone info Hget Hst.
  destruct (E1 phone info Hget Hst) as [L|(info2 & G2 & S2 & X2)]; [now left|].
  destruct (E2 phone info2 G2 S2) as [(e & He & Hx)|(info3 & G3 & S3 & X3)].
  - left. exists e. split; congruence.
  - right. exists info3. repeat split; congruence.
Qed.

(** A change of fields other than [status] and [expiry_time]. *)
Lemma evolves_modify phone f w a :
  (forall x, status (f x) = status x) ->
  (forall x, expiry_time (f x) = expiry_time x) ->
  dict_get (accounts w) phone = Some a ->
  evolves w (with_accounts (dict_set (accounts w) phone (f a)) w).
Proof.
  intros Hs He Hget. split; [reflexivity|].
  intros k info Hk Hst. right. simpl.
  destruct (String.eqb k phone) eqn:E.
  - apply String.eqb_eq in E. subst k. rewrite dict_get_set_same.
    exists (f a). assert (info = a) by congruence. subst info.
    repeat split; [now rewrite Hs|apply He].
  - apply String.eqb_neq in E. rewrite dict_get_set_other by exact E.
    eauto.
Qed.

(** The change of [check_account_status], made when the account lapsed. *)
Lemma evolves_expire phone w a :
  dict_get (accounts w) phone = Some a -> lapsed (now w) a ->
  evolves w
    (with_accounts (dict_set (accounts w) phone (set_status StatusExpired a)) w).
Proof.
  intros Hget Hl. split; [reflexivity|].
  intros k info Hk Hst. simpl.
  destruct (String.eqb k phone) eqn:E.
  - apply String.eqb_eq in E. subst k. left. congruence.
  - apply String.eqb_neq in E. right. rewrite dict_get_set_other by exact E.
    eauto.
Qed.

Lemma evolves_disk w df ws :
  evolves w (mkWorld (accounts w) df (now w) ws (github_enabled w)).
Proof. split; [reflexivity|]. intros phone info Hget Hst. right. eauto. Qed.

Lemma frame_evolves w w' : frame w w' -> evolves w w'.
Proof.
  intros [N F]. split; [exact N|]. intros phone info Hget Hst. right.
  exists info. auto.
Qed.

#[local] Hint Resolve evolves_refl evolves_trans evolves_disk : keeps.
#[local] Hint Extern 1 (evolves _ (with_accounts (dict_set _ _ (_ _)) _)) =>
  (apply evolves_modify; [reflexivity|reflexivity|assumption]) : keeps.
#[local] Hint Resolve Forall_any_event : keeps.

Section StatusFacts.
Context `{Builtins}.

Lemma check_account_status_evolves phone :
  keeps evolves any_event (AccountManager.check_account_status phone).
Proof.
  intros stdin w.
  unfold AccountManager.check_account_status, bind, account_of, get_world,
    modify, ret, raise, AccountManager.save_data, FileStorageManager.save_data.
  destruct (dict_get (accounts w) phone) as [info|] eqn:Hget; cbn;
    [|split; auto with keeps].
  destruct (Status_eqb (status info) StatusExpired); cbn;
    [split; auto with keeps|].
  destruct (expiry_time info) as [e|] eqn:He; cbn; [|split; auto with keeps].
  destruct (TimeManager.is_expired (now w) e) eqn:Hx; cbn;
    [|split; auto with keeps].
  rewrite Hget. cbn.
  assert (Hev : evolves w
            (with_accounts
               (dict_set (accounts w) phone (set_status StatusExpired info)) w)).
  { apply evolves_expire; [exact Hget|]. exists e. auto. }
  destruct (writes w) as [|[] ws]; cbn;
    (split; [|auto with keeps]);
    (eapply evolves_trans; [exact Hev|]); split; simpl; auto;
    intros k i Hk Hs; right; eauto.
Qed.

Lemma password_attempts_evolves n stored :
  keeps evolves any_event (AccountManager.password_attempts n stored).
Proof.
  induction n as [|n IH]; intros stdin w;
    cbn [AccountManager.password_attempts]; [loop_tac|].
  destruct stdin as [|line rest]; loop_tac.
Qed.

Lemma answer_attempts_evolves n stored :
  keeps evolves any_event (AccountManager.answer_attempts n stored).
Proof.
  induction n as [|n IH]; intros stdin w;
    cbn [AccountManager.answer_attempts]; [loop_tac|].
  destruct stdin as [|line rest]; loop_tac.
Qed.

Lemma authenticate_with_password_evolves phone :
  keeps evolves any_event (AccountManager.authenticate_with_password phone).
Proof.
  unfold AccountManager.authenticate_with_password.
  apply keeps_bind; [eauto with keeps|apply check_account_status_evolves|].
  intros checked. destruct (negb (fst checked)); [keeps_tac|].
  apply keeps_bind; [eauto with keeps|keeps_tac|intros info].
  apply password_attempts_evolves.
Qed.

Lemma authenticate_with_security_question_evolves phone :
  keeps evolves any_event
    (AccountManager.authenticate_with_security_question phone).
Proof.
  unfold AccountManager.authenticate_with_security_question.
  apply keeps_bind; [eauto with keeps|keeps_tac|intros info].
  apply keeps_bind; [eauto with keeps|keeps_tac|intros _].
  apply answer_attempts_evolves.
Qed.

Lemma new_password_loop_evolves phone :
  keeps evolves any_event (AccountManager.new_password_loop phone).
Proof.
  intros stdin. induction stdin as [stdin IH] using console_ind.
  intros w. destruct stdin as [|line rest];
    cbn [AccountManager.new_password_loop]; loop_tac.
Qed.

Lemma AccountManager_reset_password_evolves phone :
  keeps evolves any_event (AccountManager.reset_password phone).
Proof.
  unfold AccountManager.reset_password.
  apply keeps_bind;
    [eauto with keeps|apply authenticate_with_security_question_evolves|].
  intros auth. destruct (negb (fst auth)); [keeps_tac|].
  apply new_password_loop_evolves.
Qed.

Lemma apply_recharge_evolves phone amount :
  keeps evolves any_event (PhoneAccountSystem.apply_recharge phone amount).
Proof. unfold PhoneAccountSystem.apply_recharge. keeps_tac. Qed.

Lemma apply_deduct_evolves phone amount :
  keeps evolves any_event (PhoneAccountSystem.apply_deduct phone amount).
Proof. unfold PhoneAccountSystem.apply_deduct. keeps_tac. Qed.

Lemma recharge_amount_evolves phone :
  keeps evolves any_event (PhoneAccountSystem.recharge_amount phone).
Proof.
  intros stdin. induction stdin as [|line rest IH]; intros w;
    cbn [PhoneAccountSystem.recharge_amount]; loop_tac.
  apply apply_recharge_evolves.
Qed.

Lemma deduct_amount_evolves phone :
  keeps evolves any_event (PhoneAccountSystem.deduct_amount phone).
Proof.
  intros stdin. induction stdin as [|line rest IH]; intros w;
    cbn [PhoneAccountSystem.deduct_amount]; loop_tac.
  apply apply_deduct_evolves.
Qed.

Lemma recharge_evolves : keeps evolves any_event PhoneAccountSystem.recharge.
Proof.
  intros stdin. induction stdin as [|line rest IH]; intros w;
    cbn [PhoneAccountSystem.recharge]; [loop_tac|].
  apply post_pre; [quiet_tac|]. cbv zeta.
  destruct (NavigationManager.handle_back_choice (Str.strip line));
    [loop_tac|].
  destruct (PhoneAccountSystem.find_account (Str.strip line) (accounts w))
    as [[phone|] message]; [|loop_tac].
  apply post_bind;
    [eauto with keeps|apply authenticate_with_password_evolves|].
  intros auth. destruct (negb (fst auth)); [keeps_tac|].
  apply recharge_amount_evolves.
Qed.

Lemma deduct_evolves : keeps evolves any_event PhoneAccountSystem.deduct.
Proof.
  intros stdin. induction stdin as [|line rest IH]; intros w;
    cbn [PhoneAccountSystem.deduct]; [loop_tac|].
  apply post_pre; [quiet_tac|]. cbv zeta.
  destruct (NavigationManager.handle_back_choice (Str.strip line));
    [loop_tac|].
  destruct (PhoneAccountSystem.find_account (Str.strip line) (accounts w))
    as [[phone|] message]; [|loop_tac].
  apply post_bind;
    [eauto with keeps|apply authenticate_with_password_evolves|].
  intros auth. destruct (negb (fst auth)); [keeps_tac|].
  apply deduct_amount_evolves.
Qed.

Lemma reset_password_evolves :
  keeps evolves any_event PhoneAccountSystem.reset_password.
Proof.
  intros stdin. induction stdin as [|line rest IH]; intros w;
    cbn [PhoneAccountSystem.reset_password]; [loop_tac|].
  apply post_pre; [quiet_tac|]. cbv zeta.
  destruct (NavigationManager.handle_back_choice (Str.strip line));
    [loop_tac|].
  destruct (PhoneAccountSystem.find_account (Str.strip line) (accounts w))
    as [[phone|] message]; [|loop_tac].
  apply post_bind;
    [eauto with keeps|apply AccountManager_reset_password_evolves|].
  intros result. keeps_tac.
Qed.

Lemma get_balance_evolves :
  keeps evolves any_event PhoneAccountSystem.get_balance.
Proof.
  intros stdin. induction stdin as [|line rest IH]; intros w;
    cbn [PhoneAccountSystem.get_balance]; [loop_tac|].
  apply post_pre; [quiet_tac|]. cbv zeta.
  destruct (NavigationManager.handle_back_choice (Str.strip line));
    [loop_tac|].
  destruct (PhoneAccountSystem.find_account (Str.strip line) (accounts w))
    as [[phone|] message]; [|loop_tac].
  apply post_bind; [eauto with keeps|apply keeps_account_of; auto with keeps|].
  intros info. keeps_tac.
Qed.

Lemma register_phone_evolves :
  keeps evolves any_event PhoneAccountSystem.register_phone.
Proof.
  intros stdin w. pose proof (register_phone_post stdin w) as Hp.
  destruct (PhoneAccountSystem.register_phone stdin w); simpl in *.
  - destruct Hp as (_ & F & _). split; [now apply frame_evolves|quiet_tac].
  - destruct Hp as (F & _). split; [now apply frame_evolves|quiet_tac].
Qed.

Lemma list_all_accounts_evolves :
  keeps evolves any_event PhoneAccountSystem.list_all_accounts.
Proof.
  intros stdin w. unfold PhoneAccountSystem.list_all_accounts.
  destruct (accounts w); simpl; split; auto with keeps.
Qed.

Lemma check_expired_accounts_evolves :
  keeps evolves any_event PhoneAccountSystem.check_expired_accounts.
Proof.
  intros stdin w. unfold PhoneAccountSystem.check_expired_accounts.
  destruct (PhoneAccountSystem.scan_accounts _ _ _ _ _) as [[? ?] ?].
  simpl. split; auto with keeps.
Qed.

Lemma lift_evolves {A} (f : A -> PhoneAccountSystem.shown) (m : Op A) :
  keeps evolves any_event m ->
  keeps evolves any_event (PhoneAccountSystem.lift f m).
Proof.
  intros Hm. unfold PhoneAccountSystem.lift.
  apply keeps_bind; [eauto with keeps|exact Hm|]. intros x. keeps_tac.
Qed.

(** Every command of the menu keeps [evolves]. *)
Lemma command_evolves choice op :
  PhoneAccountSystem.command choice = Some op -> keeps evolves any_event op.
Proof.
  unfold PhoneAccountSystem.command. intros E.
  repeat match type of E with
    | (if ?c then _ else _) = _ => destruct c
    end;
    try discriminate; injection E as <-; apply lift_evolves.
  - apply register_phone_evolves.
  - apply recharge_evolves.
  - apply deduct_evolves.
  - apply get_balance_evolves.
  - apply reset_password_evolves.
  - apply list_all_accounts_evolves.
  - apply check_expired_accounts_evolves.
Qed.

End StatusFacts.

Section ExpiryFacts.
Context `{Builtins}.

Lemma check_account_status_lapsed phone info stdin w :
  dict_get (accounts w) phone = Some info ->
  Status_eqb (status info) StatusExpired = false ->
  lapsed (now w) info ->
  let d := dict_set (accounts w) phone (set_status StatusExpired info) in
  AccountManager.check_account_status phone stdin w
  = Ret (false, MsgAccountExpired) stdin (after_save d w)
      [Saved d (next_write_ok w)].
Proof.
  intros Hget Hst (e & He & Hx) d.
  unfold AccountManager.check_account_status, bind, account_of, get_world,
    modify, ret, AccountManager.save_data, FileStorageManager.save_data.
  rewrite Hget. cbn. rewrite Hst, He. cbn. rewrite Hx. cbn. rewrite Hget. cbn.
  unfold after_save, next_write_ok, saved_world, unsaved_world.
  destruct (writes w) as [|[] ws]; reflexivity.
Qed.

Lemma check_account_status_expired phone info stdin w :
  dict_get (accounts w) phone = Some info ->
  Status_eqb (status info) StatusExpired = true ->
  AccountManager.check_account_status phone stdin w
  = Ret (false, MsgAccountExpired) stdin w [].
Proof.
  intros Hget Hst.
  unfold AccountManager.check_account_status, bind, account_of, ret.
  rewrite Hget. cbn. now rewrite Hst.
Qed.

(** Password authentication of an account that is marked expired or has
    lapsed fails with "账户已过期" before any password is asked for, and
    leaves the balance alone. *)
Lemma authenticate_refused phone info stdin w :
  dict_get (accounts w) phone = Some info ->
  status info = StatusExpired \/ lapsed (now w) info ->
  exists w' out,
    AccountManager.authenticate_with_password phone stdin w
    = Ret (false, MsgAccountExpired) stdin w' out
    /\ dict_get (accounts w') phone = Some (set_status StatusExpired info)
    /\ asked AskPassword out = 0%nat.
Proof.
  intros Hget Hcase.
  unfold AccountManager.authenticate_with_password, bind.
  destruct (Status_eqb (status info) StatusExpired) eqn:Hst.
  - rewrite (check_account_status_expired phone info stdin w Hget Hst).
    cbn. exists w, []. repeat split. rewrite Hget. f_equal.
    destruct info as [b l p q a st]. simpl in *.
    destruct st; try discriminate. reflexivity.
  - assert (Hl : lapsed (now w) info).
    { destruct Hcase as [E|L]; [|exact L]. rewrite E in Hst. discriminate. }
    rewrite (check_account_status_lapsed phone info stdin w Hget Hst Hl).
    cbn. eexists _, _. split; [reflexivity|]. split; [|reflexivity].
    unfold after_save, saved_world, unsaved_world.
    destruct (next_write_ok w); simpl; apply dict_get_set_same.
Qed.

End ExpiryFacts.

(** C9.  Password authentication of an account that is stored as active
    but whose expiry time is past fails with "账户已过期" before any
    password is asked for; the status of the account in the store is then
    "已过期", its other fields are what they were, and [save_data] was
    called on that store, so that the account in the data file has the
    status "已过期" too whenever the write succeeds.  Conversely, whatever
    command of the menu is run and whatever is typed, an account that was
    active before and is expired after had an expiry time before the clock
    reading: nothing else sets the status to expired. *)
Theorem lazy_expiry `{Builtins} :
  (forall phone info stdin w,
     dict_get (accounts w) phone = Some info ->
     status info = StatusActive ->
     lapsed (now w) info ->
     exists w' info',
       AccountManager.authenticate_with_password phone stdin w
       = Ret (false, MsgAccountExpired) stdin w'
           [Saved (accounts w') (next_write_ok w)]
       /\ dict_get (accounts w') phone = Some info'
       /\ status info' = StatusExpired
       /\ info' = set_status StatusExpired info
       /\ accounts w' = dict_set (accounts w) phone info'
       /\ (next_write_ok w = true ->
           exists d, data_file w' = Some d
                     /\ option_map status (dict_get d phone)
                        = Some StatusExpired))
  /\ (forall choice op stdin w phone info info',
        PhoneAccountSystem.command choice = Some op ->
        dict_get (accounts w) phone = Some info ->
        status info = StatusActive ->
        dict_get (accounts (final_world (op stdin w))) phone = Some info' ->
        status info' = StatusExpired ->
        lapsed (now w) info).
Proof.
  split.
  - intros phone info stdin w Hget Hst Hl.
    assert (Hs : Status_eqb (status info) StatusExpired = false)
      by now rewrite Hst.
    set (d := dict_set (accounts w) phone (set_status StatusExpired info)).
    assert (Hd : accounts (after_save d w) = d).
    { unfold after_save, saved_world, unsaved_world.
      now destruct (next_write_ok w). }
    exists (after_save d w), (set_status StatusExpired info).
    rewrite Hd. repeat split.
    + unfold AccountManager.authenticate_with_password, bind.
      rewrite (check_account_status_lapsed phone info stdin w Hget Hs Hl).
      reflexivity.
    + apply dict_get_set_same.
    + intros Hok. exists d. unfold after_save. rewrite Hok. simpl.
      split; [reflexivity|]. unfold d. now rewrite dict_get_set_same.
  - intros choice op stdin w phone info info' Hop Hget Hst Hget' Hst'.
    pose proof (command_evolves choice op Hop stdin w) as Hp.
    assert (Hev : evolves w (final_world (op stdin w))).
    { destruct (op stdin w); simpl in *; now destruct Hp. }
    destruct Hev as [_ Hev].
    destruct (Hev phone info Hget Hst) as [L|(i & G & S & _)]; [exact L|].
    rewrite Hget' in G. injection G as <-. congruence.
Qed.

Lemma lazy_expiry_witness :
  status Demo.account50 = StatusActive
  /\ exists w' info',
       @AccountManager.authenticate_with_password Demo.builtins Demo.phone
         [Demo.pin] Demo.world50_lapsed
       = Ret (false, MsgAccountExpired) [Demo.pin] w'
           [Saved (accounts w') true]
       /\ dict_get (accounts w') Demo.phone = Some info'
       /\ status info' = StatusExpired
       /\ balance info' = 50%float
       /\ exists d, data_file w' = Some d
                    /\ option_map status (dict_get d Demo.phone)
                       = Some StatusExpired.
Proof.
  split; [reflexivity|].
  assert (Hget : dict_get (accounts Demo.world50_lapsed) Demo.phone
                 = Some Demo.account50) by reflexivity.
  assert (Hl : lapsed (now Demo.world50_lapsed) Demo.account50).
  { eexists. split; reflexivity. }
  destruct (@lazy_expiry Demo.builtins) as [A _].
  destruct (A Demo.phone Demo.account50 [Demo.pin] Demo.world50_lapsed
              Hget eq_refl Hl) as (w' & info' & E & G & S & I & _ & D).
  exists w', info'. split; [exact E|]. split; [exact G|]. split; [exact S|].
  split; [now rewrite I|]. apply D. reflexivity.
Defined.

(* ================================================================== *)
(** ** Password reset *)

Section ResetFacts.
Context `{Builtins}.

(** A four-digit PIN is not the sentinel "0". *)
Lemma valid_password_not_back p :
  SecurityManager.validate_password p = true ->
  NavigationManager.handle_back_choice p = false.
Proof.
  unfold NavigationManager.handle_back_choice. intros V.
  destruct (String.eqb p "0") eqn:E; [|reflexivity].
  apply String.eqb_eq in E. subst p. discriminate V.
Qed.

Lemma answer_attempts_first info line stdin w :
  right_answer info line ->
  AccountManager.answer_attempts 3 (security_answer info) (line :: stdin) w
  = Ret (true, MsgAuthOk) stdin w [Asked AskAnswer; Said MsgAuthOk].
Proof. intros [B V]. cbn. now rewrite B, V. Qed.

Lemma new_password_loop_first phone info pin rest w :
  dict_get (accounts w) phone = Some info ->
  SecurityManager.validate_password pin = true ->
  next_write_ok w = true ->
  let d := dict_set (accounts w) phone (reset_to (now w) pin info) in
  AccountManager.new_password_loop phone (pin :: pin :: rest) w
  = Ret (true, MsgResetOk) rest (saved_world d w)
      [Asked AskResetPassword; Asked AskConfirmResetPassword; Saved d true].
Proof.
  intros Hget Hv Hok d.
  cbn [AccountManager.new_password_loop].
  rewrite (valid_password_not_back pin Hv), Hv, String.eqb_refl.
  cbn [negb].
  unfold bind, modify, ret, AccountManager.save_data,
    FileStorageManager.save_data.
  rewrite Hget. cbn. rewrite dict_get_set_same. cbn. rewrite dict_set_set.
  unfold next_write_ok in Hok. unfold saved_world.
  destruct (writes w) as [|[] ws]; try discriminate; reflexivity.
Qed.

Lemma reset_password_run phone info idl al pin rest w :
  dict_get (accounts w) phone = Some info ->
  identifies w idl phone -> right_answer info al ->
  SecurityManager.validate_password pin = true ->
  next_write_ok w = true ->
  let d := dict_set (accounts w) phone (reset_to (now w) pin info) in
  PhoneAccountSystem.reset_password (idl :: al :: pin :: pin :: rest) w
  = Ret (true, MsgResetOk) rest (saved_world d w)
      (reset_dialogue info ++ Saved d true :: pushed (saved_world d w)).
Proof.
  intros Hget [Bi Fi] Ha Hv Hok d.
  cbn [PhoneAccountSystem.reset_password]. cbv zeta. rewrite Bi, Fi.
  unfold AccountManager.reset_password.
  unfold bind at 1. unfold bind at 1.
  rewrite (authenticate_with_security_question_eq phone info _ w Hget).
  change Config.MAX_AUTH_ATTEMPTS with 3%nat.
  rewrite (answer_attempts_first info al _ w Ha).
  cbn [pre fst snd negb app].
  rewrite (new_password_loop_first phone info pin rest w Hget Hv Hok).
  cbn. unfold pushed. simpl.
  destruct (github_enabled w); reflexivity.
Qed.

(** On an account that is marked expired or has lapsed, [recharge] and
    [deduct] end with "账户已过期" as soon as the account is named. *)
Lemma recharge_refused phone info idl stdin w :
  dict_get (accounts w) phone = Some info ->
  identifies w idl phone ->
  status info = StatusExpired \/ lapsed (now w) info ->
  exists w' out,
    PhoneAccountSystem.recharge (idl :: stdin) w
    = Ret (false, MsgAccountExpired) stdin w' out
    /\ dict_get (accounts w') phone = Some (set_status StatusExpired info).
Proof.
  intros Hget [Bi Fi] Hcase.
  destruct (authenticate_refused phone info stdin w Hget Hcase)
    as (w' & out & E & G & _).
  cbn [PhoneAccountSystem.recharge]. cbv zeta. rewrite Bi, Fi.
  unfold bind at 1. rewrite E. cbn. eexists _, _. split; [reflexivity|exact G].
Qed.

Lemma deduct_refused phone info idl stdin w :
  dict_get (accounts w) phone = Some info ->
  identifies w idl phone ->
  status info = StatusExpired \/ lapsed (now w) info ->
  exists w' out,
    PhoneAccountSystem.deduct (idl :: stdin) w
    = Ret (false, MsgAccountExpired) stdin w' out
    /\ dict_get (accounts w') phone = Some (set_status StatusExpired info).
Proof.
  intros Hget [Bi Fi] Hcase.
  destruct (authenticate_refused phone info stdin w Hget Hcase)
    as (w' & out & E & G & _).
  cbn [PhoneAccountSystem.deduct]. cbv zeta. rewrite Bi, Fi.
  unfold bind at 1. rewrite E. cbn. eexists _, _. split; [reflexivity|exact G].
Qed.

End ResetFacts.

(** C10.  [reset_password] never looks at the status or at the expiry
    time: for every account, whatever they are, the right security answer
    followed by a four-digit PIN typed twice resets the password, provided
    the save succeeds.  On an account that is marked expired or has lapsed
    this is the mutation that remains: [recharge] and [deduct] are refused
    with "账户已过期" and leave the balance as it was. *)
Theorem reset_password_on_expired `{Builtins} phone info idl al pin rest w :
  dict_get (accounts w) phone = Some info ->
  identifies w idl phone ->
  right_answer info al ->
  SecurityManager.validate_password pin = true ->
  next_write_ok w = true ->
  let d := dict_set (accounts w) phone (reset_to (now w) pin info) in
  PhoneAccountSystem.reset_password (idl :: al :: pin :: pin :: rest) w
  = Ret (true, MsgResetOk) rest (saved_world d w)
      (reset_dialogue info ++ Saved d true :: pushed (saved_world d w))
  /\ password (reset_to (now w) pin info)
     = Some (SecurityManager.hash_password pin)
  /\ (status info = StatusExpired \/ lapsed (now w) info ->
      forall stdin,
        (exists w' out,
           PhoneAccountSystem.recharge (idl :: stdin) w
           = Ret (false, MsgAccountExpired) stdin w' out
           /\ option_map balance (dict_get (accounts w') phone)
              = Some (balance info))
        /\ (exists w' out,
              PhoneAccountSystem.deduct (idl :: stdin) w
              = Ret (false, MsgAccountExpired) stdin w' out
              /\ option_map balance (dict_get (accounts w') phone)
                 = Some (balance info))).
Proof.
  intros Hget Hid Ha Hv Hok d. split; [|split].
  - now apply reset_password_run.
  - reflexivity.
  - intros Hcase stdin. split.
    + destruct (recharge_refused phone info idl stdin w Hget Hid Hcase)
        as (w' & out & E & G).
      exists w', out. split; [exact E|]. now rewrite G.
    + destruct (deduct_refused phone info idl stdin w Hget Hid Hcase)
        as (w' & out & E & G).
      exists w', out. split; [exact E|]. now rewrite G.
Qed.

Lemma reset_password_on_expired_witness :
  returned
    (Demo.reset_password [Demo.phone; " Blue "; "4321"; "4321"]
       (Demo.world [(Demo.phone, set_status StatusExpired Demo.account50)]
          (Demo.t0 + 31 * TimeManager.DAY) []))
  = Some (true, MsgResetOk).
Proof.
  set (info := set_status StatusExpired Demo.account50).
  set (w := Demo.world [(Demo.phone, info)]
              (Demo.t0 + 31 * TimeManager.DAY) []).
  assert (Hget : dict_get (accounts w) Demo.phone = Some info) by reflexivity.
  assert (Hid : identifies w Demo.phone Demo.phone) by (split; reflexivity).
  assert (Ha : @right_answer Demo.builtins info " Blue ")
    by (split; reflexivity).
  destruct (@reset_password_on_expired Demo.builtins Demo.phone info
              Demo.phone " Blue " "4321" [] w Hget Hid Ha eq_refl eq_refl)
    as (E & _ & _).
  unfold Demo.reset_password. rewrite E. reflexivity.
Defined.

(* ================================================================== *)
(** ** The expiry scan *)

Lemma scan_accounts_classify t items :
  forall expired_count expiring_count result,
    PhoneAccountSystem.scan_accounts t items expired_count expiring_count
      result
    = ((expired_count + count_class t ClassExpired items)%nat,
       (expiring_count + count_class t ClassExpiring items)%nat,
       result ++ flat_map (line_of t) items).
Proof.
  unfold count_class.
  induction items as [|[phone info] r IH]; intros ec xc res; simpl.
  - now rewrite !Nat.add_0_r, app_nil_r.
  - unfold line_of, in_class, classify. simpl.
    destruct (expiry_time info) as [e|]; [|apply IH].
    destruct (TimeManager.is_expired t e).
    + rewrite IH. simpl. rewrite <- app_assoc. simpl.
      now rewrite Nat.add_succ_r.
    + destruct (TimeManager.get_remaining_days t e <=? 3).
      * rewrite IH. simpl. rewrite <- app_assoc. simpl.
        now rewrite Nat.add_succ_r.
      * apply IH.
Qed.

(** C7.  [check_expired_accounts] reads the store and the clock and changes
    nothing: it returns its report, leaves the console and the world as
    they were (so every balance and every registration bonus is what it
    was) and shows no event.  The report lists, in the order of the store,
    the accounts that [classify] puts among the expired and the expiring
    at the clock reading.  Run again in any world with the same store and
    the same clock reading, it returns the same report. *)
Theorem check_expired_accounts_idempotent stdin w :
  exists report,
    PhoneAccountSystem.check_expired_accounts stdin w = Ret report stdin w []
    /\ fst report = flat_map (line_of (now w)) (accounts w)
    /\ forall stdin' w',
         accounts w' = accounts w -> now w' = now w ->
         PhoneAccountSystem.check_expired_accounts stdin' w'
         = Ret report stdin' w' [].
Proof.
  unfold PhoneAccountSystem.check_expired_accounts.
  rewrite scan_accounts_classify. simpl.
  eexists. split; [reflexivity|]. split; [reflexivity|].
  intros stdin' w' Ha Hn. rewrite Ha, Hn, scan_accounts_classify.
  reflexivity.
Qed.

Lemma check_expired_accounts_idempotent_witness :
  exists report,
    PhoneAccountSystem.check_expired_accounts [] Demo.world50_lapsed
    = Ret report [] Demo.world50_lapsed []
    /\ fst report = [PhoneAccountSystem.LineExpired Demo.phone]
    /\ PhoneAccountSystem.check_expired_accounts ["7"] Demo.world50_lapsed
       = Ret report ["7"] Demo.world50_lapsed [].
Proof.
  destruct (check_expired_accounts_idempotent [] Demo.world50_lapsed)
    as (report & E & L & S).
  exists report. split; [exact E|]. split; [exact L|].
  apply S; reflexivity.
Defined.

(* ================================================================== *)
(** * Further properties of the ledger *)

(* ================================================================== *)
(** ** The validity period and its display *)

(** For a validity period of [n > 0] days set at the instant [now],
    [calculate_expiry_time] gives [now] plus [n] whole days, provided [n] is
    within [timedelta] and the date stays before the year 10000; read back
    at the same instant, the account is not expired and shows the [n] days
    it was given.  Otherwise the call raises. *)
Theorem calculate_expiry_time_spec now n :
  0 <= now -> 0 < n ->
  match TimeManager.calculate_expiry_time now n with
  | Some e =>
      e = now + n * TimeManager.DAY
      /\ n <= TimeManager.TIMEDELTA_MAX_DAYS
      /\ e < TimeManager.DATETIME_END
      /\ TimeManager.is_expired now e = false
      /\ TimeManager.get_remaining_days now e = n
      /\ TimeManager.format_remaining_time now e = TimeManager.RemDays n
  | None =>
      TimeManager.TIMEDELTA_MAX_DAYS < n
      \/ TimeManager.DATETIME_END <= now + n * TimeManager.DAY
  end.
Proof.
  intros Hnow Hn.
  unfold TimeManager.calculate_expiry_time, TimeManager.timedelta_days,
    TimeManager.datetime_add.
  rewrite Z.abs_eq by lia.
  destruct (n <=? TimeManager.TIMEDELTA_MAX_DAYS) eqn:Hmax;
    [apply Z.leb_le in Hmax|apply Z.leb_gt in Hmax; now left].
  destruct ((0 <=? now + n * TimeManager.DAY)
            && (now + n * TimeManager.DAY <? TimeManager.DATETIME_END)) eqn:Hr.
  - apply andb_prop in Hr. destruct Hr as [_ Hr]. apply Z.ltb_lt in Hr.
    assert (Hd : TimeManager.get_remaining_days now (now + n * TimeManager.DAY)
                 = n).
    { unfold TimeManager.get_remaining_days.
      replace (now + n * TimeManager.DAY - now) with (n * TimeManager.DAY)
        by lia.
      rewrite Z.div_mul by discriminate. lia. }
    assert (Hx : TimeManager.is_expired now (now + n * TimeManager.DAY) = false).
    { unfold TimeManager.is_expired. apply Z.ltb_ge.
      unfold TimeManager.DAY, TimeManager.SECOND. lia. }
    repeat split; auto.
    unfold TimeManager.format_remaining_time. rewrite Hx, Hd.
    destruct (n =? 0) eqn:E; [apply Z.eqb_eq in E; lia|reflexivity].
  - right. apply andb_false_iff in Hr. destruct Hr as [Hr|Hr].
    + apply Z.leb_gt in Hr. unfold TimeManager.DAY, TimeManager.SECOND in Hr.
      lia.
    + now apply Z.ltb_ge in Hr.
Qed.

Lemma calculate_expiry_time_spec_witness :
  TimeManager.calculate_expiry_time Demo.t0 30
  = Some (Demo.t0 + 30 * TimeManager.DAY)
  /\ TimeManager.get_remaining_days Demo.t0 (Demo.t0 + 30 * TimeManager.DAY)
     = 30.
Proof.
  pose proof (calculate_expiry_time_spec Demo.t0 30) as S.
  change (TimeManager.calculate_expiry_time Demo.t0 30)
    with (Some (Demo.t0 + 30 * TimeManager.DAY)) in S.
  assert (H0 : 0 <= Demo.t0) by (vm_compute; discriminate).
  assert (H1 : 0 < 30) by lia.
  destruct (S H0 H1) as (_ & _ & _ & _ & D & _).
  split; [reflexivity|exact D].
Defined.

(** What [format_remaining_time] shows: "已过期" exactly when the expiry
    time is before the clock reading (an account whose time is the very
    instant of the reading is not expired); hours, from 0 to 23, during the
    last day; otherwise the number of whole days left, at least 1. *)
Theorem format_remaining_time_cases now e :
  match TimeManager.format_remaining_time now e with
  | TimeManager.RemExpired => e < now
  | TimeManager.RemHours h =>
      now <= e < now + TimeManager.DAY
      /\ 0 <= h <= 23
      /\ h = (e - now) / (3600 * TimeManager.SECOND)
  | TimeManager.RemDays d =>
      1 <= d /\ now + d * TimeManager.DAY <= e < now + (d + 1) * TimeManager.DAY
  end.
Proof.
  unfold TimeManager.format_remaining_time, TimeManager.is_expired,
    TimeManager.get_remaining_days.
  destruct (e <? now) eqn:Hx; [now apply Z.ltb_lt in Hx|].
  apply Z.ltb_ge in Hx.
  destruct (Z.max 0 ((e - now) / TimeManager.DAY) =? 0) eqn:Hd.
  - apply Z.eqb_eq in Hd.
    unfold TimeManager.DAY, TimeManager.SECOND in *.
    assert (Hlt : e - now < 86400 * 1000000).
    { destruct (Z_lt_le_dec (e - now) (86400 * 1000000)) as [L|G]; [exact L|].
      assert (1 <= (e - now) / (86400 * 1000000))
        by (apply Z.div_le_lower_bound; lia).
      lia. }
    rewrite Z.mod_small by lia.
    rewrite Z.div_div by lia.
    assert (H0 : 0 <= (e - now) / (1000000 * 3600))
      by (apply Z.div_pos; lia).
    assert (H1 : (e - now) / (1000000 * 3600) < 24)
      by (apply Z.div_lt_upper_bound; lia).
    rewrite Z.max_r by lia.
    repeat split; lia.
  - apply Z.eqb_neq in Hd.
    unfold TimeManager.DAY, TimeManager.SECOND in *.
    assert (Hq : 0 <= (e - now) / (86400 * 1000000))
      by (apply Z.div_pos; lia).
    rewrite Z.max_r in * by lia.
    pose proof (Z.div_mod (e - now) (86400 * 1000000)) as Hm.
    pose proof (Z.mod_pos_bound (e - now) (86400 * 1000000)) as Hb.
    lia.
Qed.

(* ================================================================== *)
(** ** The report of the expiry scan *)

Lemma line_of_cases t phone info :
  line_of t (phone, info)
  = match expiry_time info with
    | Some e =>
        if TimeManager.is_expired t e
        then [PhoneAccountSystem.LineExpired phone]
        else if TimeManager.get_remaining_days t e <=? 3
             then [PhoneAccountSystem.LineExpiring phone
                     (TimeManager.format_remaining_time t e)]
             else []
    | None => []
    end.
Proof.
  unfold line_of, classify. simpl.
  destruct (expiry_time info) as [e|]; [|reflexivity].
  destruct (TimeManager.is_expired t e); [reflexivity|].
  now destruct (TimeManager.get_remaining_days t e <=? 3).
Qed.

(** At most three whole days are left exactly when less than four days
    are. *)
Lemma remaining_days_window t e :
  t <= e ->
  (TimeManager.get_remaining_days t e <=? 3) = (e <? t + 4 * TimeManager.DAY).
Proof.
  intros Hle. unfold TimeManager.get_remaining_days, TimeManager.DAY,
    TimeManager.SECOND.
  assert (Hq : 0 <= (e - t) / (86400 * 1000000)) by (apply Z.div_pos; lia).
  rewrite Z.max_r by lia.
  pose proof (Z.div_mod (e - t) (86400 * 1000000)) as Hm.
  pose proof (Z.mod_pos_bound (e - t) (86400 * 1000000)) as Hb.
  destruct (e <? t + 4 * (86400 * 1000000)) eqn:E.
  - apply Z.ltb_lt in E. apply Z.leb_le. lia.
  - apply Z.ltb_ge in E. apply Z.leb_gt. lia.
Qed.

Lemma report_length t items :
  List.length (flat_map (line_of t) items)
  = (count_class t ClassExpired items + count_class t ClassExpiring items)%nat.
Proof.
  unfold count_class.
  induction items as [|[phone info] r IH]; [reflexivity|].
  cbn [flat_map filter]. rewrite length_app, IH, line_of_cases.
  unfold in_class, classify. simpl.
  destruct (expiry_time info) as [e|]; [|reflexivity].
  destruct (TimeManager.is_expired t e); [simpl; lia|].
  destruct (TimeManager.get_remaining_days t e <=? 3); simpl; lia.
Qed.

(** [check_expired_accounts] lists as expired exactly the accounts whose
    expiry time is before the clock reading, and as expiring exactly those
    whose expiry time is at most four days (exclusive) after it, each with
    the time left as [format_remaining_time] shows it; an account without
    an expiry time is in neither list.  The closing line is "所有账户都在
    有效期内" exactly when nothing was listed, and otherwise gives two
    counts that add up to the number of lines. *)
Theorem check_expired_accounts_report stdin w :
  exists lines closing,
    PhoneAccountSystem.check_expired_accounts stdin w
    = Ret (lines, closing) stdin w []
    /\ (forall phone,
          In (PhoneAccountSystem.LineExpired phone) lines <->
          exists info e,
            In (phone, info) (accounts w) /\ expiry_time info = Some e
            /\ e < now w)
    /\ (forall phone left,
          In (PhoneAccountSystem.LineExpiring phone left) lines <->
          exists info e,
            In (phone, info) (accounts w) /\ expiry_time info = Some e
            /\ now w <= e < now w + 4 * TimeManager.DAY
            /\ left = TimeManager.format_remaining_time (now w) e)
    /\ (closing = PhoneAccountSystem.AllValid <-> lines = [])
    /\ (forall expired_count expiring_count,
          closing = PhoneAccountSystem.Counts expired_count expiring_count ->
          (expired_count + expiring_count)%nat = List.length lines).
Proof.
  unfold PhoneAccountSystem.check_expired_accounts.
  rewrite scan_accounts_classify. cbn [app Nat.add].
  eexists _, _. split; [reflexivity|].
  pose proof (report_length (now w) (accounts w)) as Hlen.
  set (lines := flat_map (line_of (now w)) (accounts w)) in *.
  set (x := count_class (now w) ClassExpired (accounts w)) in *.
  set (y := count_class (now w) ClassExpiring (accounts w)) in *.
  split; [|split; [|split]].
  - intros phone. unfold lines. rewrite in_flat_map. split.
    + intros ([k info] & Hin & Hl). rewrite line_of_cases in Hl.
      destruct (expiry_time info) as [e|] eqn:He; [|destruct Hl].
      destruct (TimeManager.is_expired (now w) e) eqn:Hx.
      * destruct Hl as [Hl|[]]. injection Hl as ->.
        exists info, e. repeat split; auto. now apply Z.ltb_lt in Hx.
      * destruct (TimeManager.get_remaining_days (now w) e <=? 3);
          [destruct Hl as [Hl|[]]; discriminate Hl|destruct Hl].
    + intros (info & e & Hin & He & Hx).
      exists (phone, info). split; [exact Hin|].
      rewrite line_of_cases, He. unfold TimeManager.is_expired.
      apply Z.ltb_lt in Hx. rewrite Hx. now left.
  - intros phone left. unfold lines. rewrite in_flat_map. split.
    + intros ([k info] & Hin & Hl). rewrite line_of_cases in Hl.
      destruct (expiry_time info) as [e|] eqn:He; [|destruct Hl].
      destruct (TimeManager.is_expired (now w) e) eqn:Hx;
        [destruct Hl as [Hl|[]]; discriminate Hl|].
      apply Z.ltb_ge in Hx.
      rewrite (remaining_days_window _ _ Hx) in Hl.
      destruct (e <? now w + 4 * TimeManager.DAY) eqn:Hw; [|destruct Hl].
      destruct Hl as [Hl|[]]. injection Hl as -> <-.
      apply Z.ltb_lt in Hw. exists info, e. repeat split; auto.
    + intros (info & e & Hin & He & [Hlo Hhi] & ->).
      exists (phone, info). split; [exact Hin|].
      rewrite line_of_cases, He. unfold TimeManager.is_expired.
      assert (Hx : (e <? now w) = false) by now apply Z.ltb_ge.
      rewrite Hx, (remaining_days_window _ _ Hlo).
      apply Z.ltb_lt in Hhi. rewrite Hhi. now left.
  - destruct (Nat.eqb x 0 && Nat.eqb y 0) eqn:E.
    + apply andb_prop in E. destruct E as [Ex Ey].
      apply Nat.eqb_eq in Ex, Ey. rewrite Ex, Ey in Hlen.
      split; [intros _|reflexivity]. now apply length_zero_iff_nil.
    + split; [discriminate|]. intros Hnil. rewrite Hnil in Hlen.
      simpl in Hlen. assert (x = 0%nat /\ y = 0%nat) as [Ex Ey] by lia.
      rewrite Ex, Ey in E. discriminate E.
  - intros ec xc. destruct (Nat.eqb x 0 && Nat.eqb y 0); [discriminate|].
    intros E. injection E as <- <-. now rewrite Hlen.
Qed.

(* ================================================================== *)
(** ** Looking an account up *)

Lemma dict_get_In (d : dict) k v : dict_get d k = Some v -> In (k, v) d.
Proof.
  induction d as [|[k0 v0] r IH]; simpl; [discriminate|].
  destruct (String.eqb k0 k) eqn:E; [|auto].
  apply String.eqb_eq in E. subst k0. intros Hv. injection Hv as <-. now left.
Qed.

Lemma In_dict_mem (d : dict) k v : In (k, v) d -> dict_mem d k = true.
Proof.
  unfold dict_mem. induction d as [|[k0 v0] r IH]; simpl; [intros []|].
  intros [E|Hin].
  - injection E as -> ->. now rewrite String.eqb_refl.
  - destruct (String.eqb k0 k); [reflexivity|auto].
Qed.

Lemma find_by_tail_Some identifier (d : dict) phone :
  PhoneAccountSystem.find_by_tail identifier d = Some phone ->
  exists info, In (phone, info) d /\ last_four info = identifier.
Proof.
  induction d as [|[k0 v0] r IH]; simpl; [discriminate|].
  destruct (String.eqb (last_four v0) identifier) eqn:E.
  - intros Hp. injection Hp as <-. apply String.eqb_eq in E. eauto.
  - intros Hp. destruct (IH Hp) as (info & Hin & Hl). eauto.
Qed.

Lemma find_by_tail_None identifier (d : dict) :
  PhoneAccountSystem.find_by_tail identifier d = None ->
  forall phone info, In (phone, info) d -> last_four info <> identifier.
Proof.
  induction d as [|[k0 v0] r IH]; simpl; [intros _ ? ? []|].
  destruct (String.eqb (last_four v0) identifier) eqn:E; [discriminate|].
  intros Hn phone info [Hin|Hin].
  - injection Hin as <- <-. now apply String.eqb_neq.
  - now apply (IH Hn phone info).
Qed.

(** Where no two entries share their last four digits, the search by tail
    finds the entry that holds them. *)
Lemma find_by_tail_unique (d : dict) phone info :
  NoDup (map tail_of d) -> In (phone, info) d ->
  PhoneAccountSystem.find_by_tail (last_four info) d = Some phone.
Proof.
  induction d as [|[k0 v0] r IH]; simpl; [intros _ []|].
  intros Hnd Hin. inversion Hnd as [|? ? Hnotin Hnd']; subst.
  destruct Hin as [E|Hin].
  - injection E as -> ->. now rewrite String.eqb_refl.
  - destruct (String.eqb (last_four v0) (last_four info)) eqn:E; [|auto].
    apply String.eqb_eq in E. exfalso. apply Hnotin.
    change (tail_of (k0, v0)) with (last_four v0). rewrite E.
    change (last_four info) with (tail_of (phone, info)).
    now apply in_map.
Qed.

Lemma find_account_found identifier (d : dict) phone message :
  PhoneAccountSystem.find_account identifier d = (Some phone, message) ->
  exists info, In (phone, info) d.
Proof.
  unfold PhoneAccountSystem.find_account.
  destruct (SecurityManager.validate_phone identifier).
  - unfold dict_mem. destruct (dict_get d identifier) as [info|] eqn:Hget;
      [|discriminate].
    intros E. injection E as <- _. exists info. now apply dict_get_In.
  - destruct (negb (Str.len identifier =? 4) || negb (Str.isdigit identifier));
      [discriminate|].
    destruct (PhoneAccountSystem.find_by_tail identifier d) as [p|] eqn:Ht;
      [|discriminate].
    intros E. injection E as <- _.
    destruct (find_by_tail_Some _ _ _ Ht) as (info & Hin & _). eauto.
Qed.

(** [find_account] answers with a phone only when the store holds an
    account for it that the identifier names, by its number or, for an
    identifier that is not a phone number, by its last four digits; and
    each of its three refusals says what was wrong. *)
Theorem find_account_sound identifier (d : dict) :
  match PhoneAccountSystem.find_account identifier d with
  | (Some phone, message) =>
      message = MsgFound
      /\ exists info,
           In (phone, info) d
           /\ (SecurityManager.validate_phone identifier = true
               /\ identifier = phone
               \/ SecurityManager.validate_phone identifier = false
                  /\ last_four info = identifier)
  | (None, MsgPhoneNotRegistered) =>
      SecurityManager.validate_phone identifier = true
      /\ dict_get d identifier = None
  | (None, MsgTailFormat) =>
      SecurityManager.validate_phone identifier = false
      /\ (String.length identifier <> 4%nat
          \/ Str.isdigit identifier = false)
  | (None, MsgTailNotFound) =>
      SecurityManager.validate_phone identifier = false
      /\ forall phone info, In (phone, info) d -> last_four info <> identifier
  | (None, _) => False
  end.
Proof.
  unfold PhoneAccountSystem.find_account.
  destruct (SecurityManager.validate_phone identifier) eqn:Hv.
  - unfold dict_mem. destruct (dict_get d identifier) as [info|] eqn:Hget.
    + split; [reflexivity|]. exists info. split; [now apply dict_get_In|].
      now left.
    + now split.
  - destruct (negb (Str.len identifier =? 4) || negb (Str.isdigit identifier))
      eqn:Hf.
    + split; [reflexivity|]. apply orb_prop in Hf. destruct Hf as [Hf|Hf].
      * left. apply negb_true_iff, Z.eqb_neq in Hf. unfold Str.len in Hf. lia.
      * right. now apply negb_true_iff in Hf.
    + destruct (PhoneAccountSystem.find_by_tail identifier d) as [phone|]
        eqn:Ht.
      * split; [reflexivity|].
        destruct (find_by_tail_Some _ _ _ Ht) as (info & Hin & Hl).
        exists info. split; [exact Hin|]. now right.
      * split; [reflexivity|]. now apply find_by_tail_None.
Qed.

Lemma phone_shape_validate s :
  phone_shape s = true -> SecurityManager.validate_phone s = true.
Proof.
  intros Hs. apply classes_ok_phone_shape in Hs.
  unfold SecurityManager.validate_phone, SecurityManager.re_match.
  rewrite <- (append_empty_r s).
  now rewrite (match_classes_append _ s EmptyString Hs).
Qed.

(** The last four characters of a phone number are four digits, and are
    not a phone number. *)
Lemma phone_shape_suffix s :
  phone_shape s = true ->
  SecurityManager.validate_phone (Str.suffix 4 s) = false
  /\ Str.len (Str.suffix 4 s) = 4
  /\ Str.isdigit (Str.suffix 4 s) = true.
Proof.
  unfold phone_shape.
  do 11 (destruct s as [|? s]; [cbn; rewrite ?andb_false_r; discriminate|]).
  destruct s as [|? s]; [|cbn; rewrite ?andb_false_r; discriminate].
  cbn -[Ascii.eqb Str.between Str.isdecimal]. rewrite !andb_true_iff.
  intros Hyp.
  repeat match goal with
    | Hc : _ /\ _ |- _ => destruct Hc
    end.
  split; [|split].
  - unfold SecurityManager.validate_phone, SecurityManager.re_match.
    cbn -[Ascii.eqb Str.between Str.isdecimal].
    repeat match goal with
      | |- context [if ?c then _ else _] => destruct c
      end; reflexivity.
  - reflexivity.
  - repeat split; unfold Str.isdigit_char;
      match goal with
      | E : Str.isdecimal ?c = true |- context [Str.isdecimal ?c] =>
          now rewrite E
      end.
Qed.

(** In a store that is well formed, every account is found by its phone
    number and by its last four digits. *)
Theorem find_account_complete (d : dict) phone info :
  store_ok d -> In (phone, info) d ->
  PhoneAccountSystem.find_account phone d = (Some phone, MsgFound)
  /\ PhoneAccountSystem.find_account (last_four info) d
     = (Some phone, MsgFound).
Proof.
  intros [Hall Hnd] Hin.
  pose proof (proj1 (Forall_forall _ _) Hall _ Hin) as [Hshape Hl].
  simpl in Hshape, Hl. split.
  - unfold PhoneAccountSystem.find_account.
    now rewrite (phone_shape_validate _ Hshape), (In_dict_mem _ _ _ Hin).
  - destruct (phone_shape_suffix _ Hshape) as (Hv & Hlen & Hdig).
    unfold PhoneAccountSystem.find_account.
    rewrite <- Hl in Hv, Hlen, Hdig. rewrite Hv, Hlen, Hdig. simpl.
    now rewrite (find_by_tail_unique d phone info Hnd Hin).
Qed.

Lemma find_account_complete_witness :
  PhoneAccountSystem.find_account Demo.phone Demo.store50
  = (Some Demo.phone, MsgFound)
  /\ PhoneAccountSystem.find_account "1234" Demo.store50
     = (Some Demo.phone, MsgFound).
Proof.
  apply (find_account_complete Demo.store50 Demo.phone Demo.account50).
  - split.
    + repeat constructor.
    + repeat constructor. intros [].
  - now left.
Defined.

(* ================================================================== *)
(** ** What every command leaves of an account *)

(** The commands other than registration, for a relation between worlds
    that the four assignments of [update] and a change of the disk
    respect. *)
Section Commands.
Context `{Builtins}.
Variable R : World -> World -> Prop.
Hypothesis R_refl : forall w, R w w.
Hypothesis R_trans : forall w1 w2 w3, R w1 w2 -> R w2 w3 -> R w1 w3.
Hypothesis R_disk :
  forall w df ws, R w (mkWorld (accounts w) df (now w) ws (github_enabled w)).
Hypothesis R_update :
  forall phone f w a,
    update f -> dict_get (accounts w) phone = Some a ->
    R w (with_accounts (dict_set (accounts w) phone (f a)) w).

#[local] Hint Resolve R_refl R_trans R_disk : keeps.
#[local] Hint Extern 1 (R _ (with_accounts (dict_set _ _ (_ _)) _)) =>
  (apply R_update; [constructor|assumption]) : keeps.

Lemma check_account_status_keeps phone :
  keeps R any_event (AccountManager.check_account_status phone).
Proof. unfold AccountManager.check_account_status. keeps_tac. Qed.

Lemma password_attempts_keeps n stored :
  keeps R any_event (AccountManager.password_attempts n stored).
Proof.
  induction n as [|n IH]; intros stdin w;
    cbn [AccountManager.password_attempts]; [loop_tac|].
  destruct stdin as [|line rest]; loop_tac.
Qed.

Lemma answer_attempts_keeps n stored :
  keeps R any_event (AccountManager.answer_attempts n stored).
Proof.
  induction n as [|n IH]; intros stdin w;
    cbn [AccountManager.answer_attempts]; [loop_tac|].
  destruct stdin as [|line rest]; loop_tac.
Qed.

Lemma authenticate_with_password_keeps phone :
  keeps R any_event (AccountManager.authenticate_with_password phone).
Proof.
  unfold AccountManager.authenticate_with_password.
  apply keeps_bind; [eauto with keeps|apply check_account_status_keeps|].
  intros checked. destruct (negb (fst checked)); [keeps_tac|].
  apply keeps_bind; [eauto with keeps|keeps_tac|intros info].
  apply password_attempts_keeps.
Qed.

Lemma authenticate_with_security_question_keeps phone :
  keeps R any_event (AccountManager.authenticate_with_security_question phone).
Proof.
  unfold AccountManager.authenticate_with_security_question.
  apply keeps_bind; [eauto with keeps|keeps_tac|intros info].
  apply keeps_bind; [eauto with keeps|keeps_tac|intros _].
  apply answer_attempts_keeps.
Qed.

Lemma new_password_loop_keeps phone :
  keeps R any_event (AccountManager.new_password_loop phone).
Proof.
  intros stdin. induction stdin as [stdin IH] using console_ind.
  intros w. destruct stdin as [|line rest];
    cbn [AccountManager.new_password_loop]; loop_tac.
Qed.

Lemma AccountManager_reset_password_keeps phone :
  keeps R any_event (AccountManager.reset_password phone).
Proof.
  unfold AccountManager.reset_password.
  apply keeps_bind;
    [eauto with keeps|apply authenticate_with_security_question_keeps|].
  intros auth. destruct (negb (fst auth)); [keeps_tac|].
  apply new_password_loop_keeps.
Qed.

Lemma apply_recharge_keeps phone amount :
  keeps R any_event (PhoneAccountSystem.apply_recharge phone amount).
Proof. unfold PhoneAccountSystem.apply_recharge. keeps_tac. Qed.

Lemma apply_deduct_keeps phone amount :
  keeps R any_event (PhoneAccountSystem.apply_deduct phone amount).
Proof. unfold PhoneAccountSystem.apply_deduct. keeps_tac. Qed.

Lemma recharge_amount_keeps phone :
  keeps R any_event (PhoneAccountSystem.recharge_amount phone).
Proof.
  intros stdin. induction stdin as [|line rest IH]; intros w;
    cbn [PhoneAccountSystem.recharge_amount]; loop_tac.
  apply apply_recharge_keeps.
Qed.

Lemma deduct_amount_keeps phone :
  keeps R any_event (PhoneAccountSystem.deduct_amount phone).
Proof.
  intros stdin. induction stdin as [|line rest IH]; intros w;
    cbn [PhoneAccountSystem.deduct_amount]; loop_tac.
  apply apply_deduct_keeps.
Qed.

Lemma recharge_keeps : keeps R any_event PhoneAccountSystem.recharge.
Proof.
  intros stdin. induction stdin as [|line rest IH]; intros w;
    cbn [PhoneAccountSystem.recharge]; [loop_tac|].
  apply post_pre; [quiet_tac|]. cbv zeta.
  destruct (NavigationManager.handle_back_choice (Str.strip line));
    [loop_tac|].
  destruct (PhoneAccountSystem.find_account (Str.strip line) (accounts w))
    as [[phone|] message]; [|loop_tac].
  apply post_bind;
    [eauto with keeps|apply authenticate_with_password_keeps|].
  intros auth. destruct (negb (fst auth)); [keeps_tac|].
  apply recharge_amount_keeps.
Qed.

Lemma deduct_keeps : keeps R any_event PhoneAccountSystem.deduct.
Proof.
  intros stdin. induction stdin as [|line rest IH]; intros w;
    cbn [PhoneAccountSystem.deduct]; [loop_tac|].
  apply post_pre; [quiet_tac|]. cbv zeta.
  destruct (NavigationManager.handle_back_choice (Str.strip line));
    [loop_tac|].
  destruct (PhoneAccountSystem.find_account (Str.strip line) (accounts w))
    as [[phone|] message]; [|loop_tac].
  apply post_bind;
    [eauto with keeps|apply authenticate_with_password_keeps|].
  intros auth. destruct (negb (fst auth)); [keeps_tac|].
  apply deduct_amount_keeps.
Qed.

Lemma reset_password_keeps : keeps R any_event PhoneAccountSystem.reset_password.
Proof.
  intros stdin. induction stdin as [|line rest IH]; intros w;
    cbn [PhoneAccountSystem.reset_password]; [loop_tac|].
  apply post_pre; [quiet_tac|]. cbv zeta.
  destruct (NavigationManager.handle_back_choice (Str.strip line));
    [loop_tac|].
  destruct (PhoneAccountSystem.find_account (Str.strip line) (accounts w))
    as [[phone|] message]; [|loop_tac].
  apply post_bind;
    [eauto with keeps|apply AccountManager_reset_password_keeps|].
  intros result. keeps_tac.
Qed.

Lemma get_balance_keeps : keeps R any_event PhoneAccountSystem.get_balance.
Proof.
  intros stdin. induction stdin as [|line rest IH]; intros w;
    cbn [PhoneAccountSystem.get_balance]; [loop_tac|].
  apply post_pre; [quiet_tac|]. cbv zeta.
  destruct (NavigationManager.handle_back_choice (Str.strip line));
    [loop_tac|].
  destruct (PhoneAccountSystem.find_account (Str.strip line) (accounts w))
    as [[phone|] message]; [|loop_tac].
  apply post_bind; [eauto with keeps|apply keeps_account_of; auto with keeps|].
  intros info. keeps_tac.
Qed.

Lemma lift_keeps {A} (f : A -> PhoneAccountSystem.shown) (m : Op A) :
  keeps R any_event m -> keeps R any_event (PhoneAccountSystem.lift f m).
Proof.
  intros Hm. unfold PhoneAccountSystem.lift.
  apply keeps_bind; [eauto with keeps|exact Hm|]. intros x. keeps_tac.
Qed.

(** Every command of the menu other than registration keeps [R]. *)
Lemma command_cases choice op :
  PhoneAccountSystem.command choice = Some op ->
  op = PhoneAccountSystem.lift PhoneAccountSystem.ShownResult
         PhoneAccountSystem.register_phone
  \/ keeps R any_event op.
Proof.
  unfold PhoneAccountSystem.command. intros E.
  repeat match type of E with
    | (if ?c then _ else _) = _ => destruct c
    end;
    try discriminate; injection E as <-; [now left|right..];
    apply lift_keeps.
  - apply recharge_keeps.
  - apply deduct_keeps.
  - apply get_balance_keeps.
  - apply reset_password_keeps.
  - intros stdin w. unfold PhoneAccountSystem.list_all_accounts.
    destruct (accounts w); simpl; split; auto with keeps.
  - intros stdin w. unfold PhoneAccountSystem.check_expired_accounts.
    destruct (PhoneAccountSystem.scan_accounts _ _ _ _ _) as [[? ?] ?].
    simpl. split; auto with keeps.
Qed.

(** Every command of the menu keeps [R] once registration does. *)
Lemma command_keeps choice op :
  keeps R any_event PhoneAccountSystem.register_phone ->
  PhoneAccountSystem.command choice = Some op -> keeps R any_event op.
Proof.
  intros Hreg E. destruct (command_cases choice op E) as [->|K]; [|exact K].
  now apply lift_keeps.
Qed.

End Commands.

Lemma same_identity_refl info : same_identity info info.
Proof. unfold same_identity. tauto. Qed.

Lemma same_identity_trans a b c :
  same_identity a b -> same_identity b c -> same_identity a c.
Proof.
  unfold same_identity.
  intros (A1 & A2 & A3 & A4 & A5 & A6 & A7 & A8)
         (B1 & B2 & B3 & B4 & B5 & B6 & B7 & B8).
  repeat split; try congruence. auto.
Qed.

Lemma same_identity_update f a : update f -> same_identity a (f a).
Proof.
  intros U. destruct U; unfold same_identity; simpl; repeat split; auto.
Qed.

Lemma grows_refl w : grows w w.
Proof. intros phone info Hget. exists info. auto using same_identity_refl. Qed.

Lemma grows_trans w1 w2 w3 : grows w1 w2 -> grows w2 w3 -> grows w1 w3.
Proof.
  intros G1 G2 phone info Hget.
  destruct (G1 phone info Hget) as (i2 & H2 & S2).
  destruct (G2 phone i2 H2) as (i3 & H3 & S3).
  exists i3. eauto using same_identity_trans.
Qed.

Lemma grows_disk w df ws :
  grows w (mkWorld (accounts w) df (now w) ws (github_enabled w)).
Proof. intros phone info Hget. exists info. auto using same_identity_refl. Qed.

Lemma grows_update phone f w a :
  update f -> dict_get (accounts w) phone = Some a ->
  grows w (with_accounts (dict_set (accounts w) phone (f a)) w).
Proof.
  intros U Hget k info Hk. simpl.
  destruct (String.eqb k phone) eqn:E.
  - apply String.eqb_eq in E. subst k. rewrite dict_get_set_same.
    exists (f a). assert (info = a) by congruence. subst info.
    auto using same_identity_update.
  - apply String.eqb_neq in E. rewrite dict_get_set_other by exact E.
    exists info. auto using same_identity_refl.
Qed.

Lemma frame_grows w w' : frame w w' -> grows w w'.
Proof.
  intros [_ F] phone info Hget. exists info.
  auto using same_identity_refl.
Qed.

Lemma command_grows `{Builtins} choice op :
  PhoneAccountSystem.command choice = Some op -> keeps grows any_event op.
Proof.
  apply (command_keeps grows grows_refl grows_trans grows_disk grows_update).
  intros stdin w. pose proof (register_phone_post stdin w) as Hp.
  destruct (PhoneAccountSystem.register_phone stdin w); simpl in *.
  - destruct Hp as (_ & F & _). split; [now apply frame_grows|quiet_tac].
  - destruct Hp as (F & _). split; [now apply frame_grows|quiet_tac].
Qed.

(** No command of the menu removes an account or changes what
    registration fixed of it: whatever is typed, and whether the command
    returns or raises, every account that was in the store is still there
    with the same last four digits, registration bonus, validity period
    ([valid_days], [created_at], [expiry_time]) and security question and
    answer. *)
Theorem accounts_keep_identity `{Builtins} choice op stdin w phone info :
  PhoneAccountSystem.command choice = Some op ->
  dict_get (accounts w) phone = Some info ->
  exists info',
    dict_get (accounts (final_world (op stdin w))) phone = Some info'
    /\ last_four info' = last_four info
    /\ registration_bonus info' = registration_bonus info
    /\ valid_days info' = valid_days info
    /\ created_at info' = created_at info
    /\ expiry_time info' = expiry_time info
    /\ security_question info' = security_question info
    /\ security_answer info' = security_answer info.
Proof.
  intros Hop Hget. pose proof (command_grows choice op Hop stdin w) as Hp.
  assert (G : grows w (final_world (op stdin w)))
    by (destruct (op stdin w); simpl in *; now destruct Hp).
  destruct (G phone info Hget) as (info' & Hget' & S).
  exists info'. split; [exact Hget'|].
  unfold same_identity in S. tauto.
Qed.

Lemma accounts_keep_identity_witness :
  exists info',
    dict_get
      (accounts
         (final_world
            (PhoneAccountSystem.lift PhoneAccountSystem.ShownResult
               (@PhoneAccountSystem.recharge Demo.builtins)
               [Demo.phone; Demo.pin; "25.5"] Demo.world50)))
      Demo.phone = Some info'
    /\ registration_bonus info' = 50%float
    /\ expiry_time info' = Some (Demo.t0 + 30 * TimeManager.DAY).
Proof.
  destruct (@accounts_keep_identity Demo.builtins "2"
              (PhoneAccountSystem.lift PhoneAccountSystem.ShownResult
                 (@PhoneAccountSystem.recharge Demo.builtins))
              [Demo.phone; Demo.pin; "25.5"] Demo.world50
              Demo.phone Demo.account50 eq_refl eq_refl)
    as (info' & G & _ & B & _ & _ & E & _).
  exists info'. split; [exact G|]. split; [exact B|exact E].
Defined.

(** An account that is marked expired stays marked expired: no command of
    the menu sets the status of an account of the store to anything
    else. *)
Theorem expired_stays_expired `{Builtins} choice op stdin w phone info :
  PhoneAccountSystem.command choice = Some op ->
  dict_get (accounts w) phone = Some info ->
  status info = StatusExpired ->
  exists info',
    dict_get (accounts (final_world (op stdin w))) phone = Some info'
    /\ status info' = StatusExpired.
Proof.
  intros Hop Hget Hst. pose proof (command_grows choice op Hop stdin w) as Hp.
  assert (G : grows w (final_world (op stdin w)))
    by (destruct (op stdin w); simpl in *; now destruct Hp).
  destruct (G phone info Hget) as (info' & Hget' & S).
  exists info'. split; [exact Hget'|].
  unfold same_identity in S. tauto.
Qed.

Lemma expired_stays_expired_witness :
  exists info',
    dict_get
      (accounts
         (final_world
            (PhoneAccountSystem.lift PhoneAccountSystem.ShownResult
               (@PhoneAccountSystem.reset_password Demo.builtins)
               [Demo.phone; "blue"; "4321"; "4321"]
               (Demo.world
                  [(Demo.phone, set_status StatusExpired Demo.account50)]
                  Demo.t0 []))))
      Demo.phone = Some info'
    /\ status info' = StatusExpired.
Proof.
  apply (@expired_stays_expired Demo.builtins "5"
           (PhoneAccountSystem.lift PhoneAccountSystem.ShownResult
              (@PhoneAccountSystem.reset_password Demo.builtins))
           [Demo.phone; "blue"; "4321"; "4321"]
           (Demo.world [(Demo.phone, set_status StatusExpired Demo.account50)]
              Demo.t0 [])
           Demo.phone (set_status StatusExpired Demo.account50)
           eq_refl eq_refl eq_refl).
Defined.

(* ================================================================== *)
(** ** The store stays well formed *)

(** [s.strip()] never ends in a white-space character. *)
Lemma rstrip_last s :
  forall body c,
    Str.rstrip s = (body ++ String c EmptyString)%string ->
    Str.isspace c = false.
Proof.
  induction s as [|a r IH]; intros body c; simpl.
  - destruct body; discriminate.
  - destruct (Str.rstrip r) as [|x y] eqn:Er.
    + destruct (Str.isspace a) eqn:Ea.
      * destruct body; discriminate.
      * destruct body as [|b body']; simpl; intros E.
        -- now injection E as <-.
        -- injection E as _ E. destruct body'; discriminate.
    + destruct body as [|b body']; simpl; intros E.
      * discriminate.
      * injection E as _ E. now apply (IH body' c).
Qed.

(** A stripped line that [validate_phone] accepts has the shape of a phone
    number: the newline that [$] lets through cannot be there. *)
Lemma validate_phone_strip line :
  SecurityManager.validate_phone (Str.strip line) = true ->
  phone_shape (Str.strip line) = true.
Proof.
  unfold SecurityManager.validate_phone, SecurityManager.re_match.
  destruct (SecurityManager.match_classes SecurityManager.phone_pattern
              (Str.strip line)) as [rest|] eqn:E; [|discriminate].
  intros Hd. apply match_classes_Some in E. destruct E as (body & E & Hok).
  apply dollar_true in Hd. destruct Hd as [-> | ->].
  - rewrite E, append_empty_r. now apply classes_ok_phone_shape.
  - unfold Str.strip in E. apply rstrip_last in E. discriminate E.
Qed.

Lemma dict_set_absent (d : dict) k v :
  dict_get d k = None -> dict_set d k v = d ++ [(k, v)].
Proof.
  induction d as [|[k0 v0] r IH]; simpl; [reflexivity|].
  destruct (String.eqb k0 k); [discriminate|].
  intros E. now rewrite IH.
Qed.

Lemma tail_conflict_None last4 (d : dict) :
  PhoneAccountSystem.tail_conflict last4 d = None ->
  ~ In last4 (map tail_of d).
Proof.
  induction d as [|[k0 v0] r IH]; simpl; [tauto|].
  destruct (String.eqb (last_four v0) last4) eqn:E; [discriminate|].
  apply String.eqb_neq in E. intros Hn [Hin|Hin]; [now apply E|].
  now apply IH.
Qed.

Lemma map_tail_set (d : dict) k v a :
  dict_get d k = Some a -> last_four v = last_four a ->
  map tail_of (dict_set d k v) = map tail_of d.
Proof.
  intros Hget Hl. induction d as [|[k0 v0] r IH]; simpl in *; [discriminate|].
  destruct (String.eqb k0 k) eqn:E; simpl.
  - injection Hget as ->. unfold tail_of. simpl. now rewrite Hl.
  - now rewrite IH.
Qed.

Lemma store_ok_set (d : dict) k f a :
  (forall x, last_four (f x) = last_four x) ->
  dict_get d k = Some a -> store_ok d -> store_ok (dict_set d k (f a)).
Proof.
  intros Hf Hget [Hall Hnd]. split.
  - apply dict_set_Forall; [exact Hall|].
    destruct (dict_get_Forall _ _ _ _ Hall Hget) as [Hs Hl].
    split; [exact Hs|]. simpl in *. now rewrite Hf.
  - now rewrite (map_tail_set d k (f a) a Hget (Hf a)).
Qed.

Lemma store_ok_create (d : dict) phone bonus :
  phone_shape phone = true -> dict_get d phone = None ->
  PhoneAccountSystem.tail_conflict (Str.suffix 4 phone) d = None ->
  store_ok d ->
  store_ok
    (dict_set d phone
       (PhoneAccountSystem.new_account bonus (Str.suffix 4 phone))).
Proof.
  intros Hs Habs Htail [Hall Hnd]. rewrite (dict_set_absent _ _ _ Habs).
  split.
  - apply Forall_app. split; [exact Hall|]. repeat constructor. exact Hs.
  - rewrite map_app. apply NoDup_app; [exact Hnd| |].
    + repeat constructor. intros [].
    + intros t Hin [E|[]]. unfold tail_of in E. simpl in E. subst t.
      now apply (tail_conflict_None _ _ Htail).
Qed.

Lemma store_ok_del (d : dict) k : store_ok d -> store_ok (dict_del d k).
Proof.
  intros [Hall Hnd]. split; [now apply dict_del_Forall|].
  clear Hall. induction d as [|[k0 v0] r IH]; simpl; [constructor|].
  inversion Hnd as [|? ? Hnotin Hnd']; subst.
  destruct (String.eqb k0 k); [exact Hnd'|].
  simpl. constructor; [|now apply IH].
  intros Hin. apply Hnotin. clear - Hin.
  induction r as [|[k1 v1] r IH]; simpl in *; [exact Hin|].
  destruct (String.eqb k1 k); [now right|].
  destruct Hin as [E|Hin]; [now left|right; now apply IH].
Qed.

Lemma ok_refl w : keeps_store_ok w w.
Proof. now intros Hw. Qed.

Lemma ok_trans w1 w2 w3 :
  keeps_store_ok w1 w2 -> keeps_store_ok w2 w3 -> keeps_store_ok w1 w3.
Proof. unfold keeps_store_ok. auto. Qed.

Lemma ok_disk w df ws :
  keeps_store_ok w (mkWorld (accounts w) df (now w) ws (github_enabled w)).
Proof. now intros Hw. Qed.

Lemma ok_modify phone f w a :
  (forall x, last_four (f x) = last_four x) ->
  dict_get (accounts w) phone = Some a ->
  keeps_store_ok w (with_accounts (dict_set (accounts w) phone (f a)) w).
Proof. intros Hf Hget Hw. now apply store_ok_set. Qed.

Lemma ok_update phone f w a :
  update f -> dict_get (accounts w) phone = Some a ->
  keeps_store_ok w (with_accounts (dict_set (accounts w) phone (f a)) w).
Proof. intros U. destruct U; now apply ok_modify. Qed.

Lemma same_store_ok w w' : same_store w w' -> keeps_store_ok w w'.
Proof. intros [_ E] Hw. now rewrite E. Qed.

#[local] Hint Resolve ok_refl ok_trans ok_disk : keeps.
#[local] Hint Extern 1
  (keeps_store_ok _ (with_accounts (dict_set _ _ (_ _)) _)) =>
  (apply ok_modify; [reflexivity|assumption]) : keeps.

Section StoreFacts.
Context `{Builtins}.

Lemma store_valid_days_ok phone n :
  keeps keeps_store_ok any_event (AccountManager.store_valid_days phone n).
Proof. unfold AccountManager.store_valid_days. keeps_tac. Qed.

Lemma set_valid_days_ok phone :
  keeps keeps_store_ok any_event (AccountManager.set_valid_days phone).
Proof.
  intros stdin. induction stdin as [|line rest IH]; intros w;
    cbn [AccountManager.set_valid_days]; loop_tac.
  apply store_valid_days_ok.
Qed.

Lemma password_loop_ok phone :
  keeps keeps_store_ok any_event (AccountManager.password_loop phone).
Proof.
  intros stdin. induction stdin as [stdin IH] using console_ind.
  intros w. destruct stdin as [|password rest];
    cbn [AccountManager.password_loop]; loop_tac.
Qed.

Lemma answer_loop_ok phone q :
  keeps keeps_store_ok any_event (AccountManager.answer_loop phone q).
Proof.
  intros stdin. induction stdin as [stdin IH] using console_ind.
  intros w. destruct stdin as [|line rest];
    cbn [AccountManager.answer_loop]; loop_tac.
Qed.

Lemma set_password_and_security_ok phone :
  keeps keeps_store_ok any_event
    (AccountManager.set_password_and_security phone).
Proof.
  unfold AccountManager.set_password_and_security.
  apply keeps_bind; [eauto with keeps|apply password_loop_ok|intros stored].
  destruct (negb stored); [keeps_tac|].
  apply keeps_bind; [eauto with keeps| |intros choice].
  { eapply keeps_weaken; [| |apply question_loop_keeps]; auto.
    - intros w w'. apply same_store_ok.
    - intros ev _. exact I. }
  destruct choice as [q|]; [|keeps_tac].
  apply keeps_bind; [eauto with keeps|apply answer_loop_ok|intros stored'].
  destruct (negb stored'); keeps_tac.
Qed.

Lemma delete_account_ok phone :
  keeps keeps_store_ok any_event (PhoneAccountSystem.delete_account phone).
Proof.
  intros stdin w. unfold PhoneAccountSystem.delete_account.
  destruct (dict_mem (accounts w) phone); simpl; split; auto with keeps.
  intros Hw. now apply store_ok_del.
Qed.

Lemma register_account_ok phone stdin w :
  phone_shape phone = true -> dict_get (accounts w) phone = None ->
  PhoneAccountSystem.tail_conflict (Str.suffix 4 phone) (accounts w) = None ->
  post (keeps_store_ok w) any_event
    (PhoneAccountSystem.register_account phone (Str.suffix 4 phone) stdin w).
Proof.
  intros Hs Habs Htail. unfold PhoneAccountSystem.register_account.
  unfold bind at 1.
  pose proof (set_registration_bonus_keeps phone stdin w) as Hk.
  destruct (AccountManager.set_registration_bonus phone stdin w)
    as [[m|bonus] s1 w1 o1|e w1 o1]; simpl in Hk; destruct Hk as [Hst _].
  - simpl. split; [now apply same_store_ok|quiet_tac].
  - apply post_pre; [quiet_tac|].
    eapply post_weaken;
      [intros w2; apply ok_trans; apply same_store_ok; exact Hst|].
    apply post_bind; [eauto with keeps| |intros _].
    { unfold PhoneAccountSystem.create_account. simpl. split; [|quiet_tac].
      destruct Hst as [_ Ea]. intros Hw. simpl. rewrite Ea in *.
      now apply store_ok_create. }
    apply keeps_bind; [eauto with keeps|apply set_valid_days_ok|].
    intros valid. destruct (negb (fst valid)).
    { apply keeps_bind; [eauto with keeps|apply delete_account_ok|].
      intros _. keeps_tac. }
    apply keeps_bind;
      [eauto with keeps|apply set_password_and_security_ok|].
    intros secured. destruct (negb (fst secured)).
    { apply keeps_bind; [eauto with keeps|apply delete_account_ok|].
      intros _. keeps_tac. }
    keeps_tac.
  - simpl. split; [now apply same_store_ok|quiet_tac].
Qed.

Lemma register_phone_ok :
  keeps keeps_store_ok any_event PhoneAccountSystem.register_phone.
Proof.
  intros stdin. induction stdin as [|line rest IH]; intros w;
    cbn [PhoneAccountSystem.register_phone]; [loop_tac|].
  apply post_pre; [quiet_tac|]. cbv zeta.
  destruct (NavigationManager.handle_back_choice (Str.strip line));
    [loop_tac|].
  destruct (SecurityManager.validate_phone (Str.strip line)) eqn:Hv;
    cbn [negb]; [|loop_tac].
  destruct (dict_mem (accounts w) (Str.strip line)) eqn:Hmem; [loop_tac|].
  destruct (PhoneAccountSystem.tail_conflict (Str.suffix 4 (Str.strip line))
              (accounts w)) eqn:Htail; [loop_tac|].
  apply register_account_ok;
    auto using validate_phone_strip, dict_mem_false.
Qed.

Lemma command_ok choice op :
  PhoneAccountSystem.command choice = Some op ->
  keeps keeps_store_ok any_event op.
Proof.
  apply (command_keeps keeps_store_ok ok_refl ok_trans ok_disk ok_update).
  apply register_phone_ok.
Qed.

End StoreFacts.

(** The store stays well formed: if every key has the shape of a phone
    number, every account's [last_four] is cut from its key and no two
    accounts share their last four digits, the same holds after any command
    of the menu, whatever is typed and whether the command returns or
    raises.  (The phones that registration stores are stripped lines, so
    the newline that [validate_phone] lets through never gets into a
    key.) *)
Theorem store_stays_well_formed `{Builtins} choice op stdin w :
  PhoneAccountSystem.command choice = Some op ->
  store_ok (accounts w) ->
  store_ok (accounts (final_world (op stdin w))).
Proof.
  intros Hop Hw. pose proof (command_ok choice op Hop stdin w) as Hp.
  destruct (op stdin w); simpl in *; destruct Hp as [Hs _]; now apply Hs.
Qed.

Lemma store_stays_well_formed_witness :
  store_ok
    (accounts
       (final_world
          (PhoneAccountSystem.lift PhoneAccountSystem.ShownResult
             (@PhoneAccountSystem.register_phone Demo.builtins)
             Demo.register_stdin Demo.empty_world))).
Proof.
  apply (@store_stays_well_formed Demo.builtins "1"
           (PhoneAccountSystem.lift PhoneAccountSystem.ShownResult
              (@PhoneAccountSystem.register_phone Demo.builtins))
           Demo.register_stdin Demo.empty_world eq_refl).
  split; constructor.
Defined.

(* ================================================================== *)
(** ** What a recharge and a deduction change *)

Lemma outcome_spec_pre S F out o :
  outcome_spec S F o -> outcome_spec S F (pre out o).
Proof. destruct o as [[[] m] s w' o'|e w' o']; simpl; auto. Qed.

Lemma outcome_spec_weaken (S S' : msg -> World -> Prop) (F F' : World -> Prop)
    o :
  (forall m w, S m w -> S' m w) -> (forall w, F w -> F' w) ->
  outcome_spec S F o -> outcome_spec S' F' o.
Proof. intros HS HF. destruct o as [[[] m] s w' o'|e w' o']; simpl; auto. Qed.

Lemma final_world_pre {A} out (o : Outcome A) :
  final_world (pre out o) = final_world o.
Proof. now destruct o. Qed.

Lemma same_balances_refl w : same_balances w w.
Proof. now intros phone. Qed.

Lemma same_balances_trans w1 w2 w3 :
  same_balances w1 w2 -> same_balances w2 w3 -> same_balances w1 w3.
Proof. intros A B phone. now rewrite B, A. Qed.

(** A change of fields other than the balance. *)
Lemma same_balances_set (d : dict) phone info f :
  (forall x, balance (f x) = balance x) ->
  dict_get d phone = Some info ->
  forall k,
    option_map balance (dict_get (dict_set d phone (f info)) k)
    = option_map balance (dict_get d k).
Proof.
  intros Hf Hget k. destruct (String.eqb k phone) eqn:E.
  - apply String.eqb_eq in E. subst k.
    rewrite dict_get_set_same, Hget. simpl. now rewrite Hf.
  - apply String.eqb_neq in E. now rewrite dict_get_set_other.
Qed.

Section MutationFacts.
Context `{Builtins}.

Lemma password_attempts_world n stored :
  forall stdin w,
    final_world (AccountManager.password_attempts n stored stdin w) = w.
Proof.
  induction n as [|n IH]; intros stdin w;
    cbn [AccountManager.password_attempts]; [reflexivity|].
  destruct stdin as [|line rest]; [reflexivity|].
  rewrite final_world_pre.
  destruct (NavigationManager.handle_back_choice line); [reflexivity|].
  destruct (SecurityManager.verify_password line stored); [reflexivity|].
  destruct n; [reflexivity|]. rewrite final_world_pre. apply IH.
Qed.

(** [check_account_status] answers [True] only for an account in good
    standing and then changes nothing; otherwise it changes no balance. *)
Lemma check_account_status_spec phone stdin w :
  outcome_spec
    (fun _ w' =>
       w' = w /\ exists info, dict_get (accounts w) phone = Some info
                              /\ in_good_standing w info)
    (same_balances w)
    (AccountManager.check_account_status phone stdin w).
Proof.
  unfold AccountManager.check_account_status, bind, account_of, get_world,
    modify, ret, raise, AccountManager.save_data, FileStorageManager.save_data.
  destruct (dict_get (accounts w) phone) as [info|] eqn:Hget; cbn;
    [|apply same_balances_refl].
  destruct (Status_eqb (status info) StatusExpired) eqn:Hst; cbn;
    [apply same_balances_refl|].
  destruct (expiry_time info) as [e|] eqn:He; cbn;
    [|apply same_balances_refl].
  destruct (TimeManager.is_expired (now w) e) eqn:Hx; cbn.
  - rewrite Hget. cbn.
    destruct (writes w) as [|[] ws]; cbn; intros k; unfold balance_at; simpl;
      now apply same_balances_set.
  - split; [reflexivity|]. exists info. split; [reflexivity|].
    split; [exact Hst|]. exists e. auto.
Qed.

Lemma authenticate_with_password_spec phone stdin w :
  outcome_spec
    (fun _ w' =>
       w' = w /\ exists info, dict_get (accounts w) phone = Some info
                              /\ in_good_standing w info)
    (same_balances w)
    (AccountManager.authenticate_with_password phone stdin w).
Proof.
  unfold AccountManager.authenticate_with_password. unfold bind at 1.
  pose proof (check_account_status_spec phone stdin w) as Hc.
  destruct (AccountManager.check_account_status phone stdin w)
    as [[[] m] s1 w1 o1|e w1 o1]; simpl in Hc; cbn [fst snd negb].
  - destruct Hc as [-> (info & Hget & Hgood)].
    apply outcome_spec_pre. unfold bind, account_of. rewrite Hget.
    rewrite pre_nil.
    pose proof (password_attempts_world Config.MAX_AUTH_ATTEMPTS
                  (password info) s1 w) as Hw.
    destruct (AccountManager.password_attempts _ _ s1 w)
      as [[[] m'] s2 w2 o2|e w2 o2]; simpl in *; subst w2;
      eauto using same_balances_refl.
  - simpl. exact Hc.
  - exact Hc.
Qed.

Lemma apply_recharge_spec phone amount stdin w :
  (amount <=? 0)%float = false ->
  outcome_spec
    (fun message w' =>
       exists info,
         dict_get (accounts w) phone = Some info
         /\ message = MsgRecharged phone (balance info + amount)%float
         /\ w' = saved_world
                   (dict_set (accounts w) phone
                      (touched (now w) (balance info + amount)%float info)) w)
    (same_balances w)
    (PhoneAccountSystem.apply_recharge phone amount stdin w).
Proof.
  intros Hpos. destruct (dict_get (accounts w) phone) as [info|] eqn:Hget.
  - destruct (next_write_ok w) eqn:Hok.
    + rewrite (apply_recharge_saved phone info amount stdin w Hget Hok).
      simpl. eauto.
    + rewrite (apply_recharge_unsaved phone info amount stdin w Hget Hok).
      simpl. intros k. unfold balance_at. simpl.
      now apply same_balances_set.
  - unfold PhoneAccountSystem.apply_recharge, bind, account_of.
    rewrite Hget. simpl. apply same_balances_refl.
Qed.

Lemma apply_deduct_spec phone info amount stdin w :
  dict_get (accounts w) phone = Some info ->
  outcome_spec
    (fun message w' =>
       message = MsgDeducted phone (balance info - amount)%float
       /\ w' = saved_world
                 (dict_set (accounts w) phone
                    (touched (now w) (balance info - amount)%float info)) w)
    (same_balances w)
    (PhoneAccountSystem.apply_deduct phone amount stdin w).
Proof.
  intros Hget. destruct (next_write_ok w) eqn:Hok.
  - rewrite (apply_deduct_saved phone info amount stdin w Hget Hok).
    simpl. eauto.
  - rewrite (apply_deduct_unsaved phone info amount stdin w Hget Hok).
    simpl. intros k. unfold balance_at. simpl.
    now apply same_balances_set.
Qed.

Lemma recharge_amount_spec phone stdin :
  forall w,
    outcome_spec
      (fun message w' =>
         exists info amount,
           dict_get (accounts w) phone = Some info
           /\ (amount <=? 0)%float = false
           /\ message = MsgRecharged phone (balance info + amount)%float
           /\ w' = saved_world
                     (dict_set (accounts w) phone
                        (touched (now w) (balance info + amount)%float info))
                     w)
      (same_balances w)
      (PhoneAccountSystem.recharge_amount phone stdin w).
Proof.
  induction stdin as [|line rest IH]; intros w;
    cbn [PhoneAccountSystem.recharge_amount];
    [apply same_balances_refl|].
  apply outcome_spec_pre. cbv zeta.
  destruct (NavigationManager.handle_back_choice (Str.strip line));
    [apply same_balances_refl|].
  destruct (float_of_str (Str.strip line)) as [amount|];
    [|apply outcome_spec_pre, IH].
  destruct (amount <=? 0)%float eqn:Hpos; [apply outcome_spec_pre, IH|].
  eapply outcome_spec_weaken; [| |apply apply_recharge_spec; exact Hpos];
    [|auto].
  intros m w' (info & Hget & -> & ->). eauto 6.
Qed.

Lemma deduct_amount_spec phone stdin :
  forall w,
    outcome_spec
      (fun message w' =>
         exists info amount,
           dict_get (accounts w) phone = Some info
           /\ (amount <=? 0)%float = false
           /\ (balance info <? amount)%float = false
           /\ message = MsgDeducted phone (balance info - amount)%float
           /\ w' = saved_world
                     (dict_set (accounts w) phone
                        (touched (now w) (balance info - amount)%float info))
                     w)
      (same_balances w)
      (PhoneAccountSystem.deduct_amount phone stdin w).
Proof.
  induction stdin as [|line rest IH]; intros w;
    cbn [PhoneAccountSystem.deduct_amount];
    [apply same_balances_refl|].
  apply outcome_spec_pre. cbv zeta.
  destruct (NavigationManager.handle_back_choice (Str.strip line));
    [apply same_balances_refl|].
  destruct (float_of_str (Str.strip line)) as [amount|];
    [|apply outcome_spec_pre, IH].
  destruct (amount <=? 0)%float eqn:Hpos; [apply outcome_spec_pre, IH|].
  specialize (IH w).
  match goal with
  | |- outcome_spec ?S _ _ => set (spec := S) in *
  end.
  destruct (dict_get (accounts w) phone) as [info|] eqn:Hget;
    [|apply same_balances_refl].
  destruct (balance info <? amount)%float eqn:Hlt;
    [apply outcome_spec_pre, IH|].
  eapply outcome_spec_weaken;
    [| |apply (apply_deduct_spec phone info amount rest w Hget)]; [|auto].
  intros m w' (-> & ->). exists info, amount. auto 7.
Qed.

End MutationFacts.

(** What [recharge] does, whatever is typed.  When it answers success, one
    account, in good standing, had an amount added to its balance and the
    time written to [last_modified]; the amount is one for which
    [amount <= 0] is false (a positive number, positive infinity or NaN);
    nothing else of the store changed, and the store was saved.  When it
    answers failure or raises (the operation was given up, authentication
    failed, the account has expired, the save failed, the console ran out),
    every balance is what it was. *)
Theorem recharge_outcome `{Builtins} stdin :
  forall w,
    outcome_spec (recharged_from w) (same_balances w)
      (PhoneAccountSystem.recharge stdin w).
Proof.
  induction stdin as [|line rest IH]; intros w;
    cbn [PhoneAccountSystem.recharge]; [apply same_balances_refl|].
  apply outcome_spec_pre. cbv zeta.
  destruct (NavigationManager.handle_back_choice (Str.strip line));
    [apply same_balances_refl|].
  destruct (PhoneAccountSystem.find_account (Str.strip line) (accounts w))
    as [[phone|] message]; [|apply outcome_spec_pre, IH].
  unfold bind.
  pose proof (authenticate_with_password_spec phone rest w) as Ha.
  destruct (AccountManager.authenticate_with_password phone rest w)
    as [[[] m] s1 w1 o1|e w1 o1]; simpl in Ha; cbn [fst snd negb].
  - destruct Ha as [-> (info & Hget & Hgood)]. apply outcome_spec_pre.
    eapply outcome_spec_weaken; [| |apply recharge_amount_spec]; [|auto].
    intros m' w' (info' & amount & Hget' & Hpos & -> & ->).
    assert (info' = info) by congruence. subst info'.
    exists phone, info, amount. auto.
  - simpl. exact Ha.
  - exact Ha.
Qed.

(** What [deduct] does, whatever is typed.  When it answers success, one
    account, in good standing, had an amount taken off its balance and the
    time written to [last_modified]; the amount is one for which
    [amount <= 0] is false and [balance < amount] is false (a positive
    amount up to the balance, or NaN, or any positive amount when the
    balance is NaN); nothing else of the store changed, and the store was
    saved.  When it answers failure or raises, every balance is what it
    was. *)
Theorem deduct_outcome `{Builtins} stdin :
  forall w,
    outcome_spec (deducted_from w) (same_balances w)
      (PhoneAccountSystem.deduct stdin w).
Proof.
  induction stdin as [|line rest IH]; intros w;
    cbn [PhoneAccountSystem.deduct]; [apply same_balances_refl|].
  apply outcome_spec_pre. cbv zeta.
  destruct (NavigationManager.handle_back_choice (Str.strip line));
    [apply same_balances_refl|].
  destruct (PhoneAccountSystem.find_account (Str.strip line) (accounts w))
    as [[phone|] message]; [|apply outcome_spec_pre, IH].
  unfold bind.
  pose proof (authenticate_with_password_spec phone rest w) as Ha.
  destruct (AccountManager.authenticate_with_password phone rest w)
    as [[[] m] s1 w1 o1|e w1 o1]; simpl in Ha; cbn [fst snd negb].
  - destruct Ha as [-> (info & Hget & Hgood)]. apply outcome_spec_pre.
    eapply outcome_spec_weaken; [| |apply deduct_amount_spec]; [|auto].
    intros m' w' (info' & amount & Hget' & Hpos & Hle & -> & ->).
    assert (info' = info) by congruence. subst info'.
    exists phone, info, amount. auto 7.
  - simpl. exact Ha.
  - exact Ha.
Qed.

(* ================================================================== *)
(** ** What a password reset changes *)

Lemma dialogue_spec_pre S F out o :
  dialogue_spec S F o -> dialogue_spec S F (pre out o).
Proof. destruct o as [[[] m] s w' o'|e w' o']; simpl; auto. Qed.

Lemma dialogue_spec_weaken
    (S S' : msg -> list string -> World -> Prop) (F F' : World -> Prop) o :
  (forall m r w, S m r w -> S' m r w) -> (forall w, F w -> F' w) ->
  dialogue_spec S F o -> dialogue_spec S' F' o.
Proof. intros HS HF. destruct o as [[[] m] s w' o'|e w' o']; simpl; auto. Qed.

Lemma dialogue_outcome_spec (S : msg -> list string -> World -> Prop)
    (S' : msg -> World -> Prop) (F F' : World -> Prop) o :
  (forall m r w, S m r w -> S' m w) -> (forall w, F w -> F' w) ->
  dialogue_spec S F o -> outcome_spec S' F' o.
Proof.
  intros HS HF. destruct o as [[[] m] s w' o'|e w' o']; simpl; eauto.
Qed.

Lemma consumed_pre {A} stdin out (o : Outcome A) :
  consumed stdin o -> consumed stdin (pre out o).
Proof. now destruct o. Qed.

Lemma consumed_cons {A} line stdin (o : Outcome A) :
  consumed stdin o -> consumed (line :: stdin) o.
Proof.
  destruct o as [a rest w' out|e w' out]; simpl; [|auto].
  intros [before ->]. now exists (line :: before).
Qed.

Lemma consumed_here {A} (a : A) line rest w out :
  consumed (line :: rest) (Ret a rest w out).
Proof. now exists [line]. Qed.

Section ResetOutcome.
Context `{Builtins}.

Lemma answer_attempts_world n stored :
  forall stdin w,
    final_world (AccountManager.answer_attempts n stored stdin w) = w.
Proof.
  induction n as [|n IH]; intros stdin w;
    cbn [AccountManager.answer_attempts]; [reflexivity|].
  destruct stdin as [|line rest]; [reflexivity|].
  rewrite final_world_pre. cbv zeta.
  destruct (NavigationManager.handle_back_choice (Str.strip line));
    [reflexivity|].
  destruct (SecurityManager.verify_answer (Str.strip line) stored);
    [reflexivity|].
  destruct n; [reflexivity|]. rewrite final_world_pre. apply IH.
Qed.

Lemma authenticate_with_security_question_world phone stdin w :
  final_world
    (AccountManager.authenticate_with_security_question phone stdin w) = w.
Proof.
  unfold AccountManager.authenticate_with_security_question, bind, account_of,
    say.
  destruct (dict_get (accounts w) phone) as [info|]; [|reflexivity].
  cbn -[AccountManager.answer_attempts].
  rewrite !final_world_pre. apply answer_attempts_world.
Qed.

Lemma answer_attempts_consumed n stored :
  forall stdin w,
    consumed stdin (AccountManager.answer_attempts n stored stdin w).
Proof.
  induction n as [|n IH]; intros stdin w;
    cbn [AccountManager.answer_attempts]; [now exists []|].
  destruct stdin as [|line rest]; [exact I|].
  apply consumed_pre. cbv zeta.
  destruct (NavigationManager.handle_back_choice (Str.strip line));
    [apply consumed_here|].
  destruct (SecurityManager.verify_answer (Str.strip line) stored);
    [apply consumed_here|].
  destruct n; [apply consumed_here|].
  apply consumed_pre, consumed_cons, IH.
Qed.

Lemma authenticate_with_security_question_consumed phone stdin w :
  consumed stdin
    (AccountManager.authenticate_with_security_question phone stdin w).
Proof.
  unfold AccountManager.authenticate_with_security_question, bind, account_of,
    say.
  destruct (dict_get (accounts w) phone) as [info|]; [|exact I].
  cbn -[AccountManager.answer_attempts].
  repeat apply consumed_pre. apply answer_attempts_consumed.
Qed.

(** The loop of [reset_password] answers success only after a valid PIN was
    typed twice in a row, the second time as the last line it read. *)
Lemma new_password_loop_spec phone stdin :
  forall w,
    dialogue_spec
      (fun message rest w' =>
         exists info pin before,
           stdin = before ++ pin :: pin :: rest
           /\ dict_get (accounts w) phone = Some info
           /\ SecurityManager.validate_password pin = true
           /\ next_write_ok w = true
           /\ message = MsgResetOk
           /\ w' = saved_world
                     (dict_set (accounts w) phone (reset_to (now w) pin info))
                     w)
      (reset_failed_from w)
      (AccountManager.new_password_loop phone stdin w).
Proof.
  induction stdin as [stdin IH] using console_ind. intros w.
  destruct stdin as [|pin rest]; cbn [AccountManager.new_password_loop];
    [now left|].
  apply dialogue_spec_pre.
  destruct (NavigationManager.handle_back_choice pin); [now left|].
  destruct (SecurityManager.validate_password pin) eqn:Hv; cbn [negb].
  2:{ apply dialogue_spec_pre.
      eapply dialogue_spec_weaken; [| |apply (IH rest); simpl; lia];
        [|auto].
      intros m r w' (info & pin' & before & -> & Hr).
      exists info, pin', (pin :: before). auto. }
  destruct rest as [|confirm rest']; [now left|].
  apply dialogue_spec_pre.
  destruct (String.eqb pin confirm) eqn:Hc; cbn [negb].
  2:{ apply dialogue_spec_pre.
      eapply dialogue_spec_weaken; [| |apply (IH rest'); simpl; lia];
        [|auto].
      intros m r w' (info & pin' & before & -> & Hr).
      exists info, pin', (pin :: confirm :: before). auto. }
  apply String.eqb_eq in Hc. subst confirm.
  unfold bind, modify, ret, AccountManager.save_data,
    FileStorageManager.save_data.
  destruct (dict_get (accounts w) phone) as [info|] eqn:Hget; [|now left].
  cbn. rewrite dict_get_set_same. cbn. rewrite dict_set_set.
  unfold next_write_ok, saved_world.
  destruct (writes w) as [|[] ws] eqn:Hw; cbn.
  - exists info, pin, []. repeat split; auto.
  - exists info, pin, []. repeat split; auto.
  - right. exists phone, info, pin. repeat split; auto.
    unfold next_write_ok. now rewrite Hw.
Qed.

Lemma AccountManager_reset_password_spec phone stdin w :
  dialogue_spec
    (fun message rest w' =>
       exists info pin before,
         stdin = before ++ pin :: pin :: rest
         /\ dict_get (accounts w) phone = Some info
         /\ SecurityManager.validate_password pin = true
         /\ next_write_ok w = true
         /\ message = MsgResetOk
         /\ w' = saved_world
                   (dict_set (accounts w) phone (reset_to (now w) pin info))
                   w)
    (reset_failed_from w)
    (AccountManager.reset_password phone stdin w).
Proof.
  unfold AccountManager.reset_password. unfold bind at 1.
  pose proof (authenticate_with_security_question_world phone stdin w) as Hw.
  pose proof (authenticate_with_security_question_consumed phone stdin w)
    as Hc.
  destruct (AccountManager.authenticate_with_security_question phone stdin w)
    as [[[] m] s1 w1 o1|e w1 o1]; simpl in Hw; subst w1; cbn [fst snd negb].
  - apply dialogue_spec_pre. destruct Hc as [before0 ->].
    eapply dialogue_spec_weaken; [| |apply new_password_loop_spec]; [|auto].
    intros m' r w' (info & pin & before & -> & Hr).
    exists info, pin, (before0 ++ before). rewrite <- app_assoc. auto.
  - simpl. now left.
  - simpl. now left.
Qed.

(** The whole dialogue of [reset_password]: on success, the lines that were
    read name the account and end in the new PIN, typed twice. *)
Lemma PhoneAccountSystem_reset_password_spec stdin :
  forall w,
    dialogue_spec
      (fun message rest w' =>
         exists phone info pin,
           reset_typed stdin w phone pin rest
           /\ dict_get (accounts w) phone = Some info
           /\ SecurityManager.validate_password pin = true
           /\ next_write_ok w = true
           /\ message = MsgResetOk
           /\ w' = saved_world
                     (dict_set (accounts w) phone (reset_to (now w) pin info))
                     w)
      (reset_failed_from w)
      (PhoneAccountSystem.reset_password stdin w).
Proof.
  induction stdin as [|line rest IH]; intros w;
    cbn [PhoneAccountSystem.reset_password]; [now left|].
  apply dialogue_spec_pre. cbv zeta.
  destruct (NavigationManager.handle_back_choice (Str.strip line));
    [now left|].
  destruct (PhoneAccountSystem.find_account (Str.strip line) (accounts w))
    as [[phone|] message] eqn:Hfind.
  2:{ apply dialogue_spec_pre.
      eapply dialogue_spec_weaken; [| |apply IH]; [|auto].
      intros m r w' (phone & info & pin & Ht & Hr).
      exists phone, info, pin. split; [|exact Hr].
      destruct Ht as (skipped & idline & msg0 & before & -> & Hf).
      now exists (line :: skipped), idline, msg0, before. }
  unfold bind at 1.
  pose proof (AccountManager_reset_password_spec phone rest w) as Hr.
  destruct (AccountManager.reset_password phone rest w)
    as [[[] m] s1 w1 o1|e w1 o1]; simpl in Hr; cbn [fst snd negb].
  - destruct Hr as (info & pin & before & -> & Hget & Hv & Hok & -> & ->).
    unfold bind, PhoneAccountSystem.sync_to_github, ret. simpl.
    exists phone, info, pin. repeat split; auto.
    now exists [], line, message, before.
  - unfold bind, ret. simpl. exact Hr.
  - simpl. exact Hr.
Qed.

End ResetOutcome.

(** What [reset_password] does, whatever is typed.  When it answers
    success, the account of one phone got the hash of a four-digit PIN and
    the time written to [last_modified]; nothing else of the store changed,
    and the store was saved.  When it answers failure or raises, either
    nothing changed, or the save failed: the method then has no statement
    that takes the new hash back, so that the store in memory holds the new
    password although the operation is reported as failed. *)
Theorem reset_password_outcome `{Builtins} stdin w :
  outcome_spec (reset_from w) (reset_failed_from w)
    (PhoneAccountSystem.reset_password stdin w).
Proof.
  eapply dialogue_outcome_spec;
    [| |apply PhoneAccountSystem_reset_password_spec]; [|auto].
  intros m r w' (phone & info & pin & _ & Hr). exists phone, info, pin.
  tauto.
Qed.

(** After a password reset that answered success, the PIN that was typed
    opens the account that was named.  The lines that were read are an
    identifier that [find_account] resolves to a phone of the store, then
    the answers, and last a valid PIN, typed twice; the store is the one
    before with the hash of this PIN and the time in the account of this
    phone; and password authentication of this phone, if the account is in
    good standing, succeeds at the first prompt with this PIN. *)
Theorem reset_then_authenticate `{Builtins} stdin w message rest w' out :
  PhoneAccountSystem.reset_password stdin w = Ret (true, message) rest w' out ->
  exists phone info pin,
    reset_typed stdin w phone pin rest
    /\ dict_get (accounts w) phone = Some info
    /\ SecurityManager.validate_password pin = true
    /\ accounts w' = dict_set (accounts w) phone (reset_to (now w) pin info)
    /\ option_map password (dict_get (accounts w') phone)
       = Some (Some (SecurityManager.hash_password pin))
    /\ (in_good_standing w' (reset_to (now w) pin info) ->
        forall stdin',
          AccountManager.authenticate_with_password phone (pin :: stdin') w'
          = Ret (true, MsgAuthOk) stdin' w'
              [Asked AskPassword; Said MsgAuthOk]).
Proof.
  intros E. pose proof (PhoneAccountSystem_reset_password_spec stdin w) as Hs.
  rewrite E in Hs. simpl in Hs.
  destruct Hs as (phone & info & pin & Ht & Hget & Hv & Hok & _ & ->).
  exists phone, info, pin.
  assert (Hget' : dict_get
                    (accounts
                       (saved_world
                          (dict_set (accounts w) phone
                             (reset_to (now w) pin info)) w)) phone
                  = Some (reset_to (now w) pin info))
    by (simpl; apply dict_get_set_same).
  split; [exact Ht|]. split; [exact Hget|]. split; [exact Hv|].
  split; [reflexivity|]. split; [now rewrite Hget'|].
  intros Hgood stdin'.
  assert (Hgood' : in_good_standing
                     (saved_world
                        (dict_set (accounts w) phone
                           (reset_to (now w) pin info)) w)
                     (reset_to (now w) pin info)) by exact Hgood.
  rewrite (authenticate_with_password_standing phone _ _ _ Hget' Hgood').
  change Config.MAX_AUTH_ATTEMPTS with 3%nat.
  apply password_attempts_first. split.
  - now apply valid_password_not_back.
  - simpl. unfold SecurityManager.verify_password. apply String.eqb_refl.
Qed.

Lemma reset_then_authenticate_witness :
  exists phone info,
    dict_get Demo.store50 phone = Some info
    /\ accounts
         (final_world
            (Demo.reset_password [Demo.phone; "blue"; "4321"; "4321"]
               Demo.world50))
       = dict_set Demo.store50 phone
           (@reset_to Demo.builtins Demo.t0 "4321" info)
    /\ returned
         (@AccountManager.authenticate_with_password Demo.builtins phone
            ["4321"]
            (final_world
               (Demo.reset_password [Demo.phone; "blue"; "4321"; "4321"]
                  Demo.world50)))
       = Some (true, MsgAuthOk).
Proof.
  assert (E : @PhoneAccountSystem.reset_password Demo.builtins
                [Demo.phone; "blue"; "4321"; "4321"] Demo.world50
              = Ret (true, MsgResetOk) []
                  (final_world
                     (Demo.reset_password [Demo.phone; "blue"; "4321"; "4321"]
                        Demo.world50))
                  (events_of
                     (Demo.reset_password [Demo.phone; "blue"; "4321"; "4321"]
                        Demo.world50)))
    by (vm_compute; reflexivity).
  destruct (reset_then_authenticate _ _ _ _ _ _ E)
    as (phone & info & pin & T & G & V & A & P & U).
  destruct T as (skipped & idline & msg0 & before & T & _).
  assert (Hpin : pin = "4321"%string).
  { apply (f_equal (fun l => List.last l EmptyString)) in T.
    change (pin :: pin :: []) with ([pin] ++ [pin]) in T.
    rewrite app_comm_cons, !app_assoc, last_last in T.
    symmetry. exact T. }
  subst pin. exists phone, info. split; [exact G|]. split; [exact A|].
  rewrite U; [reflexivity|].
  change ((if String.eqb Demo.phone phone then Some Demo.account50 else None)
          = Some info) in G.
  revert G. destruct (String.eqb Demo.phone phone); intros G;
    [|discriminate G].
  injection G as <-. split; [reflexivity|].
  eexists. split; reflexivity.
Defined.

(* ================================================================== *)
(** ** What a registration that goes through leaves *)

Lemma ret_true_pre (S : list string -> World -> Prop) out (o : Outcome bool) :
  match o with Ret true r w' _ => S r w' | _ => True end ->
  match pre out o with Ret true r w' _ => S r w' | _ => True end.
Proof. destruct o as [[] s w' o'|e w' o']; simpl; auto. Qed.

Lemma ret_true_weaken (S S' : list string -> World -> Prop)
    (o : Outcome bool) :
  (forall r w, S r w -> S' r w) ->
  match o with Ret true r w' _ => S r w' | _ => True end ->
  match o with Ret true r w' _ => S' r w' | _ => True end.
Proof. intros HS. destruct o as [[] s w' o'|e w' o']; simpl; auto. Qed.

Section RegisterOutcome.
Context `{Builtins}.

Lemma set_registration_bonus_world phone stdin :
  forall w,
    final_world (AccountManager.set_registration_bonus phone stdin w) = w.
Proof.
  induction stdin as [|line rest IH]; intros w;
    cbn [AccountManager.set_registration_bonus]; [reflexivity|].
  rewrite final_world_pre. cbv zeta.
  destruct (NavigationManager.handle_back_choice (Str.strip line));
    [reflexivity|].
  destruct (Str.is_empty (Str.strip line)); [reflexivity|].
  destruct (float_of_str (Str.strip line)) as [bonus|].
  - destruct (bonus <? 0)%float; [|reflexivity].
    rewrite final_world_pre. apply IH.
  - rewrite final_world_pre. apply IH.
Qed.

Lemma set_registration_bonus_consumed phone stdin :
  forall w,
    consumed stdin (AccountManager.set_registration_bonus phone stdin w).
Proof.
  induction stdin as [|line rest IH]; intros w;
    cbn [AccountManager.set_registration_bonus]; [exact I|].
  apply consumed_pre. cbv zeta.
  destruct (NavigationManager.handle_back_choice (Str.strip line));
    [apply consumed_here|].
  destruct (Str.is_empty (Str.strip line)); [apply consumed_here|].
  destruct (float_of_str (Str.strip line)) as [bonus|].
  - destruct (bonus <? 0)%float; [|apply consumed_here].
    apply consumed_pre, consumed_cons, IH.
  - apply consumed_pre, consumed_cons, IH.
Qed.

Lemma calculate_expiry_time_Some t n e :
  TimeManager.calculate_expiry_time t n = Some e ->
  e = t + n * TimeManager.DAY.
Proof.
  unfold TimeManager.calculate_expiry_time, TimeManager.timedelta_days,
    TimeManager.datetime_add.
  destruct (Z.abs n <=? TimeManager.TIMEDELTA_MAX_DAYS); [|discriminate].
  destruct ((0 <=? t + n * TimeManager.DAY)
            && (t + n * TimeManager.DAY <? TimeManager.DATETIME_END));
    [|discriminate].
  intros E. now injection E as <-.
Qed.

(** [set_valid_days] answers success only after it stored a positive number
    of days, the time, the expiry time and the status "正常". *)
Lemma set_valid_days_spec phone stdin :
  forall w,
    outcome_spec
      (fun _ w' =>
         exists a n,
           dict_get (accounts w) phone = Some a /\ 0 < n
           /\ w' = with_accounts
                     (dict_set (accounts w) phone
                        (set_status StatusActive
                           (set_expiry_time
                              (Some (now w + n * TimeManager.DAY))
                              (set_created_at (Some (now w))
                                 (set_valid_days_field (Some n) a))))) w)
      (fun _ => True)
      (AccountManager.set_valid_days phone stdin w).
Proof.
  induction stdin as [|line rest IH]; intros w;
    cbn [AccountManager.set_valid_days]; [exact I|].
  apply outcome_spec_pre. cbv zeta.
  destruct (NavigationManager.handle_back_choice (Str.strip line));
    [exact I|].
  destruct (int_of_str (Str.strip line)) as [n|];
    [|apply outcome_spec_pre, IH].
  destruct (n <=? 0) eqn:Hn; [apply outcome_spec_pre, IH|].
  apply Z.leb_gt in Hn.
  unfold AccountManager.store_valid_days, bind, modify, get_world, ret, raise,
    say.
  destruct (dict_get (accounts w) phone) as [a|] eqn:Hget; [|exact I].
  cbn. rewrite dict_get_set_same. cbn.
  destruct (TimeManager.calculate_expiry_time (now w) n) as [e|] eqn:He;
    [|exact I].
  cbn. rewrite dict_set_set, dict_get_set_same. cbn.
  rewrite dict_set_set, dict_get_set_same. cbn. rewrite dict_set_set.
  apply calculate_expiry_time_Some in He. subst e.
  exists a, n. auto.
Qed.

Lemma store_valid_days_consumed phone n stdin w :
  consumed stdin (AccountManager.store_valid_days phone n stdin w).
Proof.
  unfold AccountManager.store_valid_days, bind, modify, get_world, ret, raise,
    say.
  destruct (dict_get (accounts w) phone) as [a|]; [|exact I].
  cbn. rewrite dict_get_set_same. cbn.
  destruct (TimeManager.calculate_expiry_time (now w) n) as [e|]; [|exact I].
  cbn. rewrite dict_set_set, dict_get_set_same. cbn.
  rewrite dict_set_set, dict_get_set_same. cbn. now exists [].
Qed.

Lemma set_valid_days_consumed phone stdin :
  forall w, consumed stdin (AccountManager.set_valid_days phone stdin w).
Proof.
  induction stdin as [|line rest IH]; intros w;
    cbn [AccountManager.set_valid_days]; [exact I|].
  apply consumed_pre. cbv zeta.
  destruct (NavigationManager.handle_back_choice (Str.strip line));
    [apply consumed_here|].
  destruct (int_of_str (Str.strip line)) as [n|];
    [|apply consumed_pre, consumed_cons, IH].
  destruct (n <=? 0); [apply consumed_pre, consumed_cons, IH|].
  apply consumed_cons, store_valid_days_consumed.
Qed.

(** The first loop of [set_password_and_security] stores the hash of a
    valid PIN that was typed twice in a row, the second time as the last
    line it read. *)
Lemma password_loop_spec phone stdin :
  forall w,
    match AccountManager.password_loop phone stdin w with
    | Ret true rest w' _ =>
        exists a pin before,
          stdin = before ++ pin :: pin :: rest
          /\ dict_get (accounts w) phone = Some a
          /\ SecurityManager.validate_password pin = true
          /\ w' = with_accounts
                    (dict_set (accounts w) phone
                       (set_password
                          (Some (SecurityManager.hash_password pin)) a)) w
    | _ => True
    end.
Proof.
  induction stdin as [stdin IH] using console_ind. intros w.
  destruct stdin as [|pin rest]; cbn [AccountManager.password_loop];
    [exact I|].
  set (S := fun (stdin : list string) (r : list string) (w' : World) =>
              exists a pin0 before,
                stdin = before ++ pin0 :: pin0 :: r
                /\ dict_get (accounts w) phone = Some a
                /\ SecurityManager.validate_password pin0 = true
                /\ w' = with_accounts
                          (dict_set (accounts w) phone
                             (set_password
                                (Some (SecurityManager.hash_password pin0))
                                a)) w).
  assert (Hcons : forall lines stdin' r w',
             S stdin' r w' -> S (lines ++ stdin') r w').
  { intros lines stdin' r w' (a & pin0 & before & -> & Hr).
    exists a, pin0, (lines ++ before). now rewrite <- app_assoc. }
  apply (ret_true_pre (S (pin :: rest))).
  destruct (NavigationManager.handle_back_choice pin); [exact I|].
  destruct (SecurityManager.validate_password pin) eqn:Hv; cbn [negb].
  2:{ apply (ret_true_pre (S (pin :: rest))).
      apply (ret_true_weaken (S rest)); [apply (Hcons [pin])|].
      apply (IH rest). simpl. lia. }
  destruct rest as [|confirm rest']; [exact I|].
  apply (ret_true_pre (S (pin :: confirm :: rest'))).
  destruct (String.eqb pin confirm) eqn:Hc; cbn [negb].
  2:{ apply (ret_true_pre (S (pin :: confirm :: rest'))).
      apply (ret_true_weaken (S rest')); [apply (Hcons [pin; confirm])|].
      apply (IH rest'). simpl. lia. }
  apply String.eqb_eq in Hc. subst confirm.
  unfold bind, modify, ret.
  destruct (dict_get (accounts w) phone) as [a|] eqn:Hget; [|exact I].
  cbn. exists a, pin, []. auto.
Qed.

Lemma question_loop_spec stdin :
  forall w,
    match AccountManager.question_loop stdin w with
    | Ret (Some q) _ w' _ => w' = w /\ (q < 8)%nat
    | _ => True
    end.
Proof.
  induction stdin as [|line rest IH]; intros w;
    cbn [AccountManager.question_loop]; [exact I|].
  assert (Hpre : forall out (o : Outcome (option nat)),
             match o with
             | Ret (Some q) _ w' _ => w' = w /\ (q < 8)%nat
             | _ => True
             end ->
             match pre out o with
             | Ret (Some q) _ w' _ => w' = w /\ (q < 8)%nat
             | _ => True
             end)
    by (intros out [[q|] s w' o'|e w' o']; simpl; auto).
  apply Hpre. cbv zeta.
  destruct (NavigationManager.handle_back_choice (Str.strip line));
    [exact I|].
  destruct (int_of_str (Str.strip line)) as [n|]; [|apply Hpre, IH].
  destruct ((1 <=? n) && (n <=? 8)) eqn:Hn; [|apply Hpre, IH].
  apply andb_prop in Hn. destruct Hn as [H1 H8].
  apply Z.leb_le in H1, H8. simpl. split; [reflexivity|lia].
Qed.

Lemma answer_loop_spec phone q stdin :
  forall w,
    match AccountManager.answer_loop phone q stdin w with
    | Ret true _ w' _ =>
        exists a answer,
          dict_get (accounts w) phone = Some a
          /\ 2 <= Str.len answer
          /\ w' = with_accounts
                    (dict_set (accounts w) phone
                       (set_security_answer
                          (Some (SecurityManager.hash_answer answer))
                          (set_security_question (Some q) a))) w
    | _ => True
    end.
Proof.
  induction stdin as [stdin IH] using console_ind. intros w.
  destruct stdin as [|line rest]; cbn [AccountManager.answer_loop];
    [exact I|].
  set (S := fun (_ : list string) (w' : World) =>
              exists a answer,
                dict_get (accounts w) phone = Some a
                /\ 2 <= Str.len answer
                /\ w' = with_accounts
                          (dict_set (accounts w) phone
                             (set_security_answer
                                (Some (SecurityManager.hash_answer answer))
                                (set_security_question (Some q) a))) w).
  apply (ret_true_pre S). cbv zeta.
  destruct (NavigationManager.handle_back_choice (Str.strip line));
    [exact I|].
  destruct (Str.len (Str.strip line) <? Config.MIN_ANSWER_LENGTH) eqn:Hlen;
    [apply (ret_true_pre S), (IH rest); simpl; lia|].
  apply Z.ltb_ge in Hlen. change Config.MIN_ANSWER_LENGTH with 2 in Hlen.
  destruct rest as [|line' rest']; [exact I|].
  apply (ret_true_pre S).
  destruct (String.eqb (Str.lower (Str.strip line))
              (Str.lower (Str.strip line'))); cbn [negb];
    [|apply (ret_true_pre S), (IH rest'); simpl; lia].
  unfold bind, modify, ret.
  destruct (dict_get (accounts w) phone) as [a|] eqn:Hget; [|exact I].
  cbn. rewrite dict_get_set_same. cbn. rewrite dict_set_set.
  exists a, (Str.strip line). auto.
Qed.

Lemma set_password_and_security_spec phone stdin w :
  outcome_spec
    (fun _ w' =>
       exists a pin q answer before after,
         stdin = before ++ pin :: pin :: after
         /\ dict_get (accounts w) phone = Some a
         /\ SecurityManager.validate_password pin = true
         /\ (q < 8)%nat
         /\ 2 <= Str.len answer
         /\ next_write_ok w = true
         /\ w' = saved_world
                   (dict_set (accounts w) phone
                      (set_last_modified (Some (now w))
                         (set_security_answer
                            (Some (SecurityManager.hash_answer answer))
                            (set_security_question (Some q)
                               (set_password
                                  (Some (SecurityManager.hash_password pin))
                                  a))))) w)
    (fun _ => True)
    (AccountManager.set_password_and_security phone stdin w).
Proof.
  unfold AccountManager.set_password_and_security. unfold bind at 1.
  pose proof (password_loop_spec phone stdin w) as Hp.
  destruct (AccountManager.password_loop phone stdin w)
    as [[] s1 w1 o1|e w1 o1]; cbn [negb]; try exact I.
  destruct Hp as (a & pin & before & Hin & Hget & Hv & ->).
  apply outcome_spec_pre. unfold bind at 1.
  match goal with
  | |- context [AccountManager.question_loop s1 ?w1] =>
      pose proof (question_loop_spec s1 w1) as Hq;
      destruct (AccountManager.question_loop s1 w1)
        as [[q|] s2 w2 o2|e w2 o2]; try exact I
  end.
  destruct Hq as [-> Hq].
  apply outcome_spec_pre. unfold bind at 1.
  match goal with
  | |- context [AccountManager.answer_loop phone q s2 ?w1] =>
      pose proof (answer_loop_spec phone q s2 w1) as Ha;
      destruct (AccountManager.answer_loop phone q s2 w1)
        as [[] s3 w3 o3|e w3 o3]; cbn [negb]; try exact I
  end.
  destruct Ha as (a' & answer & Hget' & Hlen & ->).
  simpl in Hget'. rewrite dict_get_set_same in Hget'. injection Hget' as <-.
  apply outcome_spec_pre.
  unfold bind, get_world, modify, ret, AccountManager.save_data,
    FileStorageManager.save_data.
  cbn. rewrite dict_set_set, dict_get_set_same. cbn. rewrite dict_set_set.
  unfold next_write_ok, saved_world.
  destruct (writes w) as [|[] ws]; cbn; try exact I;
    exists a, pin, q, answer, before, s1; auto 8.
Qed.

Lemma register_account_spec phone stdin w :
  dict_get (accounts w) phone = None ->
  outcome_spec
    (fun message w' =>
       exists bonus n pin q answer before after,
         stdin = before ++ pin :: pin :: after
         /\ not_negative bonus
         /\ 0 < n
         /\ SecurityManager.validate_password pin = true
         /\ (q < 8)%nat
         /\ 2 <= Str.len answer
         /\ next_write_ok w = true
         /\ message = MsgAccountCreated bonus
         /\ w' = saved_world
                   (accounts w
                    ++ [(phone,
                         made_account phone bonus n (now w)
                           (now w + n * TimeManager.DAY) (now w) pin q
                           answer)])
                   w)
    (fun _ => True)
    (PhoneAccountSystem.register_account phone (Str.suffix 4 phone) stdin w).
Proof.
  intros Habs. unfold PhoneAccountSystem.register_account. unfold bind at 1.
  pose proof (set_registration_bonus_world phone stdin w) as Hw.
  pose proof (set_registration_bonus_result phone stdin w) as Hb.
  pose proof (set_registration_bonus_consumed phone stdin w) as Hc1.
  destruct (AccountManager.set_registration_bonus phone stdin w)
    as [[m|bonus] s1 w1 o1|e w1 o1]; simpl in Hw; subst w1; try exact I.
  destruct Hc1 as [before1 ->].
  apply outcome_spec_pre. unfold bind at 1.
  unfold PhoneAccountSystem.create_account at 1. cbv beta iota.
  apply outcome_spec_pre. unfold bind at 1.
  match goal with
  | |- context [AccountManager.set_valid_days phone s1 ?wc] =>
      pose proof (set_valid_days_spec phone s1 wc) as Hv;
      pose proof (set_valid_days_consumed phone s1 wc) as Hc2;
      destruct (AccountManager.set_valid_days phone s1 wc)
        as [[[] mv] s2 w2 o2|e w2 o2]; cbn [fst negb]; try exact I
  end.
  2:{ apply outcome_spec_pre.
      unfold bind, PhoneAccountSystem.delete_account, ret.
      destruct (dict_mem (accounts w2) phone); exact I. }
  simpl in Hv. destruct Hv as (a & n & Hget & Hn & ->).
  destruct Hc2 as [before2 ->].
  rewrite dict_get_set_same in Hget. injection Hget as <-.
  rewrite dict_set_set.
  apply outcome_spec_pre. unfold bind at 1.
  match goal with
  | |- context [AccountManager.set_password_and_security phone s2 ?w2] =>
      pose proof (set_password_and_security_spec phone s2 w2) as Hs;
      destruct (AccountManager.set_password_and_security phone s2 w2)
        as [[[] ms] s3 w3 o3|e w3 o3]; cbn [fst negb]; try exact I
  end.
  2:{ apply outcome_spec_pre.
      unfold bind, PhoneAccountSystem.delete_account, ret.
      destruct (dict_mem (accounts w3) phone); exact I. }
  simpl in Hs.
  destruct Hs as (a & pin & q & answer & before & after & -> & Hget & Hpin
                  & Hq & Hlen & Hok & ->).
  rewrite dict_get_set_same in Hget. injection Hget as <-.
  rewrite dict_set_set.
  apply outcome_spec_pre.
  unfold bind, PhoneAccountSystem.sync_to_github, ret. simpl.
  exists bonus, n, pin, q, answer, (before1 ++ before2 ++ before), after.
  rewrite (dict_set_absent _ _ _ Habs), <- !app_assoc. repeat split; auto.
Qed.

Lemma register_phone_spec stdin :
  forall w,
    outcome_spec (registered_run stdin w) (fun _ => True)
      (PhoneAccountSystem.register_phone stdin w).
Proof.
  induction stdin as [|line rest IH]; intros w;
    cbn [PhoneAccountSystem.register_phone]; [exact I|].
  apply outcome_spec_pre. cbv zeta.
  assert (Hskip : outcome_spec (registered_run (line :: rest) w)
                    (fun _ => True)
                    (PhoneAccountSystem.register_phone rest w)).
  { eapply outcome_spec_weaken; [| |apply IH]; [|auto].
    intros m w' (phone & bonus & n & pin & q & answer & Ht & Hr).
    exists phone, bonus, n, pin, q, answer. split; [|exact Hr].
    destruct Ht as (skipped & l & before & after & -> & Hp).
    now exists (line :: skipped), l, before, after. }
  destruct (NavigationManager.handle_back_choice (Str.strip line));
    [exact I|].
  destruct (SecurityManager.validate_phone (Str.strip line)) eqn:Hv;
    cbn [negb]; [|apply outcome_spec_pre, Hskip].
  destruct (dict_mem (accounts w) (Str.strip line)) eqn:Hmem;
    [apply outcome_spec_pre, Hskip|].
  destruct (PhoneAccountSystem.tail_conflict (Str.suffix 4 (Str.strip line))
              (accounts w)) eqn:Htail; [apply outcome_spec_pre, Hskip|].
  apply dict_mem_false in Hmem. apply validate_phone_strip in Hv.
  eapply outcome_spec_weaken;
    [| |apply (register_account_spec (Str.strip line) rest w Hmem)]; [|auto].
  intros m w' (bonus & n & pin & q & answer & before & after & -> & Hr).
  exists (Str.strip line), bonus, n, pin, q, answer.
  split; [now exists [], line, before, after|]. tauto.
Qed.

Lemma registered_run_from stdin w message w' :
  registered_run stdin w message w' -> registered_from w message w'.
Proof.
  intros (phone & bonus & n & pin & q & answer & _ & Hshape & Habs & Htail
          & Hbonus & Hn & Hpin & Hq & Hlen & Hok & Hm & Hw).
  exists phone, bonus, n, (now w), (now w + n * TimeManager.DAY), (now w),
    pin, q, answer.
  repeat split; auto; lia.
Qed.

End RegisterOutcome.

(** What [register_phone] does, whatever is typed.  When it answers
    success, exactly one account was added, at the end of the store: its
    phone number has the shape of a phone number and was not in the store,
    its last four digits were not those of any account, its balance and its
    registration bonus are the bonus, for which [bonus < 0] is false, its
    status is "正常", its validity period is a positive number of days, it
    was made during the command and runs out no earlier than that many days
    after it was made, its password and security answer are the hashes of a
    four-digit PIN and of an answer of at least two characters, and the
    store was saved.  When it answers failure or raises, every account that
    was in the store is still there, unchanged. *)
Theorem register_phone_outcome `{Builtins} stdin w :
  outcome_spec (registered_from w) (frame w)
    (PhoneAccountSystem.register_phone stdin w).
Proof.
  pose proof (register_phone_spec stdin w) as Hs.
  pose proof (register_phone_post stdin w) as Hp.
  destruct (PhoneAccountSystem.register_phone stdin w)
    as [[[] m] s w' o'|e w' o']; simpl in *;
    [now apply (registered_run_from stdin)|tauto|tauto].
Qed.

Lemma find_by_tail_new (d : dict) phone info :
  PhoneAccountSystem.tail_conflict (last_four info) d = None ->
  PhoneAccountSystem.find_by_tail (last_four info) (d ++ [(phone, info)])
  = Some phone.
Proof.
  induction d as [|[k0 v0] r IH]; simpl.
  - intros _. now rewrite String.eqb_refl.
  - destruct (String.eqb (last_four v0) (last_four info)); [discriminate|].
    exact IH.
Qed.

(** An account that was just registered can be used at once.  After a
    registration that answered success, the store is the one before with
    one account added, under the phone number that was typed (stripped),
    which was not in the store; the account holds the hash of the valid PIN
    that was typed twice; it is found by its phone number and by its last
    four digits; it is in good standing; and password authentication of
    this phone with this PIN succeeds at the first prompt. *)
Theorem registered_account_usable `{Builtins} stdin w message rest w' out :
  PhoneAccountSystem.register_phone stdin w = Ret (true, message) rest w' out ->
  exists phone info pin,
    register_typed stdin phone pin
    /\ dict_get (accounts w) phone = None
    /\ accounts w' = accounts w ++ [(phone, info)]
    /\ SecurityManager.validate_password pin = true
    /\ password info = Some (SecurityManager.hash_password pin)
    /\ balance info = registration_bonus info
    /\ PhoneAccountSystem.find_account phone (accounts w')
       = (Some phone, MsgFound)
    /\ PhoneAccountSystem.find_account (Str.suffix 4 phone) (accounts w')
       = (Some phone, MsgFound)
    /\ in_good_standing w' info
    /\ forall stdin',
         AccountManager.authenticate_with_password phone (pin :: stdin') w'
         = Ret (true, MsgAuthOk) stdin' w' [Asked AskPassword; Said MsgAuthOk].
Proof.
  intros E. pose proof (register_phone_spec stdin w) as Hs.
  rewrite E in Hs. simpl in Hs.
  destruct Hs as (phone & bonus & n & pin & q & answer & Ht & Hshape & Habs
                  & Htail & Hbonus & Hn & Hpin & Hq & Hlen & Hok & _ & ->).
  set (info := made_account phone bonus n (now w)
                 (now w + n * TimeManager.DAY) (now w) pin q answer).
  assert (Hget : dict_get (accounts w ++ [(phone, info)]) phone = Some info).
  { rewrite <- (dict_set_absent _ _ info Habs). apply dict_get_set_same. }
  assert (Hgood : in_good_standing
                    (saved_world (accounts w ++ [(phone, info)]) w) info).
  { split; [reflexivity|]. eexists. split; [reflexivity|].
    unfold TimeManager.is_expired. simpl. apply Z.ltb_ge.
    unfold TimeManager.DAY, TimeManager.SECOND. lia. }
  exists phone, info, pin. simpl accounts.
  split; [exact Ht|]. split; [exact Habs|]. split; [reflexivity|].
  split; [exact Hpin|]. split; [reflexivity|]. split; [reflexivity|].
  split; [|split; [|split]].
  - unfold PhoneAccountSystem.find_account, dict_mem.
    now rewrite (phone_shape_validate _ Hshape), Hget.
  - destruct (phone_shape_suffix _ Hshape) as (Hv & Hl & Hd).
    unfold PhoneAccountSystem.find_account. rewrite Hv, Hl, Hd. simpl.
    change (Str.suffix 4 phone) with (last_four info).
    now rewrite (find_by_tail_new (accounts w) phone info Htail).
  - exact Hgood.
  - intros stdin'.
    rewrite (authenticate_with_password_standing phone info (pin :: stdin')
               (saved_world (accounts w ++ [(phone, info)]) w) Hget Hgood).
    change Config.MAX_AUTH_ATTEMPTS with 3%nat.
    apply password_attempts_first. split.
    + now apply valid_password_not_back.
    + simpl. unfold SecurityManager.verify_password. apply String.eqb_refl.
Qed.

Lemma registered_account_usable_witness :
  exists phone info pin,
    register_typed Demo.register_stdin phone pin
    /\ accounts
         (final_world (Demo.register_phone Demo.register_stdin Demo.empty_world))
       = [(phone, info)]
    /\ password info = Some (@SecurityManager.hash_password Demo.builtins pin)
    /\ PhoneAccountSystem.find_account (Str.suffix 4 phone)
         (accounts
            (final_world
               (Demo.register_phone Demo.register_stdin Demo.empty_world)))
       = (Some phone, MsgFound)
    /\ returned
         (@AccountManager.authenticate_with_password Demo.builtins phone [pin]
            (final_world
               (Demo.register_phone Demo.register_stdin Demo.empty_world)))
       = Some (true, MsgAuthOk).
Proof.
  assert (E : @PhoneAccountSystem.register_phone Demo.builtins
                Demo.register_stdin Demo.empty_world
              = Ret (true, MsgAccountCreated 50) []
                  (final_world
                     (Demo.register_phone Demo.register_stdin
                        Demo.empty_world))
                  (events_of
                     (Demo.register_phone Demo.register_stdin
                        Demo.empty_world)))
    by (vm_compute; reflexivity).
  destruct (registered_account_usable _ _ _ _ _ _ E)
    as (phone & info & pin & T & _ & S & _ & P & _ & _ & F & _ & A).
  exists phone, info, pin. split; [exact T|]. split; [exact S|].
  split; [exact P|]. split; [exact F|]. now rewrite A.
Defined.

(* ================================================================== *)
(** ** The balance query *)

(** [get_balance] asks for no password: it answers for the account that
    the identifier names, whatever its status, with the balance the store
    holds for it; it changes nothing, saves nothing and pushes nothing,
    whatever is typed. *)
Theorem get_balance_outcome `{Builtins} stdin :
  forall w,
    post (eq w) query_event (PhoneAccountSystem.get_balance stdin w)
    /\ outcome_spec
         (fun message _ =>
            exists phone info,
              dict_get (accounts w) phone = Some info
              /\ message = balance_report (now w) phone info)
         (fun _ => True)
         (PhoneAccountSystem.get_balance stdin w).
Proof.
  induction stdin as [|line rest IH]; intros w;
    cbn [PhoneAccountSystem.get_balance].
  - split; [|exact I]. simpl. split; [reflexivity|]. now repeat constructor.
  - destruct (IH w) as [IHp IHs]. cbv zeta.
    destruct (NavigationManager.handle_back_choice (Str.strip line)).
    { split; [|exact I]. simpl. split; [reflexivity|].
      now repeat constructor. }
    destruct (PhoneAccountSystem.find_account (Str.strip line) (accounts w))
      as [[phone|] message].
    + unfold bind, account_of, ret.
      destruct (dict_get (accounts w) phone) as [info|] eqn:Hget; simpl.
      * split; [split; [reflexivity|now repeat constructor]|].
        exists phone, info. auto.
      * split; [|exact I]. split; [reflexivity|now repeat constructor].
    + split.
      * apply post_pre; [now repeat constructor|].
        apply post_pre; [now repeat constructor|exact IHp].
      * now apply outcome_spec_pre, outcome_spec_pre.
Qed.

(* ================================================================== *)
(** ** The security answer *)

Lemma lstrip_head s c r : Str.lstrip s = String c r -> Str.isspace c = false.
Proof.
  induction s as [|a t IH]; simpl; [discriminate|].
  destruct (Str.isspace a) eqn:Ea; [exact IH|].
  intros E. now injection E as <- _.
Qed.

Lemma rstrip_head c r :
  Str.isspace c = false -> exists r', Str.rstrip (String c r) = String c r'.
Proof.
  intros Hc. simpl. destruct (Str.rstrip r); [rewrite Hc|]; eauto.
Qed.

Lemma rstrip_idempotent s : Str.rstrip (Str.rstrip s) = Str.rstrip s.
Proof.
  induction s as [|a r IH]; [reflexivity|]. simpl.
  destruct (Str.rstrip r) as [|x y] eqn:Er.
  - destruct (Str.isspace a) eqn:Ea; [reflexivity|]. simpl. now rewrite Ea.
  - change (Str.rstrip (String a (String x y)))
      with (match Str.rstrip (String x y) with
            | EmptyString =>
                if Str.isspace a then EmptyString else String a EmptyString
            | r' => String a r'
            end).
    now rewrite IH.
Qed.

(** Stripping a stripped string changes nothing. *)
Lemma strip_idempotent s : Str.strip (Str.strip s) = Str.strip s.
Proof.
  unfold Str.strip.
  destruct (Str.lstrip s) as [|c r] eqn:El; [reflexivity|].
  pose proof (lstrip_head _ _ _ El) as Hc.
  destruct (rstrip_head c r Hc) as (r' & Er). rewrite Er.
  simpl Str.lstrip. rewrite Hc. rewrite <- Er. apply rstrip_idempotent.
Qed.

(** The security answer is compared without regard to letter case and to
    the white space around it: a line that, stripped and lowered, is the
    stripped and lowered answer whose hash the account holds passes
    [authenticate_with_security_question] at the first prompt (unless it
    is the line "0", which goes back). *)
Theorem security_answer_normalised `{Builtins} phone info answer line stdin w :
  dict_get (accounts w) phone = Some info ->
  security_answer info = Some (SecurityManager.hash_answer answer) ->
  Str.lower (Str.strip line) = Str.lower (Str.strip answer) ->
  NavigationManager.handle_back_choice (Str.strip line) = false ->
  AccountManager.authenticate_with_security_question phone (line :: stdin) w
  = Ret (true, MsgAuthOk) stdin w
      [Said (MsgSecurityQuestion (security_question info));
       Asked AskAnswer; Said MsgAuthOk].
Proof.
  intros Hget Hans Hsame Hback.
  rewrite (authenticate_with_security_question_eq phone info _ w Hget).
  change Config.MAX_AUTH_ATTEMPTS with 3%nat.
  rewrite (answer_attempts_first info line stdin w); [reflexivity|].
  split; [exact Hback|]. rewrite Hans.
  unfold SecurityManager.verify_answer, SecurityManager.hash_answer.
  rewrite strip_idempotent, Hsame. apply String.eqb_refl.
Qed.

Lemma security_answer_normalised_witness :
  @AccountManager.authenticate_with_security_question Demo.builtins Demo.phone
    ["  BLUE "; "next"] Demo.world50
  = Ret (true, MsgAuthOk) ["next"] Demo.world50
      [Said (MsgSecurityQuestion (Some 0%nat)); Asked AskAnswer;
       Said MsgAuthOk].
Proof.
  apply (@security_answer_normalised Demo.builtins Demo.phone Demo.account50
           "blue" "  BLUE " ["next"] Demo.world50);
    reflexivity.
Defined.

(* ================================================================== *)
(** ** What holds at every menu prompt *)

Lemma complete_update f a : update f -> complete a -> complete (f a).
Proof.
  intros U. destruct U; unfold complete; simpl; intuition discriminate.
Qed.

Lemma complete_refl w : keeps_complete w w.
Proof. now intros Hw. Qed.

Lemma complete_trans w1 w2 w3 :
  keeps_complete w1 w2 -> keeps_complete w2 w3 -> keeps_complete w1 w3.
Proof. unfold keeps_complete. auto. Qed.

Lemma complete_disk w df ws :
  keeps_complete w (mkWorld (accounts w) df (now w) ws (github_enabled w)).
Proof. now intros Hw. Qed.

Lemma complete_keeps_update phone f w a :
  update f -> dict_get (accounts w) phone = Some a ->
  keeps_complete w (with_accounts (dict_set (accounts w) phone (f a)) w).
Proof.
  intros U Hget Hw. apply dict_set_Forall; [exact Hw|]. simpl.
  apply complete_update; [exact U|].
  exact (dict_get_Forall _ _ _ _ Hw Hget).
Qed.

Lemma lift_Ret_inv {A} (f : A -> PhoneAccountSystem.shown) (m : Op A)
    stdin w r rest w' out :
  PhoneAccountSystem.lift f m stdin w = Ret r rest w' out ->
  exists a, m stdin w = Ret a rest w' out.
Proof.
  unfold PhoneAccountSystem.lift, bind, ret.
  destruct (m stdin w) as [a s1 w1 o1|e w1 o1]; simpl; [|discriminate].
  rewrite app_nil_r. intros E. injection E as _ <- <- <-. eauto.
Qed.

(** A command that returns leaves no account half made. *)
Lemma command_complete `{Builtins} choice op stdin w r rest w' out :
  PhoneAccountSystem.command choice = Some op ->
  op stdin w = Ret r rest w' out ->
  all_complete (accounts w) -> all_complete (accounts w').
Proof.
  intros Hop E Hw.
  destruct (command_cases keeps_complete complete_refl complete_trans
              complete_disk complete_keeps_update choice op Hop) as [->|K].
  - apply lift_Ret_inv in E. destruct E as ([ok m] & E).
    pose proof (register_phone_spec stdin w) as Hs.
    pose proof (register_phone_post stdin w) as Hp.
    rewrite E in Hs, Hp. simpl in Hs, Hp. destruct ok.
    + destruct Hs as (phone & bonus & n & pin & q & answer & Hr).
      destruct Hr as (_ & _ & _ & _ & _ & _ & _ & _ & _ & _ & _ & ->).
      simpl. apply Forall_app. split; [exact Hw|].
      repeat constructor; simpl; discriminate.
    + destruct Hp as (A & _). now rewrite (A eq_refl).
  - specialize (K stdin w). rewrite E in K. simpl in K.
    destruct K as [K _]. now apply K.
Qed.

(** Through a whole session at the menu, whatever is typed: if the store
    the program started with is well formed, holds no balance below zero
    and no half-made account, then so does the store at every later menu
    prompt.  In particular, a registration that was given up or failed
    never leaves a partial account behind for the commands that follow. *)
Theorem session_invariants `{Builtins} w0 w :
  session w0 w ->
  store_ok (accounts w0) -> balances_not_negative w0 ->
  all_complete (accounts w0) ->
  store_ok (accounts w) /\ balances_not_negative w /\ all_complete (accounts w).
Proof.
  intros Hs H1 H2 H3.
  induction Hs as [|w choice op stdin r rest w' out Hs IH Hop E
                    |w t ws Hs IH Ht].
  - auto.
  - destruct IH as (I1 & I2 & I3). split; [|split].
    + pose proof (command_ok choice op Hop stdin w) as K.
      rewrite E in K. simpl in K. destruct K as [K _]. now apply K.
    + pose proof (command_stays choice op Hop stdin w) as K.
      rewrite E in K. simpl in K. destruct K as [K _]. now apply K.
    + exact (command_complete choice op stdin w r rest w' out Hop E I3).
  - exact IH.
Qed.

Lemma session_invariants_witness :
  store_ok
    (accounts
       (final_world (Demo.register_phone Demo.register_stdin Demo.empty_world)))
  /\ all_complete
       (accounts
          (final_world
             (Demo.register_phone Demo.register_stdin Demo.empty_world))).
Proof.
  assert (S : @session Demo.builtins Demo.empty_world
                (final_world
                   (Demo.register_phone Demo.register_stdin
                      Demo.empty_world))).
  { apply (@session_turn Demo.builtins Demo.empty_world Demo.empty_world "1"
             (PhoneAccountSystem.lift PhoneAccountSystem.ShownResult
                (@PhoneAccountSystem.register_phone Demo.builtins))
             Demo.register_stdin
             (PhoneAccountSystem.ShownResult (true, MsgAccountCreated 50)) []
             _
             (events_of
                (Demo.register_phone Demo.register_stdin Demo.empty_world))).
    - apply session_start.
    - reflexivity.
    - vm_compute. reflexivity. }
  destruct (@session_invariants Demo.builtins _ _ S) as (A & _ & C).
  - split; constructor.
  - constructor.
  - constructor.
  - split; [exact A|exact C].
Defined.

(* ================================================================== *)
(** ** Authentication, whatever is typed *)

Lemma asked_app p (a b : list Event) :
  asked p (a ++ b) = (asked p a + asked p b)%nat.
Proof. unfold asked. now rewrite filter_app, length_app. Qed.

Lemma events_of_pre {A} out (o : Outcome A) :
  events_of (pre out o) = out ++ events_of o.
Proof. now destruct o. Qed.

Ltac count_tac :=
  cbv [events_of ret raise asked filter prompt_eqb List.length app]; lia.

Section AuthenticationBound.
Context `{Builtins}.

Lemma password_attempts_asked n stored :
  forall stdin w,
    (asked AskPassword
       (events_of (AccountManager.password_attempts n stored stdin w))
     <= n)%nat.
Proof.
  induction n as [|n IH]; intros stdin w;
    cbn [AccountManager.password_attempts]; [count_tac|].
  destruct stdin as [|line rest]; [count_tac|].
  rewrite events_of_pre, asked_app.
  change (asked AskPassword [Asked AskPassword]) with 1%nat.
  destruct (NavigationManager.handle_back_choice line); [count_tac|].
  destruct (SecurityManager.verify_password line stored); [count_tac|].
  destruct n as [|n]; [count_tac|].
  rewrite events_of_pre, asked_app.
  change (asked AskPassword [Said (MsgWrongPassword (S n))]) with 0%nat.
  specialize (IH rest w). lia.
Qed.

Lemma answer_attempts_asked n stored :
  forall stdin w,
    (asked AskAnswer
       (events_of (AccountManager.answer_attempts n stored stdin w))
     <= n)%nat.
Proof.
  induction n as [|n IH]; intros stdin w;
    cbn [AccountManager.answer_attempts]; [count_tac|].
  destruct stdin as [|line rest]; [count_tac|].
  rewrite events_of_pre, asked_app. cbv zeta.
  change (asked AskAnswer [Asked AskAnswer]) with 1%nat.
  destruct (NavigationManager.handle_back_choice (Str.strip line));
    [count_tac|].
  destruct (SecurityManager.verify_answer (Str.strip line) stored);
    [count_tac|].
  destruct n as [|n]; [count_tac|].
  rewrite events_of_pre, asked_app.
  change (asked AskAnswer [Said (MsgWrongAnswer (S n))]) with 0%nat.
  specialize (IH rest w). lia.
Qed.

Lemma check_account_status_asked phone stdin w :
  asked AskPassword
    (events_of (AccountManager.check_account_status phone stdin w)) = 0%nat.
Proof.
  unfold AccountManager.check_account_status, bind, account_of, get_world,
    modify, ret, raise, AccountManager.save_data, FileStorageManager.save_data.
  destruct (dict_get (accounts w) phone) as [info|] eqn:Hget; cbn;
    [|reflexivity].
  destruct (Status_eqb (status info) StatusExpired); cbn; [reflexivity|].
  destruct (expiry_time info) as [e|]; cbn; [|reflexivity].
  destruct (TimeManager.is_expired (now w) e); cbn; [|reflexivity].
  rewrite Hget. cbn. destruct (writes w) as [|[] ws]; reflexivity.
Qed.

End AuthenticationBound.

(** Whatever is typed, password authentication shows its prompt at most
    three times, answers success only for an account in good standing and
    then leaves the world as it was, and otherwise changes no balance;
    authentication by the security question shows its prompt at most three
    times and never changes anything. *)
Theorem authentication_outcome `{Builtins} phone stdin w :
  (asked AskPassword
     (events_of (AccountManager.authenticate_with_password phone stdin w))
   <= 3)%nat
  /\ outcome_spec
       (fun _ w' =>
          w' = w /\ exists info, dict_get (accounts w) phone = Some info
                                 /\ in_good_standing w info)
       (same_balances w)
       (AccountManager.authenticate_with_password phone stdin w)
  /\ (asked AskAnswer
        (events_of
           (AccountManager.authenticate_with_security_question phone stdin w))
      <= 3)%nat
  /\ final_world
       (AccountManager.authenticate_with_security_question phone stdin w) = w.
Proof.
  split; [|split; [|split]].
  - unfold AccountManager.authenticate_with_password. unfold bind at 1.
    pose proof (check_account_status_asked phone stdin w) as Hc.
    destruct (AccountManager.check_account_status phone stdin w)
      as [[ok m] s1 w1 o1|e w1 o1]; cbv [events_of] in Hc;
      [|cbv [events_of]; lia].
    rewrite events_of_pre, asked_app, Hc.
    destruct ok; cbn [fst negb]; [|count_tac].
    unfold bind, account_of.
    destruct (dict_get (accounts w1) phone) as [info|]; [|count_tac].
    rewrite pre_nil.
    pose proof (password_attempts_asked Config.MAX_AUTH_ATTEMPTS
                  (password info) s1 w1) as Hp.
    change Config.MAX_AUTH_ATTEMPTS with 3%nat in *. lia.
  - apply authenticate_with_password_spec.
  - unfold AccountManager.authenticate_with_security_question, bind,
      account_of, say.
    destruct (dict_get (accounts w) phone) as [info|]; [|count_tac].
    cbn -[AccountManager.answer_attempts asked].
    rewrite !events_of_pre, !asked_app.
    pose proof (answer_attempts_asked Config.MAX_AUTH_ATTEMPTS
                  (security_answer info) stdin w) as Ha.
    change Config.MAX_AUTH_ATTEMPTS with 3%nat in *.
    change (asked AskAnswer []) with 0%nat.
    change (asked AskAnswer [Said (MsgSecurityQuestion (security_question info))])
      with 0%nat.
    lia.
  - apply authenticate_with_security_question_world.
Qed.

(* ================================================================== *)
(** ** The exceptions a command can raise *)

Section Safe.
Context {Pre : World -> Prop} {allowed : Exn -> Prop}.

Lemma hoare_pre {A} out (o : Outcome A) :
  hoare_post Pre allowed o -> hoare_post Pre allowed (pre out o).
Proof. now destruct o. Qed.

Lemma safe_bind {A B} (m : Op A) (f : A -> Op B) :
  safe Pre allowed m -> (forall a, safe Pre allowed (f a)) ->
  safe Pre allowed (bind m f).
Proof.
  intros Hm Hf stdin w Hw. unfold bind. specialize (Hm stdin w Hw).
  destruct (m stdin w) as [a s1 w1 o1|e w1 o1]; simpl in Hm; [|exact Hm].
  apply hoare_pre. now apply Hf.
Qed.

Lemma safe_ret {A} (a : A) : safe Pre allowed (ret a).
Proof. now intros stdin w Hw. Qed.

Lemma safe_raise {A} e : allowed e -> safe Pre allowed (@raise A e).
Proof. now intros He stdin w Hw. Qed.

Lemma safe_get_world : safe Pre allowed get_world.
Proof. now intros stdin w Hw. Qed.

Lemma safe_say m : safe Pre allowed (say m).
Proof. now intros stdin w Hw. Qed.

Lemma safe_sync : safe Pre allowed PhoneAccountSystem.sync_to_github.
Proof. now intros stdin w Hw. Qed.

Lemma safe_account_of phone :
  (forall w, Pre w -> present phone w) -> safe Pre allowed (account_of phone).
Proof.
  intros Hp stdin w Hw. unfold account_of.
  destruct (Hp w Hw) as (a & E). now rewrite E.
Qed.

Lemma safe_modify phone f :
  (forall w, Pre w -> present phone w) ->
  (forall w a, Pre w -> dict_get (accounts w) phone = Some a ->
               Pre (with_accounts (dict_set (accounts w) phone (f a)) w)) ->
  safe Pre allowed (modify phone f).
Proof.
  intros Hp Hf stdin w Hw. unfold modify.
  destruct (Hp w Hw) as (a & E). rewrite E. simpl. now apply Hf.
Qed.

Lemma safe_save_data :
  (forall w df ws,
     Pre w -> Pre (mkWorld (accounts w) df (now w) ws (github_enabled w))) ->
  safe Pre allowed AccountManager.save_data.
Proof.
  intros Hd stdin w Hw.
  unfold AccountManager.save_data, FileStorageManager.save_data.
  destruct (writes w) as [|[] ws]; simpl; now apply Hd.
Qed.

End Safe.

Lemma safe_weaken {A} (Pre : World -> Prop) (allowed allowed' : Exn -> Prop)
    (m : Op A) :
  (forall e, allowed e -> allowed' e) ->
  safe Pre allowed m -> safe Pre allowed' m.
Proof.
  intros Ha Hm stdin w Hw. specialize (Hm stdin w Hw).
  destruct (m stdin w); simpl in *; auto.
Qed.

Lemma usable_present phone w : usable phone w -> present phone w.
Proof. intros (a & E & _). now exists a. Qed.

Lemma usable_modify phone f w a :
  (forall x, expiry_time (f x) = expiry_time x) ->
  usable phone w -> dict_get (accounts w) phone = Some a ->
  usable phone (with_accounts (dict_set (accounts w) phone (f a)) w).
Proof.
  intros Hf (a' & E & He) Hget. exists (f a). simpl.
  rewrite dict_get_set_same. split; [reflexivity|].
  rewrite Hf. congruence.
Qed.

Lemma usable_disk phone w df ws :
  usable phone w ->
  usable phone (mkWorld (accounts w) df (now w) ws (github_enabled w)).
Proof. auto. Qed.

Lemma present_modify phone f w a :
  present phone w -> dict_get (accounts w) phone = Some a ->
  present phone (with_accounts (dict_set (accounts w) phone (f a)) w).
Proof. intros _ _. exists (f a). simpl. apply dict_get_set_same. Qed.

Lemma present_disk phone w df ws :
  present phone w ->
  present phone (mkWorld (accounts w) df (now w) ws (github_enabled w)).
Proof. auto. Qed.

Lemma eof_is_eof_or_overflow e : eof_only e -> eof_or_overflow e.
Proof. intros ->. now left. Qed.

Create HintDb safe.

#[local] Hint Resolve usable_present usable_disk present_disk : safe.
#[local] Hint Extern 1 (usable _ (with_accounts (dict_set _ _ (_ _)) _)) =>
  (apply usable_modify; [reflexivity|assumption|assumption]) : safe.
#[local] Hint Extern 1 (present _ (with_accounts (dict_set _ _ (_ _)) _)) =>
  (apply present_modify; [assumption|assumption]) : safe.
#[local] Hint Extern 1 (eof_only _) => reflexivity : safe.
#[local] Hint Extern 1 (eof_or_overflow _) => (left; reflexivity) : safe.
#[local] Hint Extern 1 (eof_or_overflow _) => (right; reflexivity) : safe.

(** A method written with [bind]: one lemma of [Safe] per statement. *)
Ltac safe_tac :=
  repeat match goal with
    | |- safe _ _ (bind _ _) => apply safe_bind; [|intros ?]
    | |- safe _ _ (ret _) => apply safe_ret
    | |- safe _ _ (raise _) => apply safe_raise; auto with safe
    | |- safe _ _ get_world => apply safe_get_world
    | |- safe _ _ (say _) => apply safe_say
    | |- safe _ _ PhoneAccountSystem.sync_to_github => apply safe_sync
    | |- safe _ _ (account_of _) => apply safe_account_of; auto with safe
    | |- safe _ _ (modify _ _) =>
        apply safe_modify; [auto with safe|intros; auto with safe]
    | |- safe _ _ AccountManager.save_data =>
        apply safe_save_data; intros; auto with safe
    | |- safe _ _ (if ?c then _ else _) => destruct c
    | |- safe _ _ (match ?x with _ => _ end) => destruct x
    end.

(** One step through the body of a loop. *)
Ltac hoare_tac :=
  repeat first
    [ apply hoare_pre
    | match goal with
      | IH : forall l', (List.length l' < _)%nat -> forall w, _ -> hoare_post _ _ _
        |- hoare_post _ _ _ => apply IH; [simpl; lia|assumption]
      | IH : forall w, _ -> hoare_post _ _ (?f _ w) |- hoare_post _ _ (?f _ _) =>
          apply IH; assumption
      | IH : safe _ _ ?m |- hoare_post _ _ (?m _ _) => apply IH; assumption
      | |- hoare_post _ _ (Ret _ _ _ _) => simpl; auto with safe
      | |- hoare_post _ _ (Raise _ _ _) => simpl; auto with safe
      | |- hoare_post ?Pre ?al (bind ?m ?f ?s ?w) =>
          let K := fresh "K" in
          assert (K : safe Pre al (bind m f)) by safe_tac;
          apply K; assumption
      | |- hoare_post _ _ (if ?c then _ else _) => destruct c eqn:?
      | |- hoare_post _ _ (match ?x with _ => _ end) => destruct x eqn:?
      end ].

Section ExceptionFacts.
Context `{Builtins}.

Lemma check_account_status_safe phone :
  safe (usable phone) eof_only (AccountManager.check_account_status phone).
Proof.
  intros stdin w (info & Hget & He).
  unfold AccountManager.check_account_status, bind, account_of, get_world,
    modify, ret, raise, AccountManager.save_data, FileStorageManager.save_data.
  rewrite Hget. cbn.
  destruct (Status_eqb (status info) StatusExpired); cbn;
    [exists info; split; assumption|].
  destruct (expiry_time info) as [e|] eqn:Ee; [|congruence]. cbn.
  destruct (TimeManager.is_expired (now w) e); cbn;
    [|exists info; split; [assumption|congruence]].
  rewrite Hget. cbn.
  destruct (writes w) as [|[] ws]; cbn;
    (exists (set_status StatusExpired info); simpl;
     rewrite dict_get_set_same; split; [reflexivity|congruence]).
Qed.

Lemma password_attempts_safe (Pre : World -> Prop) n stored :
  safe Pre eof_only (AccountManager.password_attempts n stored).
Proof.
  induction n as [|n IH]; intros stdin w Hw;
    cbn [AccountManager.password_attempts]; [hoare_tac|].
  destruct stdin as [|line rest]; hoare_tac.
Qed.

Lemma answer_attempts_safe (Pre : World -> Prop) n stored :
  safe Pre eof_only (AccountManager.answer_attempts n stored).
Proof.
  induction n as [|n IH]; intros stdin w Hw;
    cbn [AccountManager.answer_attempts]; [hoare_tac|].
  destruct stdin as [|line rest]; hoare_tac.
Qed.

Lemma authenticate_with_password_safe phone :
  safe (usable phone) eof_only
    (AccountManager.authenticate_with_password phone).
Proof.
  unfold AccountManager.authenticate_with_password.
  apply safe_bind; [apply check_account_status_safe|intros checked].
  destruct (negb (fst checked)); [safe_tac|].
  apply safe_bind; [safe_tac|intros info]. apply password_attempts_safe.
Qed.

Lemma authenticate_with_security_question_safe phone :
  safe (usable phone) eof_only
    (AccountManager.authenticate_with_security_question phone).
Proof.
  unfold AccountManager.authenticate_with_security_question.
  apply safe_bind; [safe_tac|intros info].
  apply safe_bind; [safe_tac|intros _]. apply answer_attempts_safe.
Qed.

Lemma new_password_loop_safe phone :
  safe (usable phone) eof_only (AccountManager.new_password_loop phone).
Proof.
  intros stdin. induction stdin as [stdin IH] using console_ind.
  intros w Hw. destruct stdin as [|line rest];
    cbn [AccountManager.new_password_loop]; hoare_tac.
Qed.

Lemma AccountManager_reset_password_safe phone :
  safe (usable phone) eof_only (AccountManager.reset_password phone).
Proof.
  unfold AccountManager.reset_password.
  apply safe_bind;
    [apply authenticate_with_security_question_safe|intros auth].
  destruct (negb (fst auth)); [safe_tac|]. apply new_password_loop_safe.
Qed.

Lemma apply_recharge_safe phone amount :
  safe (usable phone) eof_only (PhoneAccountSystem.apply_recharge phone amount).
Proof. unfold PhoneAccountSystem.apply_recharge. safe_tac. Qed.

Lemma apply_deduct_safe phone amount :
  safe (usable phone) eof_only (PhoneAccountSystem.apply_deduct phone amount).
Proof. unfold PhoneAccountSystem.apply_deduct. safe_tac. Qed.

Lemma recharge_amount_safe phone :
  safe (usable phone) eof_only (PhoneAccountSystem.recharge_amount phone).
Proof.
  intros stdin. induction stdin as [|line rest IH]; intros w Hw;
    cbn [PhoneAccountSystem.recharge_amount]; hoare_tac.
  now apply apply_recharge_safe.
Qed.

Lemma deduct_amount_safe phone :
  safe (usable phone) eof_only (PhoneAccountSystem.deduct_amount phone).
Proof.
  intros stdin. induction stdin as [|line rest IH]; intros w Hw;
    cbn [PhoneAccountSystem.deduct_amount]; hoare_tac.
  - now apply apply_deduct_safe.
  - destruct Hw as (info & Hget & _). congruence.
Qed.

End ExceptionFacts.

Lemma hoare_weaken {A} (Q Q' : World -> Prop) (allowed allowed' : Exn -> Prop)
    (o : Outcome A) :
  (forall w, Q w -> Q' w) -> (forall e, allowed e -> allowed' e) ->
  hoare_post Q allowed o -> hoare_post Q' allowed' o.
Proof. intros HQ Ha. destruct o; simpl; auto. Qed.

Lemma hoare_bind {A B} (Pre Q : World -> Prop) (allowed : Exn -> Prop)
    (m : Op A) (f : A -> Op B) stdin w :
  hoare_post Pre allowed (m stdin w) ->
  (forall a s1 w1, Pre w1 -> hoare_post Q allowed (f a s1 w1)) ->
  hoare_post Q allowed (bind m f stdin w).
Proof.
  intros Hm Hf. unfold bind.
  destruct (m stdin w) as [a s1 w1 o1|e w1 o1]; simpl in Hm; [|exact Hm].
  destruct (f a s1 w1) eqn:E; simpl; specialize (Hf a s1 w1 Hm);
    now rewrite E in Hf.
Qed.

Lemma In_dict_get (d : dict) k v :
  In (k, v) d -> exists v', dict_get d k = Some v'.
Proof.
  intros Hin. pose proof (In_dict_mem _ _ _ Hin) as Hm. unfold dict_mem in Hm.
  destruct (dict_get d k) as [v'|]; [eauto|discriminate].
Qed.

Lemma all_complete_usable w phone info :
  all_complete (accounts w) -> In (phone, info) (accounts w) ->
  usable phone w.
Proof.
  intros Hall Hin. destruct (In_dict_get _ _ _ Hin) as (v' & Hget).
  exists v'. split; [exact Hget|].
  pose proof (dict_get_Forall _ _ _ _ Hall Hget) as Hc. simpl in Hc.
  unfold complete in Hc. tauto.
Qed.

Section CommandExceptions.
Context `{Builtins}.

(** The account that [find_account] names is there for the commands. *)
Lemma find_account_usable identifier w phone message :
  all_complete (accounts w) ->
  PhoneAccountSystem.find_account identifier (accounts w)
  = (Some phone, message) ->
  usable phone w.
Proof.
  intros Hall E. destruct (find_account_found _ _ _ _ E) as (info & Hin).
  now apply (all_complete_usable w phone info).
Qed.

Lemma recharge_safe stdin :
  forall w,
    all_complete (accounts w) ->
    hoare_post (fun _ => True) eof_only (PhoneAccountSystem.recharge stdin w).
Proof.
  induction stdin as [|line rest IH]; intros w Hw;
    cbn [PhoneAccountSystem.recharge]; [reflexivity|].
  apply hoare_pre. cbv zeta.
  destruct (NavigationManager.handle_back_choice (Str.strip line));
    [exact I|].
  destruct (PhoneAccountSystem.find_account (Str.strip line) (accounts w))
    as [[phone|] message] eqn:Ef; [|now apply hoare_pre, IH].
  apply (hoare_bind (usable phone)).
  - apply authenticate_with_password_safe.
    exact (find_account_usable _ _ _ _ Hw Ef).
  - intros auth s1 w1 Hu. destruct (negb (fst auth)); [exact I|].
    eapply hoare_weaken; [| |apply (recharge_amount_safe phone s1 w1 Hu)];
      auto.
Qed.

Lemma deduct_safe stdin :
  forall w,
    all_complete (accounts w) ->
    hoare_post (fun _ => True) eof_only (PhoneAccountSystem.deduct stdin w).
Proof.
  induction stdin as [|line rest IH]; intros w Hw;
    cbn [PhoneAccountSystem.deduct]; [reflexivity|].
  apply hoare_pre. cbv zeta.
  destruct (NavigationManager.handle_back_choice (Str.strip line));
    [exact I|].
  destruct (PhoneAccountSystem.find_account (Str.strip line) (accounts w))
    as [[phone|] message] eqn:Ef; [|now apply hoare_pre, IH].
  apply (hoare_bind (usable phone)).
  - apply authenticate_with_password_safe.
    exact (find_account_usable _ _ _ _ Hw Ef).
  - intros auth s1 w1 Hu. destruct (negb (fst auth)); [exact I|].
    eapply hoare_weaken; [| |apply (deduct_amount_safe phone s1 w1 Hu)];
      auto.
Qed.

Lemma reset_password_safe stdin :
  forall w,
    all_complete (accounts w) ->
    hoare_post (fun _ => True) eof_only
      (PhoneAccountSystem.reset_password stdin w).
Proof.
  induction stdin as [|line rest IH]; intros w Hw;
    cbn [PhoneAccountSystem.reset_password]; [reflexivity|].
  apply hoare_pre. cbv zeta.
  destruct (NavigationManager.handle_back_choice (Str.strip line));
    [exact I|].
  destruct (PhoneAccountSystem.find_account (Str.strip line) (accounts w))
    as [[phone|] message] eqn:Ef; [|now apply hoare_pre, IH].
  apply (hoare_bind (usable phone)).
  - apply AccountManager_reset_password_safe.
    exact (find_account_usable _ _ _ _ Hw Ef).
  - intros result s1 w1 Hu. unfold bind, ret, PhoneAccountSystem.sync_to_github.
    destruct (fst result); exact I.
Qed.

Lemma get_balance_safe stdin :
  forall w,
    all_complete (accounts w) ->
    hoare_post (fun _ => True) eof_only (PhoneAccountSystem.get_balance stdin w).
Proof.
  induction stdin as [|line rest IH]; intros w Hw;
    cbn [PhoneAccountSystem.get_balance]; [reflexivity|].
  apply hoare_pre. cbv zeta.
  destruct (NavigationManager.handle_back_choice (Str.strip line));
    [exact I|].
  destruct (PhoneAccountSystem.find_account (Str.strip line) (accounts w))
    as [[phone|] message] eqn:Ef; [|now apply hoare_pre, IH].
  destruct (find_account_usable _ _ _ _ Hw Ef) as (info & Hget & _).
  unfold bind, account_of, ret. rewrite Hget. exact I.
Qed.

Lemma set_registration_bonus_safe phone :
  safe (fun _ => True) eof_only (AccountManager.set_registration_bonus phone).
Proof.
  intros stdin. induction stdin as [|line rest IH]; intros w Hw;
    cbn [AccountManager.set_registration_bonus]; hoare_tac.
Qed.

Lemma store_valid_days_safe phone n :
  safe (present phone) eof_or_overflow
    (AccountManager.store_valid_days phone n).
Proof. unfold AccountManager.store_valid_days. safe_tac. Qed.

Lemma set_valid_days_safe phone :
  safe (present phone) eof_or_overflow (AccountManager.set_valid_days phone).
Proof.
  intros stdin. induction stdin as [|line rest IH]; intros w Hw;
    cbn [AccountManager.set_valid_days]; hoare_tac.
  now apply store_valid_days_safe.
Qed.

Lemma password_loop_safe phone :
  safe (present phone) eof_or_overflow (AccountManager.password_loop phone).
Proof.
  intros stdin. induction stdin as [stdin IH] using console_ind.
  intros w Hw. destruct stdin as [|line rest];
    cbn [AccountManager.password_loop]; hoare_tac.
Qed.

Lemma question_loop_safe (Pre : World -> Prop) :
  safe Pre eof_or_overflow AccountManager.question_loop.
Proof.
  intros stdin. induction stdin as [|line rest IH]; intros w Hw;
    cbn [AccountManager.question_loop]; hoare_tac.
Qed.

Lemma answer_loop_safe phone q :
  safe (present phone) eof_or_overflow (AccountManager.answer_loop phone q).
Proof.
  intros stdin. induction stdin as [stdin IH] using console_ind.
  intros w Hw. destruct stdin as [|line rest];
    cbn [AccountManager.answer_loop]; hoare_tac.
Qed.

Lemma set_password_and_security_safe phone :
  safe (present phone) eof_or_overflow
    (AccountManager.set_password_and_security phone).
Proof.
  unfold AccountManager.set_password_and_security.
  apply safe_bind; [apply password_loop_safe|intros stored].
  destruct (negb stored); [safe_tac|].
  apply safe_bind; [apply question_loop_safe|intros choice].
  destruct choice as [q|]; [|safe_tac].
  apply safe_bind; [apply answer_loop_safe|intros stored'].
  destruct (negb stored'); safe_tac.
Qed.

Lemma delete_account_present phone stdin w :
  present phone w ->
  hoare_post (fun _ => True) eof_or_overflow
    (PhoneAccountSystem.delete_account phone stdin w).
Proof.
  intros (a & Hget). unfold PhoneAccountSystem.delete_account, dict_mem.
  now rewrite Hget.
Qed.

Lemma register_account_safe phone last4 stdin w :
  hoare_post (fun _ => True) eof_or_overflow
    (PhoneAccountSystem.register_account phone last4 stdin w).
Proof.
  unfold PhoneAccountSystem.register_account.
  apply (hoare_bind (fun _ => True)).
  - eapply hoare_weaken;
      [| |apply (set_registration_bonus_safe phone stdin w I)];
      auto using eof_is_eof_or_overflow.
  - intros [m|bonus] s1 w1 _; [exact I|].
    apply (hoare_bind (present phone)).
    { unfold PhoneAccountSystem.create_account. simpl.
      eexists. apply dict_get_set_same. }
    intros _ s2 w2 Hp. apply (hoare_bind (present phone)).
    { now apply set_valid_days_safe. }
    intros valid s3 w3 Hp3. destruct (negb (fst valid)).
    { apply (hoare_bind (fun _ => True));
        [now apply delete_account_present|intros; exact I]. }
    apply (hoare_bind (present phone)).
    { now apply set_password_and_security_safe. }
    intros secured s4 w4 Hp4. destruct (negb (fst secured)).
    { apply (hoare_bind (fun _ => True));
        [now apply delete_account_present|intros; exact I]. }
    unfold bind, ret, PhoneAccountSystem.sync_to_github. exact I.
Qed.

Lemma register_phone_safe stdin :
  forall w,
    hoare_post (fun _ => True) eof_or_overflow
      (PhoneAccountSystem.register_phone stdin w).
Proof.
  induction stdin as [|line rest IH]; intros w;
    cbn [PhoneAccountSystem.register_phone]; [now left|].
  apply hoare_pre. cbv zeta.
  destruct (NavigationManager.handle_back_choice (Str.strip line));
    [exact I|].
  destruct (negb (SecurityManager.validate_phone (Str.strip line)));
    [apply hoare_pre, IH|].
  destruct (dict_mem (accounts w) (Str.strip line)); [apply hoare_pre, IH|].
  destruct (PhoneAccountSystem.tail_conflict (Str.suffix 4 (Str.strip line))
              (accounts w)); [apply hoare_pre, IH|].
  apply register_account_safe.
Qed.

Lemma lift_Raise_inv {A} (f : A -> PhoneAccountSystem.shown) (m : Op A)
    stdin w e w' out :
  PhoneAccountSystem.lift f m stdin w = Raise e w' out ->
  m stdin w = Raise e w' out.
Proof.
  unfold PhoneAccountSystem.lift, bind, ret.
  destruct (m stdin w) as [a s1 w1 o1|e1 w1 o1]; simpl; intros E;
    [discriminate E|now injection E as -> -> ->].
Qed.

End CommandExceptions.

(** No command looks up a key that is missing.  From a store without
    half-made accounts, whatever is typed, a command of the menu that
    raises does not raise [KeyError]: every phone it indexes the store with
    is in the store, every account that [check_account_status] reads has
    its [expiry_time], and the entry that the rollback of a registration
    deletes is there.  And the [OverflowError] of a validity period out of
    range comes out of registration alone. *)
Theorem commands_never_miss_a_key `{Builtins} choice op stdin w e w' out :
  PhoneAccountSystem.command choice = Some op ->
  all_complete (accounts w) ->
  op stdin w = Raise e w' out ->
  e <> KeyError /\ (e = OverflowError -> choice = "1"%string).
Proof.
  unfold PhoneAccountSystem.command. intros Hop Hw E.
  destruct (String.eqb choice "1") eqn:E1.
  { apply String.eqb_eq in E1. injection Hop as <-.
    apply lift_Raise_inv in E.
    pose proof (register_phone_safe stdin w) as Hs. rewrite E in Hs.
    destruct Hs as [->| ->]; split; auto; discriminate. }
  assert (He : e = EOFError); [|subst e; split; discriminate].
  repeat match type of Hop with
    | (if ?c then _ else _) = _ => destruct c
    end;
    try discriminate; injection Hop as <-; apply lift_Raise_inv in E.
  - pose proof (recharge_safe stdin w Hw) as Hs. now rewrite E in Hs.
  - pose proof (deduct_safe stdin w Hw) as Hs. now rewrite E in Hs.
  - pose proof (get_balance_safe stdin w Hw) as Hs. now rewrite E in Hs.
  - pose proof (reset_password_safe stdin w Hw) as Hs. now rewrite E in Hs.
  - unfold PhoneAccountSystem.list_all_accounts in E.
    destruct (accounts w); discriminate E.
  - unfold PhoneAccountSystem.check_expired_accounts in E.
    destruct (PhoneAccountSystem.scan_accounts _ _ _ _ _) as [[? ?] ?].
    discriminate E.
Qed.

Lemma commands_never_miss_a_key_witness :
  all_complete Demo.store50
  /\ Demo.deduct [Demo.phone; "0000"] Demo.world50
     = Raise EOFError Demo.world50
         [Asked AskIdentifier; Asked AskPassword; Said (MsgWrongPassword 2);
          Asked AskPassword]
  /\ EOFError <> KeyError.
Proof.
  assert (Hc : all_complete Demo.store50).
  { repeat constructor; discriminate. }
  assert (E : PhoneAccountSystem.lift PhoneAccountSystem.ShownResult
                (@PhoneAccountSystem.deduct Demo.builtins)
                [Demo.phone; "0000"] Demo.world50
              = Raise EOFError Demo.world50
                  [Asked AskIdentifier; Asked AskPassword;
                   Said (MsgWrongPassword 2); Asked AskPassword])
    by (vm_compute; reflexivity).
  split; [exact Hc|]. split; [vm_compute; reflexivity|].
  apply (@commands_never_miss_a_key Demo.builtins "3" _
           [Demo.phone; "0000"] Demo.world50 _ _ _ eq_refl Hc E).
Defined.

(* ================================================================== *)
(** ** Emptying an account *)

(** A finite positive float taken off an equal one leaves zero: no
    rounding takes place. *)
Lemma float_sub_self (b a : float) :
  (a =? b)%float = true -> (a <=? 0)%float = false ->
  (a <? infinity)%float = true ->
  (b - a)%float = 0%float.
Proof.
  intros Heq Hpos Hfin.
  rewrite <- (SF2Prim_Prim2SF (b - a)). rewrite sub_spec.
  rewrite eqb_spec in Heq. rewrite leb_spec, Prim2SF_zero in Hpos.
  rewrite ltb_spec in Hfin.
  change (Prim2SF infinity) with (S754_infinity false) in Hfin.
  unfold SFeqb, SFleb, SFltb, SF64sub in *.
  destruct (Prim2SF a) as [sx|sx| |sx mx ex],
           (Prim2SF b) as [sy|sy| |sy my ey];
    simpl in *; try discriminate;
    try (destruct sx; discriminate);
    try (destruct sy; discriminate);
    try (destruct sx, sy; discriminate).
  destruct sx; [discriminate|]. destruct sy; [discriminate|].
  destruct (Z.compare_spec ex ey) as [E|L|G]; try discriminate.
  subst ey.
  destruct (Pos.compare_cont Eq mx my) eqn:Em; try discriminate.
  apply Pos.compare_eq in Em. subst my.
  change IntDef.Z.min with Z.min. rewrite Z.min_id, shl_align_same.
  cbn [fst cond_Zopp]. rewrite Z.sub_diag. reflexivity.
Qed.

(** A deduction of the whole balance, finite and positive, goes through
    and leaves a balance of exactly zero. *)
Theorem deduct_whole_balance `{Builtins} phone info line amount rest w :
  dict_get (accounts w) phone = Some info ->
  types_amount line amount ->
  (amount =? balance info)%float = true ->
  (amount <=? 0)%float = false ->
  (amount <? infinity)%float = true ->
  next_write_ok w = true ->
  let d := dict_set (accounts w) phone (touched (now w) 0 info) in
  PhoneAccountSystem.deduct_amount phone (line :: rest) w
  = Ret (true, MsgDeducted phone 0) rest (saved_world d w)
      (Asked AskDeductAmount :: Saved d true :: pushed w).
Proof.
  intros Hget Hty Heq Hpos Hfin Hok d.
  rewrite deduct_amount_accepts with (info := info) (amount := amount);
    auto using float_eqb_not_ltb.
  rewrite apply_deduct_saved with (info := info); auto.
  unfold d. now rewrite (float_sub_self _ _ Heq Hpos Hfin).
Qed.

Lemma deduct_whole_balance_witness :
  balance_at Demo.phone
    (final_world
       (@PhoneAccountSystem.deduct_amount Demo.builtins Demo.phone ["50"]
          Demo.world50))
  = Some 0%float.
Proof.
  assert (Hget : dict_get (accounts Demo.world50) Demo.phone
                 = Some Demo.account50) by reflexivity.
  assert (Hty : @types_amount Demo.builtins "50" 50) by (split; reflexivity).
  rewrite (@deduct_whole_balance Demo.builtins Demo.phone Demo.account50
             "50" 50 [] Demo.world50 Hget Hty eq_refl eq_refl eq_refl
             eq_refl).
  reflexivity.
Defined.
